(** * easy_cropper: the selection geometry and crop export of image_cropper.py

    A shallow embedding of the [ImageCropper] class: the viewport fit
    ([_render_image], [_canvas_to_image]), the selection rectangle and its
    eight handles ([_norm_sel], [_handles], [_hit_handle]), the pointer
    handlers ([_on_mouse_down], [_on_mouse_drag], [_on_mouse_up]) and the
    export ([_save_crop]) with its per-image counter and output naming.

    Conventions.
    - Tk delivers pointer coordinates and widget sizes as Python [int]s: they
      are [Z] here.  Python [float]s ([scale], image-space coordinates, the
      handle midpoints) are idealised as exact rationals [Q]; rounding error
      of binary64 arithmetic is not modelled.
    - An exception that escapes a handler is reported by Tk and the
      application goes on with the state as mutated so far; handlers are
      therefore total functions on states.
    - Widgets, dialogs, toasts and the configuration file are not modelled.
    - Images that open are taken to decode.  PIL reads the pixels lazily, so
      a file whose header opens but whose data is broken raises later, in
      [convert], [resize] or [crop]; [_load_image], [_save_crop] and the
      event loop [run] do not follow such files.  The exits in the middle
      of a load are given apart, in [_load_image_exits].

    Beside these: the cursor of [_on_mouse_move], the handle squares of
    [_draw_selection], the folder list of [_load_image] with [_next_image]
    and [_prev_image], [on_save] of the settings dialog and
    [_resolve_out_folder].  [str.strip] is a parameter, as [str.format] is.
    The entry [last_file] that [_load_image] writes to the configuration is
    left out: nothing modelled reads it. *)

From Stdlib Require Import ZArith QArith Qround Qminmax Qabs.
From Stdlib Require Import String Ascii List Lia Lqa DecimalString.
From stdpp Require Import gmap strings sorting.
Import ListNotations.

Local Open Scope string_scope.
Local Open Scope Z_scope.

(** ** Python built-ins and [os.path] helpers used by the program *)

Module Py.

(** [int(x)] on a float: truncation toward zero. *)
Definition int (x : Q) : Z := Z.quot (Qnum x) (Z.pos (Qden x)).

(** [str(n)] for a non-negative integer. *)
Definition str (n : nat) : string := NilEmpty.string_of_uint (Nat.to_uint n).

(** [x or d] on integers: [d] when [x] is falsy, that is [0]. *)
Definition or_else (x d : Z) : Z := if x =? 0 then d else x.

(** [s.lower()] on the ASCII letters.  Names are byte strings here; no
    character outside ASCII lower-cases to a letter of the extension tables
    below, so the membership tests on [ext.lower()] come out as in Python. *)
Definition lower_char (c : ascii) : ascii :=
  let n := nat_of_ascii c in
  if ((65 <=? n) && (n <=? 90))%nat then ascii_of_nat (n + 32) else c.

Fixpoint lower (s : string) : string :=
  match s with
  | EmptyString => EmptyString
  | String c t => String (lower_char c) (lower t)
  end.

(** [s.rfind(c)]: index of the last occurrence of [c], or [-1]. *)
Fixpoint rfind_from (c : ascii) (s : string) (i last : Z) : Z :=
  match s with
  | EmptyString => last
  | String a t => rfind_from c t (i + 1) (if Ascii.eqb a c then i else last)
  end.

Definition rfind (c : ascii) (s : string) : Z := rfind_from c s 0 (-1).

(** Slices [s[:k]] and [s[k:]] for [0 <= k]. *)
Fixpoint take (k : nat) (s : string) : string :=
  match k, s with
  | S k', String c t => String c (take k' t)
  | _, _ => EmptyString
  end.

Fixpoint drop (k : nat) (s : string) : string :=
  match k, s with
  | S k', String _ t => drop k' t
  | _, _ => s
  end.

(** [os.path.basename] (POSIX): the part after the last slash. *)
Definition basename (p : string) : string :=
  drop (Z.to_nat (rfind "/" p + 1)) p.

(** The loop of [genericpath._splitext] that skips leading dots: does the
    name part before the last dot hold a character that is not a dot? *)
Fixpoint has_non_dot (s : string) : bool :=
  match s with
  | EmptyString => false
  | String c t => if Ascii.eqb c "." then has_non_dot t else true
  end.

(** [os.path.splitext] (POSIX). *)
Definition splitext (p : string) : string * string :=
  let sepIndex := rfind "/" p in
  let dotIndex := rfind "." p in
  if (sepIndex <? dotIndex)
     && has_non_dot (take (Z.to_nat (dotIndex - (sepIndex + 1)))
                          (drop (Z.to_nat (sepIndex + 1)) p))
  then (take (Z.to_nat dotIndex) p, drop (Z.to_nat dotIndex) p)
  else (p, EmptyString).

(** [c in s] for a one-character string [c]. *)
Fixpoint contains (c : ascii) (s : string) : bool :=
  match s with
  | EmptyString => false
  | String a t => Ascii.eqb a c || contains c t
  end.

(** [x in (s1, s2, ...)] on strings. *)
Definition mem (x : string) (l : list string) : bool :=
  existsb (String.eqb x) l.

End Py.

(** ** [str.format] with the keywords [base], [n], [ext]

    [pattern.format(base=..., n=..., ext=...)] is library code.  The export is
    parameterised by a formatter that returns [None] when the call raises.
    [format_fragment] is the part of the format-string grammar modelled
    here: literal text, the escapes [{{] and [}}], and replacement fields that
    are a plain keyword.  A field with a conversion ([!]), a format spec
    ([:]), an attribute ([.]), an index ([[]) or a nested brace is outside the
    fragment. *)

Definition Formatter : Type := string -> string -> nat -> string -> option string.

Inductive FormatResult : Type :=
| Formatted (s : string)
| FormatRaises
| FormatUnmodelled.

Definition keyword (base : string) (n : nat) (ext : string) (name : string)
  : option string :=
  if String.eqb name "base" then Some base
  else if String.eqb name "n" then Some (Py.str n)
  else if String.eqb name "ext" then Some ext
  else None.

Definition field_special (c : ascii) : bool :=
  Py.contains c "{!:.[".

(** One left-to-right pass.  [field] is [None] in literal text and
    [Some name] inside a replacement field whose name read so far is [name]. *)
Fixpoint format_scan (kw : string -> option string) (s : string)
    (field : option string) (out : string) : FormatResult :=
  match field with
  | None =>
      match s with
      | EmptyString => Formatted out
      | String c t =>
          if Ascii.eqb c "{" then
            match t with
            | String c' t' =>
                if Ascii.eqb c' "{" then format_scan kw t' None (out ++ "{")
                else format_scan kw t (Some EmptyString) out
            | EmptyString => FormatRaises
            end
          else if Ascii.eqb c "}" then
            match t with
            | String c' t' =>
                if Ascii.eqb c' "}" then format_scan kw t' None (out ++ "}")
                else FormatRaises
            | EmptyString => FormatRaises
            end
          else format_scan kw t None (out ++ String c EmptyString)
      end
  | Some name =>
      match s with
      | EmptyString => FormatRaises
      | String c t =>
          if Ascii.eqb c "}" then
            match kw name with
            | Some v => format_scan kw t None (out ++ v)
            | None => FormatRaises
            end
          else if field_special c then FormatUnmodelled
          else format_scan kw t (Some (name ++ String c EmptyString)) out
      end
  end.

Definition format_fragment (pattern base : string) (n : nat) (ext : string)
  : FormatResult :=
  format_scan (keyword base n ext) pattern None EmptyString.

(** A formatter is faithful when it agrees with the fragment wherever the
    fragment decides. *)
Definition faithful (fmt : Formatter) : Prop :=
  forall pattern base n ext,
    match format_fragment pattern base n ext with
    | Formatted s => fmt pattern base n ext = Some s
    | FormatRaises => fmt pattern base n ext = None
    | FormatUnmodelled => True
    end.

(** The formatter that treats every pattern outside the fragment as raising;
    it is faithful, and serves to run the model on concrete inputs. *)
Definition fragment_formatter : Formatter :=
  fun pattern base n ext =>
    match format_fragment pattern base n ext with
    | Formatted s => Some s
    | _ => None
    end.

(** ** Constants *)

Definition SUPPORTED_EXTS : list string :=
  [".jpg"; ".jpeg"; ".png"; ".bmp"; ".gif"; ".tiff"; ".webp"]%string.

Definition HIT_RADIUS : Z := 10.

Definition DEFAULT_PATTERN : string := "{base}_cr{n}".

(** The tuple of extensions [_save_crop] writes as they are. *)
Definition WRITABLE_EXTS : list string :=
  [".jpg"; ".jpeg"; ".png"; ".bmp"; ".tiff"]%string.

(** ** Application state *)

Definition box : Type := Z * Z * Z * Z.

Record App : Type := mkApp {
  image_path : option string;
  pil_image : option (Z * Z);          (* size of the loaded image *)
  scale : Q;
  offset_x : Z;
  offset_y : Z;
  sel_x0 : option Z;
  sel_y0 : option Z;
  sel_x1 : option Z;
  sel_y1 : option Z;
  _drag_mode : option string;
  _drag_ox : Z;
  _drag_oy : Z;
  _drag_sel_snapshot : option box;
  crop_counter : gmap string nat;
  config : gmap string string;
  canvas : Z * Z                       (* winfo_width, winfo_height *)
}.

Definition init (cfg : gmap string string) (cv : Z * Z) : App :=
  {| image_path := None; pil_image := None;
     scale := 1%Q; offset_x := 0; offset_y := 0;
     sel_x0 := None; sel_y0 := None; sel_x1 := None; sel_y1 := None;
     _drag_mode := None; _drag_ox := 0; _drag_oy := 0;
     _drag_sel_snapshot := None;
     crop_counter := ∅; config := cfg; canvas := cv |}.

Definition set_sel (a : App) (x0 y0 x1 y1 : option Z) : App :=
  {| image_path := image_path a; pil_image := pil_image a;
     scale := scale a; offset_x := offset_x a; offset_y := offset_y a;
     sel_x0 := x0; sel_y0 := y0; sel_x1 := x1; sel_y1 := y1;
     _drag_mode := _drag_mode a; _drag_ox := _drag_ox a;
     _drag_oy := _drag_oy a; _drag_sel_snapshot := _drag_sel_snapshot a;
     crop_counter := crop_counter a; config := config a;
     canvas := canvas a |}.

Definition set_drag (a : App) (mode : option string) (ox oy : Z)
    (snap : option box) : App :=
  {| image_path := image_path a; pil_image := pil_image a;
     scale := scale a; offset_x := offset_x a; offset_y := offset_y a;
     sel_x0 := sel_x0 a; sel_y0 := sel_y0 a;
     sel_x1 := sel_x1 a; sel_y1 := sel_y1 a;
     _drag_mode := mode; _drag_ox := ox; _drag_oy := oy;
     _drag_sel_snapshot := snap;
     crop_counter := crop_counter a; config := config a;
     canvas := canvas a |}.

Definition set_view (a : App) (s : Q) (ox oy : Z) : App :=
  {| image_path := image_path a; pil_image := pil_image a;
     scale := s; offset_x := ox; offset_y := oy;
     sel_x0 := sel_x0 a; sel_y0 := sel_y0 a;
     sel_x1 := sel_x1 a; sel_y1 := sel_y1 a;
     _drag_mode := _drag_mode a; _drag_ox := _drag_ox a;
     _drag_oy := _drag_oy a; _drag_sel_snapshot := _drag_sel_snapshot a;
     crop_counter := crop_counter a; config := config a;
     canvas := canvas a |}.

Definition set_image (a : App) (path : option string) (img : option (Z * Z))
  : App :=
  {| image_path := path; pil_image := img;
     scale := scale a; offset_x := offset_x a; offset_y := offset_y a;
     sel_x0 := sel_x0 a; sel_y0 := sel_y0 a;
     sel_x1 := sel_x1 a; sel_y1 := sel_y1 a;
     _drag_mode := _drag_mode a; _drag_ox := _drag_ox a;
     _drag_oy := _drag_oy a; _drag_sel_snapshot := _drag_sel_snapshot a;
     crop_counter := crop_counter a; config := config a;
     canvas := canvas a |}.

Definition set_crop_counter (a : App) (m : gmap string nat) : App :=
  {| image_path := image_path a; pil_image := pil_image a;
     scale := scale a; offset_x := offset_x a; offset_y := offset_y a;
     sel_x0 := sel_x0 a; sel_y0 := sel_y0 a;
     sel_x1 := sel_x1 a; sel_y1 := sel_y1 a;
     _drag_mode := _drag_mode a; _drag_ox := _drag_ox a;
     _drag_oy := _drag_oy a; _drag_sel_snapshot := _drag_sel_snapshot a;
     crop_counter := m; config := config a;
     canvas := canvas a |}.

Definition set_config (a : App) (cfg : gmap string string) : App :=
  {| image_path := image_path a; pil_image := pil_image a;
     scale := scale a; offset_x := offset_x a; offset_y := offset_y a;
     sel_x0 := sel_x0 a; sel_y0 := sel_y0 a;
     sel_x1 := sel_x1 a; sel_y1 := sel_y1 a;
     _drag_mode := _drag_mode a; _drag_ox := _drag_ox a;
     _drag_oy := _drag_oy a; _drag_sel_snapshot := _drag_sel_snapshot a;
     crop_counter := crop_counter a; config := cfg;
     canvas := canvas a |}.

Definition set_canvas (a : App) (cv : Z * Z) : App :=
  {| image_path := image_path a; pil_image := pil_image a;
     scale := scale a; offset_x := offset_x a; offset_y := offset_y a;
     sel_x0 := sel_x0 a; sel_y0 := sel_y0 a;
     sel_x1 := sel_x1 a; sel_y1 := sel_y1 a;
     _drag_mode := _drag_mode a; _drag_ox := _drag_ox a;
     _drag_oy := _drag_oy a; _drag_sel_snapshot := _drag_sel_snapshot a;
     crop_counter := crop_counter a; config := config a;
     canvas := cv |}.

(** ** Selection helpers *)

(** [None not in (sel_x0, sel_y0, sel_x1, sel_y1)] *)
Definition _has_selection (a : App) : bool :=
  negb (existsb (fun c : option Z => match c with None => true | Some _ => false end)
                [sel_x0 a; sel_y0 a; sel_x1 a; sel_y1 a]).

(** The four corner fields as one tuple, when all of them are set. *)
Definition sel_box (a : App) : option box :=
  match sel_x0 a, sel_y0 a, sel_x1 a, sel_y1 a with
  | Some x0, Some y0, Some x1, Some y1 => Some (x0, y0, x1, y1)
  | _, _, _, _ => None
  end.

Definition _norm_sel (b : box) : box :=
  let '(x0, y0, x1, y1) := b in
  (Z.min x0 x1, Z.min y0 y1, Z.max x0 x1, Z.max y0 y1).

(** The dict of handles, in insertion order; the midpoints come from a true
    division and are rationals. *)
Definition _handles (b : box) : list (string * (Q * Q)) :=
  let '(lx, ty, rx, by_) := _norm_sel b in
  let mx := (inject_Z (lx + rx) / 2)%Q in
  let my := (inject_Z (ty + by_) / 2)%Q in
  [ ("nw", (inject_Z lx, inject_Z ty)); ("n", (mx, inject_Z ty));
    ("ne", (inject_Z rx, inject_Z ty));
    ("w", (inject_Z lx, my)); ("e", (inject_Z rx, my));
    ("sw", (inject_Z lx, inject_Z by_)); ("s", (mx, inject_Z by_));
    ("se", (inject_Z rx, inject_Z by_)) ].

(** [abs(x - hx) <= HIT_RADIUS and abs(y - hy) <= HIT_RADIUS] *)
Definition within_hit (x y : Z) (h : Q * Q) : bool :=
  Qle_bool (Qabs (inject_Z x - fst h)) (inject_Z HIT_RADIUS)
  && Qle_bool (Qabs (inject_Z y - snd h)) (inject_Z HIT_RADIUS).

(** The [for name, (hx, hy) in ...items()] loop of [_hit_handle]. *)
Fixpoint first_hit (hs : list (string * (Q * Q))) (x y : Z) : option string :=
  match hs with
  | [] => None
  | (name, h) :: rest => if within_hit x y h then Some name else first_hit rest x y
  end.

Definition _hit_handle (a : App) (x y : Z) : option string :=
  if negb (_has_selection a) then None
  else match sel_box a with
       | Some b => first_hit (_handles b) x y
       | None => None
       end.

Definition _inside_selection (a : App) (x y : Z) : bool :=
  if negb (_has_selection a) then false
  else match sel_box a with
       | Some b =>
           let '(lx, ty, rx, by_) := _norm_sel b in
           (lx <=? x) && (x <=? rx) && (ty <=? y) && (y <=? by_)
       | None => false
       end.

Definition _clear_selection (a : App) : App :=
  set_drag (set_sel a None None None None)
           None (_drag_ox a) (_drag_oy a) (_drag_sel_snapshot a).

(** ** Pointer handlers *)

Definition _on_mouse_down (a : App) (x y : Z) : App :=
  match pil_image a with
  | None => a
  | Some _ =>
      match _hit_handle a x y with
      | Some handle =>
          (* every handle name is a non-empty, hence truthy, string *)
          match sel_box a with
          | Some b => set_drag a (Some handle) x y (Some (_norm_sel b))
          | None => a
          end
      | None =>
          if _inside_selection a x y then
            match sel_box a with
            | Some b => set_drag a (Some "move") x y (Some b)
            | None => a
            end
          else
            let a1 := _clear_selection a in
            let a2 := set_drag a1 (Some "new") (_drag_ox a1) (_drag_oy a1)
                               (_drag_sel_snapshot a1) in
            set_sel a2 (Some x) (Some y) (Some x) (Some y)
      end
  end.

Definition _on_mouse_drag (a : App) (x y : Z) : App :=
  match _drag_mode a with
  | None => a
  | Some mode =>
      if String.eqb mode "new" then
        set_sel a (sel_x0 a) (sel_y0 a) (Some x) (Some y)
      else if String.eqb mode "move" then
        let dx := x - _drag_ox a in
        let dy := y - _drag_oy a in
        match _drag_sel_snapshot a with
        | Some (sx0, sy0, sx1, sy1) =>
            set_sel a (Some (sx0 + dx)) (Some (sy0 + dy))
                      (Some (sx1 + dx)) (Some (sy1 + dy))
        | None => a   (* unpacking [None] raises TypeError *)
        end
      else
        let h := mode in
        match _drag_sel_snapshot a with
        | Some (sx0, sy0, sx1, sy1) =>
            let dx := x - _drag_ox a in
            let dy := y - _drag_oy a in
            let sx0 := if Py.contains "w" h then sx0 + dx else sx0 in
            let sx1 := if Py.contains "e" h then sx1 + dx else sx1 in
            let sy0 := if Py.contains "n" h then sy0 + dy else sy0 in
            let sy1 := if Py.contains "s" h then sy1 + dy else sy1 in
            set_sel a (Some sx0) (Some sy0) (Some sx1) (Some sy1)
        | None => a   (* unpacking [None] raises TypeError *)
        end
  end.

Definition _on_mouse_up (a : App) : App :=
  let a1 :=
    if _has_selection a then
      match sel_box a with
      | Some (x0, y0, x1, y1) =>
          set_sel a (Some (Z.min x0 x1)) (Some (Z.min y0 y1))
                    (Some (Z.max x0 x1)) (Some (Z.max y0 y1))
      | None => a
      end
    else a in
  set_drag a1 None (_drag_ox a1) (_drag_oy a1) None.

(** ** Viewport *)

(** The fit of [_render_image]: [(scale, offset_x, offset_y)] for an image of
    size [img] on a canvas whose reported size is [cv]. *)
Definition fit (img cv : Z * Z) : Q * Z * Z :=
  let cw := Py.or_else (fst cv) 800 in
  let ch := Py.or_else (snd cv) 600 in
  let '(img_w, img_h) := img in
  let s := Qmin (inject_Z cw / inject_Z img_w) (inject_Z ch / inject_Z img_h) in
  let new_w := Py.int (inject_Z img_w * s) in
  let new_h := Py.int (inject_Z img_h * s) in
  (s, (cw - new_w) / 2, (ch - new_h) / 2).

Definition _render_image (a : App) : App :=
  match pil_image a with
  | None => a
  | Some (img_w, img_h) =>
      if (img_w =? 0) || (img_h =? 0) then a   (* ZeroDivisionError *)
      else let '(s, ox, oy) := fit (img_w, img_h) (canvas a) in
           set_view a s ox oy
  end.

Definition _on_canvas_resize (a : App) (cv : Z * Z) : App :=
  _render_image (set_canvas a cv).

Definition _canvas_to_image (a : App) (cx cy : Q) : Q * Q :=
  ((cx - inject_Z (offset_x a)) / scale a, (cy - inject_Z (offset_y a)) / scale a)%Q.

(** ** Loading an image

    [file] is what the file system and the decoder answer for [path]:
    [None] when it is not a file or cannot be opened, the pixel size
    otherwise.  Every failure leaves the state as it is.  A load that
    stops after the image was assigned is in [_load_image_exits]. *)
Definition _load_image (a : App) (path : string) (file : option (Z * Z)) : App :=
  match file with
  | None => a
  | Some size =>
      let ext := Py.lower (snd (Py.splitext path)) in
      if negb (Py.mem ext SUPPORTED_EXTS) then a
      else _render_image (_clear_selection (set_image a (Some path) (Some size)))
  end.

(** ** Export *)

(** What the file system answers during one export. *)
Record FileSystem : Type := {
  makedirs_ok : bool;      (* os.makedirs(out_folder) does not raise *)
  save_ok : bool           (* save_img.save(...) does not raise *)
}.

(** The ways [_save_crop] ends. *)
Inductive Outcome : Type :=
| NoImage                                   (* "No image loaded." *)
| NoSelection                               (* "Draw a rectangle first!" *)
| SelectionTooSmall                         (* "Selection too small, try again." *)
| FolderCreateFailed                        (* error box, return *)
| Raised                                    (* an exception left the handler *)
| Saved (n : nat) (out_name : string) (rect : box)
| Overwritten (n : nat) (rect : box).

(** The pixel rectangle handed to [pil_image.crop]. *)
Definition crop_rect (a : App) (size : Z * Z) (b : box) : box :=
  let '(lx, ty, rx, by_) := _norm_sel b in
  let '(ix0, iy0) := _canvas_to_image a (inject_Z lx) (inject_Z ty) in
  let '(ix1, iy1) := _canvas_to_image a (inject_Z rx) (inject_Z by_) in
  let left := Z.max 0 (Py.int (Qmin ix0 ix1)) in
  let top := Z.max 0 (Py.int (Qmin iy0 iy1)) in
  let right := Z.min (fst size) (Py.int (Qmax ix0 ix1)) in
  let bottom := Z.min (snd size) (Py.int (Qmax iy0 iy1)) in
  (left, top, right, bottom).

(** [if not ext: ext = '.png'], then the membership test on [ext.lower()]. *)
Definition output_ext (ext : string) : string :=
  let ext := if String.eqb ext EmptyString then ".png" else ext in
  if Py.mem (Py.lower ext) WRITABLE_EXTS then ext else ".png".

Section CropExport.

Variable fmt : Formatter.

(** The [try: pattern.format(...) except Exception: ...] block. *)
Definition out_stem (pattern base : string) (count : nat) (oext : string)
  : string :=
  match fmt pattern base count oext with
  | Some s => s
  | None => base ++ "_cr" ++ Py.str count
  end.

Definition _save_crop (a : App) (fs : FileSystem) : App * Outcome :=
  match pil_image a with
  | None => (a, NoImage)
  | Some (width, height) =>
      if negb (_has_selection a) then (a, NoSelection)
      else
        match sel_box a with
        | None => (a, NoSelection)
        | Some b =>
            if Qeq_bool (scale a) 0 then (a, Raised)   (* ZeroDivisionError *)
            else
              let '(lft, top, rgt, bot) := crop_rect a (width, height) b in
              if (rgt <=? lft) || (bot <=? top) then (a, SelectionTooSmall)
              else
                match image_path a with
                | None => (a, Raised)
                | Some path =>
                    let '(base, ext) := Py.splitext (Py.basename path) in
                    let oext := output_ext ext in
                    if negb (makedirs_ok fs) then (a, FolderCreateFailed)
                    else
                      let count :=
                        (default 0 (crop_counter a !! path) + 1)%nat in
                      let a1 :=
                        set_crop_counter a (<[path := count]> (crop_counter a)) in
                      let pattern :=
                        default DEFAULT_PATTERN (config a !! "pattern") in
                      let out_name := out_stem pattern base count oext ++ oext in
                      if negb (save_ok fs) then (a1, Raised)
                      else if String.eqb (default "false" (config a !! "overwrite"))
                                         "true"
                      then
                        (* the original is replaced by the crop and reloaded *)
                        let a2 := set_image a1 (image_path a1)
                                    (Some (rgt - lft, bot - top)) in
                        (_render_image (_clear_selection a2),
                         Overwritten count (lft, top, rgt, bot))
                      else
                        (a1, Saved count out_name (lft, top, rgt, bot))
                end
        end
  end.

(** ** The event loop *)

Inductive Event : Type :=
| EvOpen (path : string) (file : option (Z * Z))   (* open, next, previous *)
| EvButtonPress (x y : Z)
| EvB1Motion (x y : Z)
| EvButtonRelease
| EvEscape
| EvReturn (fs : FileSystem)                       (* Enter or Space *)
| EvConfigure (cv : Z * Z)
| EvSettings (cfg : gmap string string).

(** One export attempt in the log: the active source and how it ended. *)
Definition LogEntry : Type := option string * Outcome.

Definition step (a : App) (e : Event) : App * list LogEntry :=
  match e with
  | EvOpen path file => (_load_image a path file, [])
  | EvButtonPress x y => (_on_mouse_down a x y, [])
  | EvB1Motion x y => (_on_mouse_drag a x y, [])
  | EvButtonRelease => (_on_mouse_up a, [])
  | EvEscape => (_clear_selection a, [])
  | EvReturn fs =>
      let '(a', o) := _save_crop a fs in (a', [(image_path a, o)])
  | EvConfigure cv => (_on_canvas_resize a cv, [])
  | EvSettings cfg => (set_config a cfg, [])
  end.

Fixpoint run (a : App) (evs : list Event) : App * list LogEntry :=
  match evs with
  | [] => (a, [])
  | e :: rest =>
      let '(a1, l1) := step a e in
      let '(a2, l2) := run a1 rest in
      (a2, (l1 ++ l2)%list)
  end.

(** The crop number of a successful export of [p], if the entry is one. *)
Definition crop_number (p : string) (e : LogEntry) : option nat :=
  match e with
  | (Some q, Saved n _ _) => if String.eqb q p then Some n else None
  | (Some q, Overwritten n _) => if String.eqb q p then Some n else None
  | _ => None
  end.

Definition crop_numbers (p : string) (log : list LogEntry) : list nat :=
  omap (crop_number p) log.

End CropExport.

(** ** Further parts of the program *)

Definition HANDLE_SIZE : Z := 8.

Definition DEFAULT_FOLDER_MODE : string := "subfolder".

Definition DEFAULT_SUBFOLDER : string := "cropped".

(** The dict of [_handle_cursor]. *)
Definition cursor_table : gmap string string :=
  list_to_map
    [ ("nw", "size_nw_se"); ("se", "size_nw_se");
      ("ne", "size_ne_sw"); ("sw", "size_ne_sw");
      ("n", "size_ns"); ("s", "size_ns");
      ("w", "size_we"); ("e", "size_we") ].

Definition _handle_cursor (name : string) : string :=
  default "fleur" (cursor_table !! name).

(** [_on_mouse_move] only sets the cursor of the canvas: the model returns
    the cursor it sets. *)
Definition _on_mouse_move (a : App) (x y : Z) : string :=
  if negb (_has_selection a) then "crosshair"
  else match _hit_handle a x y with
       | Some handle => _handle_cursor handle
       | None => if _inside_selection a x y then "fleur" else "crosshair"
       end.

(** The squares [_draw_selection] draws for the handles, one per entry of
    [_handles]: [(hx - hs, hy - hs, hx + hs, hy + hs)]. *)
Definition handle_squares (b : box) : list (Q * Q * Q * Q) :=
  let hs := inject_Z HANDLE_SIZE in
  map (fun e : string * (Q * Q) =>
         let '(hx, hy) := snd e in (hx - hs, hy - hs, hx + hs, hy + hs)%Q)
      (_handles b).

(** [os.path.dirname] and [os.path.join] (POSIX). *)
Module OsPath.

(** [s.rstrip('/')] *)
Fixpoint rstrip_sep (s : string) : string :=
  match s with
  | EmptyString => EmptyString
  | String c t =>
      match rstrip_sep t with
      | EmptyString => if Ascii.eqb c "/" then EmptyString else String c EmptyString
      | t' => String c t'
      end
  end.

(** [head != sep * len(head)]: some character of [head] is not a slash. *)
Fixpoint has_non_sep (s : string) : bool :=
  match s with
  | EmptyString => false
  | String c t => if Ascii.eqb c "/" then has_non_sep t else true
  end.

Definition dirname (p : string) : string :=
  let i := Py.rfind "/" p + 1 in
  let head := Py.take (Z.to_nat i) p in
  if has_non_sep head then rstrip_sep head else head.

Fixpoint endswith_sep (s : string) : bool :=
  match s with
  | EmptyString => false
  | String c EmptyString => Ascii.eqb c "/"
  | String _ t => endswith_sep t
  end.

Definition startswith_sep (s : string) : bool :=
  match s with
  | String c _ => Ascii.eqb c "/"
  | EmptyString => false
  end.

(** [os.path.join(a, b)] with one component [b]. *)
Definition join (a b : string) : string :=
  if startswith_sep b then b
  else if String.eqb a EmptyString || endswith_sep a then a ++ b
  else a ++ "/" ++ b.

End OsPath.

(** ** The exits of a load

    What the file system and the decoder answer when [_load_image] runs:
    the path is no file; [Image.open] raises; the image opens with this
    size and [convert] raises; the image opens and [os.listdir] raises for
    its folder; the load runs to its end. *)
Inductive LoadAnswer : Type :=
| NotAFile
| OpenRaises
| ConvertRaises (size : Z * Z)
| ListdirRaises (size : Z * Z)
| Loads (size : Z * Z).

(** [_load_image] with all its exits.  [self.pil_image] is assigned before
    [convert] is called and [self.image_path] before [os.listdir]: a load
    that stops there keeps what was assigned, and nothing after it is
    run. *)
Definition _load_image_exits (a : App) (path : string) (ans : LoadAnswer) : App :=
  match ans with
  | NotAFile => a
  | _ =>
      let ext := Py.lower (snd (Py.splitext path)) in
      if negb (Py.mem ext SUPPORTED_EXTS) then a
      else
        match ans with
        | NotAFile | OpenRaises => a
        | ConvertRaises size => set_image a (image_path a) (Some size)
        | ListdirRaises size => set_image a (Some path) (Some size)
        | Loads size =>
            _render_image (_clear_selection (set_image a (Some path) (Some size)))
        end
  end.

(** The sizes an answer reports are sizes. *)
Definition sane_answer (ans : LoadAnswer) : Prop :=
  match ans with
  | ConvertRaises (w, h) | ListdirRaises (w, h) | Loads (w, h) => 0 < w /\ 0 < h
  | _ => True
  end.

(** ** The folder of the image

    [folder_images] and [folder_index] are kept apart from [App]: no export
    or pointer handler reads them. *)

Record Folder : Type := {
  folder_images : list string;
  folder_index : Z
}.

(** [l.index(x)]; [None] stands for ValueError. *)
Fixpoint list_index (x : string) (l : list string) : option nat :=
  match l with
  | [] => None
  | y :: rest =>
      if String.eqb y x then Some O
      else match list_index x rest with
           | Some i => Some (S i)
           | None => None
           end
  end.

(** The image files of a directory listing, as [_load_image] collects
    them: sorted names with a supported extension, joined to the folder. *)
Definition folder_listing (folder : string) (listdir : list string) : list string :=
  map (OsPath.join folder)
      (List.filter
         (fun f => Py.mem (Py.lower (snd (Py.splitext f))) SUPPORTED_EXTS)
         (merge_sort String.le listdir)).

(** What a successful [_load_image path] leaves in the two folder fields,
    [listdir] being the answer of [os.listdir] for the folder of [path]. *)
Definition _load_folder (path : string) (listdir : list string) : Folder :=
  let images := folder_listing (OsPath.dirname path) listdir in
  match list_index path images with
  | Some i => {| folder_images := images; folder_index := Z.of_nat i |}
  | None =>
      let images' := (images ++ [path])%list in
      {| folder_images := images';
         folder_index := Z.of_nat (length images') - 1 |}
  end.

(** The first three lines of [_next_image] and [_prev_image]: the folder
    fields after the index update and the path handed to [_load_image], or
    [None] when the handler returns at once. *)
Definition navigate (step : Z) (f : Folder) : option (Folder * string) :=
  match folder_images f with
  | [] => None
  | _ =>
      let i := (folder_index f + step) mod Z.of_nat (length (folder_images f)) in
      match folder_images f !! Z.to_nat i with
      | Some path =>
          Some ({| folder_images := folder_images f; folder_index := i |}, path)
      | None => None   (* IndexError *)
      end
  end.

Definition _next_image (f : Folder) : option (Folder * string) := navigate 1 f.

Definition _prev_image (f : Folder) : option (Folder * string) := navigate (-1) f.

(** [_next_image] and [_prev_image] to their end, on the two folder fields:
    the index update, then the load of the path.  [loads p] is what the
    load of [p] meets: [None] when it stops before the folder is listed (the
    index update stays), the answer of [os.listdir] otherwise.  The entries
    of the list are absolute paths, which [os.path.abspath] leaves as they
    are. *)
Definition navigate_load (step : Z) (loads : string -> option (list string))
    (f : Folder) : Folder :=
  match navigate step f with
  | None => f
  | Some (f', path) =>
      match loads path with
      | Some listdir => _load_folder path listdir
      | None => f'
      end
  end.

(** ** Settings and the output folder

    [str.strip] is library code: it is a parameter here, as [str.format]
    is. *)

Record SettingsForm : Type := {
  folder_mode_var : string;
  subfolder_var : string;
  custom_folder_var : string;
  pattern_var : string;
  overwrite_var : bool
}.

(** [s or d] on strings. *)
Definition str_or (s d : string) : string :=
  if String.eqb s EmptyString then d else s.

Section Settings.

Variable fmt : Formatter.
Variable strip : string -> string.

(** [on_save] of the settings dialog: the application after the button
    is pressed; a warning box leaves it as it is. *)
Definition on_save (a : App) (form : SettingsForm) : App :=
  let pat := strip (pattern_var form) in
  if String.eqb pat EmptyString then a
  else
    match fmt pat "x" 1%nat ".jpg" with
    | None => a
    | Some _ =>
        set_config a
          (<["overwrite" := if overwrite_var form then "true" else "false"]>
             (<["pattern" := pat]>
                (<["custom_folder" := strip (custom_folder_var form)]>
                   (<["subfolder" := str_or (strip (subfolder_var form))
                                            DEFAULT_SUBFOLDER]>
                      (<["folder_mode" := folder_mode_var form]> (config a))))))
    end.

(** [_resolve_out_folder], for the image at [image_path]. *)
Definition _resolve_out_folder (cfg : gmap string string) (image_path : string)
  : string :=
  let mode := default DEFAULT_FOLDER_MODE (cfg !! "folder_mode") in
  let src_folder := OsPath.dirname image_path in
  if String.eqb mode "same" then src_folder
  else if String.eqb mode "custom" then
    let custom := strip (default EmptyString (cfg !! "custom_folder")) in
    if String.eqb custom EmptyString then src_folder else custom
  else
    let sub := str_or (strip (default DEFAULT_SUBFOLDER (cfg !! "subfolder")))
                      DEFAULT_SUBFOLDER in
    OsPath.join src_folder sub.

End Settings.

(** [strip] on the ASCII blanks (tab, line feed, vertical tab, form feed,
    carriage return, the four separators 28 to 31, space), to run the model
    on concrete inputs. *)
Definition is_blank (c : ascii) : bool :=
  let n := nat_of_ascii c in
  ((9 <=? n) && (n <=? 13) || (28 <=? n) && (n <=? 32))%nat.

Fixpoint lstrip_blank (s : string) : string :=
  match s with
  | String c t => if is_blank c then lstrip_blank t else s
  | EmptyString => EmptyString
  end.

Fixpoint rstrip_blank (s : string) : string :=
  match s with
  | EmptyString => EmptyString
  | String c t =>
      match rstrip_blank t with
      | EmptyString => if is_blank c then EmptyString else String c EmptyString
      | t' => String c t'
      end
  end.

Definition ascii_strip (s : string) : string := rstrip_blank (lstrip_blank s).

(** ** Notions of the specification *)

(** The box test of the specification: within [HIT_RADIUS] on both axes. *)
Definition chebyshev_within (x y : Z) (h : Q * Q) : Prop :=
  (Qabs (inject_Z x - fst h) <= 10 /\ Qabs (inject_Z y - snd h) <= 10)%Q.

Definition handle_order : list string :=
  ["nw"; "n"; "ne"; "w"; "e"; "sw"; "s"; "se"].

(** The number of edges a handle name implicates: the tests
    ['w' in h], ['e' in h], ['n' in h], ['s' in h] that hold. *)
Definition edges_moved (h : string) : nat :=
  length (filter (fun c => Py.contains c h) ["w"; "e"; "n"; "s"]%char).

(** The rectangle as the specification words it: [floor] for the left and
    top edges, [ceil] for the right and bottom edges, then the clamp. *)
Definition spec_crop_rect (a : App) (size : Z * Z) (b : box) : box :=
  let '(lx, ty, rx, by_) := _norm_sel b in
  let '(ix0, iy0) := _canvas_to_image a (inject_Z lx) (inject_Z ty) in
  let '(ix1, iy1) := _canvas_to_image a (inject_Z rx) (inject_Z by_) in
  (Z.max 0 (Qfloor (Qmin ix0 ix1)), Z.max 0 (Qfloor (Qmin iy0 iy1)),
   Z.min (fst size) (Qceiling (Qmax ix0 ix1)),
   Z.min (snd size) (Qceiling (Qmax iy0 iy1))).

(** The rectangle with the right and bottom edges truncated toward zero
    instead: [floor] for the left and top edges, [int] for the other two. *)
Definition trunc_crop_rect (a : App) (size : Z * Z) (b : box) : box :=
  let '(lx, ty, rx, by_) := _norm_sel b in
  let '(ix0, iy0) := _canvas_to_image a (inject_Z lx) (inject_Z ty) in
  let '(ix1, iy1) := _canvas_to_image a (inject_Z rx) (inject_Z by_) in
  (Z.max 0 (Qfloor (Qmin ix0 ix1)), Z.max 0 (Qfloor (Qmin iy0 iy1)),
   Z.min (fst size) (Py.int (Qmax ix0 ix1)),
   Z.min (snd size) (Py.int (Qmax iy0 iy1))).

(** The rectangle with all four edges rounded down. *)
Definition floor_crop_rect (a : App) (size : Z * Z) (b : box) : box :=
  let '(lx, ty, rx, by_) := _norm_sel b in
  let '(ix0, iy0) := _canvas_to_image a (inject_Z lx) (inject_Z ty) in
  let '(ix1, iy1) := _canvas_to_image a (inject_Z rx) (inject_Z by_) in
  (Z.max 0 (Qfloor (Qmin ix0 ix1)), Z.max 0 (Qfloor (Qmin iy0 iy1)),
   Z.min (fst size) (Qfloor (Qmax ix0 ix1)),
   Z.min (snd size) (Qfloor (Qmax iy0 iy1))).

(** The number and rectangle of a finished export. *)
Definition exported (o : Outcome) : option (nat * box) :=
  match o with
  | Saved n _ rect => Some (n, rect)
  | Overwritten n rect => Some (n, rect)
  | _ => None
  end.

(** [crop_counter.get(p, 0)] *)
Definition count (a : App) (p : string) : nat := default 0%nat (crop_counter a !! p).

(** The shape of the states the application reaches: the corners of the
    selection are set together; a drag session has a selection, and a
    snapshot unless it draws a new rectangle; an image has its path. *)
Definition well_formed (a : App) : Prop :=
  (sel_box a = None ->
   sel_x0 a = None /\ sel_y0 a = None /\ sel_x1 a = None /\ sel_y1 a = None) /\
  (forall mode, _drag_mode a = Some mode -> is_Some (sel_box a)) /\
  (forall mode, _drag_mode a = Some mode -> mode <> "new" ->
     is_Some (_drag_sel_snapshot a)) /\
  (is_Some (pil_image a) -> is_Some (image_path a)).

(** Two results of the same kind: both formatted, both raising, or both
    outside the fragment. *)
Definition same_kind (r1 r2 : FormatResult) : Prop :=
  match r1, r2 with
  | Formatted _, Formatted _ => True
  | FormatRaises, FormatRaises => True
  | FormatUnmodelled, FormatUnmodelled => True
  | _, _ => False
  end.

(** ** Invariants of the event loop *)

(** The active image went through the extension test of [_load_image]. *)
Definition supported_source (a : App) : Prop :=
  forall p, image_path a = Some p ->
    Py.mem (Py.lower (snd (Py.splitext p))) SUPPORTED_EXTS = true.

(** Outside a drag session the selection is in normal form, and there is
    no selection and no session without an image. *)
Definition settled (a : App) : Prop :=
  (forall b, _drag_mode a = None -> sel_box a = Some b -> _norm_sel b = b) /\
  (is_Some (sel_box a) \/ is_Some (_drag_mode a) -> is_Some (pil_image a)).

(** A canvas as Tk reports it, and events whose sizes are sizes: images
    that open have positive sides. *)
Definition sane_canvas (cv : Z * Z) : Prop := 0 <= fst cv /\ 0 <= snd cv.

Definition sane_event (e : Event) : Prop :=
  match e with
  | EvOpen _ (Some (w, h)) => 0 < w /\ 0 < h
  | EvConfigure cv => sane_canvas cv
  | _ => True
  end.

(** The scale is positive and the image in memory has positive sides. *)
Definition view_sane (a : App) : Prop :=
  sane_canvas (canvas a) /\ (0 < scale a)%Q /\
  forall w h, pil_image a = Some (w, h) -> 0 < w /\ 0 < h.

(** ** Concrete runs used as examples *)

Definition default_config : gmap string string :=
  {[ "pattern" := DEFAULT_PATTERN; "overwrite" := "false" ]}.

Definition fs_ok : FileSystem := {| makedirs_ok := true; save_ok := true |}.

(** A 1000x800 image on a 500x400 canvas with the selection
    [(100,100)-(300,300)] drawn and released. *)
Definition selected : App :=
  fst (run fragment_formatter (init default_config (500, 400))
         [EvOpen "/pics/photo.jpg" (Some (1000, 800));
          EvButtonPress 100 100; EvB1Motion 300 300; EvButtonRelease]).

(** An image just opened on a 500x400 canvas. *)
Definition opened : App :=
  _load_image (init default_config (500, 400)) "/pics/photo.jpg" (Some (1000, 800)).

(** [selected] after a press on the handle [e], at (300,200). *)
Definition resizing_e : App := _on_mouse_down selected 300 200.

(** [selected] after a press inside the rectangle, at (150,160). *)
Definition moving : App := _on_mouse_down selected 150 160.

(** A 1000x800 image on a 750x600 canvas (scale 3/4) with the selection
    [(100,100)-(301,300)]: its right edge falls at 401 + 1/3 in the image. *)
Definition selected_fraction : App :=
  fst (run fragment_formatter (init default_config (750, 600))
         [EvOpen "/pics/photo.jpg" (Some (1000, 800));
          EvButtonPress 100 100; EvB1Motion 301 300; EvButtonRelease]).

(** The half-scale view with the selection [(50,50)-(51,50)]. *)
Definition selected_flat : App :=
  fst (run fragment_formatter opened
         [EvButtonPress 50 50; EvB1Motion 51 50; EvButtonRelease]).

(** The half-scale view with the 4x4 selection [(100,100)-(104,104)]. *)
Definition selected_tiny : App :=
  fst (run fragment_formatter opened
         [EvButtonPress 100 100; EvB1Motion 104 104; EvButtonRelease]).

(** The half-scale view with a selection dragged from (200,300) to
    (-20,100), left of the canvas. *)
Definition selected_outside : App :=
  fst (run fragment_formatter opened
         [EvButtonPress 200 300; EvB1Motion (-20) 100; EvButtonRelease]).

(** A 100x100 image opened on an 800x600 canvas. *)
Definition opened_small : App :=
  _load_image (init default_config (800, 600)) "/pics/icon.png" (Some (100, 100)).

(** [PHOTO.JPG] with the selection [(100,100)-(300,300)]. *)
Definition selected_upper : App :=
  fst (run fragment_formatter (init default_config (500, 400))
         [EvOpen "/pics/PHOTO.JPG" (Some (1000, 800));
          EvButtonPress 100 100; EvB1Motion 300 300; EvButtonRelease]).

(** [base.jpg], 1000x800, on a 500x400 canvas under the pattern ["{bogus}"],
    with the selection [(100,100)-(300,300)]. *)
Definition selected_bogus : App :=
  fst (run fragment_formatter
         (init {[ "pattern" := "{bogus}"; "overwrite" := "false" ]} (500, 400))
         [EvOpen "/pics/base.jpg" (Some (1000, 800));
          EvButtonPress 100 100; EvB1Motion 300 300; EvButtonRelease]).

(** A file system on which the write fails. *)
Definition fs_write_fails : FileSystem := {| makedirs_ok := true; save_ok := false |}.

(** Two crops of [photo.jpg] with a rejected export between them. *)
Definition session : list Event :=
  [EvOpen "/pics/photo.jpg" (Some (1000, 800));
   EvButtonPress 100 100; EvB1Motion 300 300; EvButtonRelease; EvReturn fs_ok;
   EvEscape;
   EvButtonPress 50 50; EvB1Motion 51 50; EvButtonRelease; EvReturn fs_ok;
   EvEscape;
   EvButtonPress 10 10; EvB1Motion 60 60; EvButtonRelease; EvReturn fs_ok].

(** The same selection exported three times; the second write fails. *)
Definition session_write_fails : list Event :=
  [EvOpen "/pics/photo.jpg" (Some (1000, 800));
   EvButtonPress 100 100; EvB1Motion 300 300; EvButtonRelease;
   EvReturn fs_ok; EvReturn fs_write_fails; EvReturn fs_ok].

(** * Properties *)

(** ** Selection helpers *)

Lemma sel_box_has_selection (a : App) (b : box) :
  sel_box a = Some b -> _has_selection a = true.
Proof.
  unfold sel_box, _has_selection.
  destruct (sel_x0 a), (sel_y0 a), (sel_x1 a), (sel_y1 a); simpl; congruence.
Qed.

Lemma sel_box_none (a : App) :
  sel_box a = None -> _has_selection a = false.
Proof.
  unfold sel_box, _has_selection.
  destruct (sel_x0 a), (sel_y0 a), (sel_x1 a), (sel_y1 a); simpl; congruence.
Qed.

Lemma norm_sel_ordered (b : box) :
  let '(lx, ty, rx, by_) := _norm_sel b in lx <= rx /\ ty <= by_.
Proof. destruct b as [[[x0 y0] x1] y1]. simpl. lia. Qed.

Lemma norm_sel_idempotent (b : box) : _norm_sel (_norm_sel b) = _norm_sel b.
Proof.
  destruct b as [[[x0 y0] x1] y1]. unfold _norm_sel.
  replace (Z.min (Z.min x0 x1) (Z.max x0 x1)) with (Z.min x0 x1) by lia.
  replace (Z.min (Z.min y0 y1) (Z.max y0 y1)) with (Z.min y0 y1) by lia.
  replace (Z.max (Z.min x0 x1) (Z.max x0 x1)) with (Z.max x0 x1) by lia.
  replace (Z.max (Z.min y0 y1) (Z.max y0 y1)) with (Z.max y0 y1) by lia.
  reflexivity.
Qed.

(** ** Handle hit-testing *)

Lemma within_hit_spec (x y : Z) (h : Q * Q) :
  within_hit x y h = true <-> chebyshev_within x y h.
Proof.
  unfold within_hit, chebyshev_within, HIT_RADIUS.
  rewrite andb_true_iff, !Qle_bool_iff. reflexivity.
Qed.

Lemma within_hit_not (x y : Z) (h : Q * Q) :
  within_hit x y h = false -> ~ chebyshev_within x y h.
Proof. rewrite <- within_hit_spec. congruence. Qed.

Lemma first_hit_some (hs : list (string * (Q * Q))) (x y : Z) (name : string) :
  first_hit hs x y = Some name <->
  exists pre h post,
    hs = (pre ++ (name, h) :: post)%list /\
    chebyshev_within x y h /\
    Forall (fun e => ~ chebyshev_within x y (snd e)) pre.
Proof.
  induction hs as [|[nm h] rest IH]; simpl.
  - split; [discriminate|].
    intros (pre & h & post & E & _). destruct pre; discriminate.
  - destruct (within_hit x y h) eqn:Hw.
    + apply within_hit_spec in Hw. split.
      * intros [= <-]. exists [], h, rest.
        split; [reflexivity|]. split; [exact Hw|constructor].
      * intros (pre & h' & post & E & Hin & Hpre).
        destruct pre as [|[nm0 h0] pre]; simpl in E.
        -- congruence.
        -- injection E as -> -> _. inversion Hpre; subst. simpl in *. tauto.
    + apply within_hit_not in Hw.
      rewrite IH. split.
      * intros (pre & h' & post & -> & Hin & Hpre).
        exists ((nm, h) :: pre), h', post.
        split; [reflexivity|]. split; [exact Hin|constructor; assumption].
      * intros (pre & h' & post & E & Hin & Hpre).
        destruct pre as [|[nm0 h0] pre]; simpl in E.
        -- injection E as -> -> _. tauto.
        -- injection E as -> -> ->. inversion Hpre; subst.
           exists pre, h', post.
           split; [reflexivity|]. split; assumption.
Qed.

Lemma first_hit_none (hs : list (string * (Q * Q))) (x y : Z) :
  first_hit hs x y = None <->
  Forall (fun e => ~ chebyshev_within x y (snd e)) hs.
Proof.
  induction hs as [|[nm h] rest IH]; simpl.
  - split; auto.
  - destruct (within_hit x y h) eqn:Hw.
    + apply within_hit_spec in Hw. split; [discriminate|].
      intros HF. inversion HF; subst. simpl in *. tauto.
    + apply within_hit_not in Hw.
      rewrite IH. split.
      * intros HF. constructor; auto.
      * intros HF. inversion HF; auto.
Qed.

Lemma handles_names (b : box) : map fst (_handles b) = handle_order.
Proof. destruct b as [[[x0 y0] x1] y1]. reflexivity. Qed.

Lemma hit_handle_no_selection (a : App) (x y : Z) :
  sel_box a = None -> _hit_handle a x y = None.
Proof.
  intros H. unfold _hit_handle. rewrite (sel_box_none a H). reflexivity.
Qed.

(** C10. With a selection [b], the handles are listed in the order
    nw, n, ne, w, e, sw, s, se; [_hit_handle] returns a name exactly when that
    handle is the first of the list whose point is within [HIT_RADIUS] of the
    query point on both axes, and returns nothing exactly when no handle is. *)
Theorem hit_handle_first_in_order (a : App) (b : box) (x y : Z) :
  sel_box a = Some b ->
  map fst (_handles b) = handle_order /\
  (forall name,
      _hit_handle a x y = Some name <->
      exists pre h post,
        _handles b = (pre ++ (name, h) :: post)%list /\
        chebyshev_within x y h /\
        Forall (fun e => ~ chebyshev_within x y (snd e)) pre) /\
  (_hit_handle a x y = None <->
   Forall (fun e => ~ chebyshev_within x y (snd e)) (_handles b)).
Proof.
  intros Hb. unfold _hit_handle.
  rewrite (sel_box_has_selection a b Hb), Hb. simpl.
  split; [apply handles_names|]. split.
  - intros name. apply first_hit_some.
  - apply first_hit_none.
Qed.

Lemma hit_handle_first_in_order_witness :
  sel_box selected = Some (100, 100, 300, 300) /\
  _hit_handle selected 205 95 = Some "n" /\
  _hit_handle selected 150 150 = None.
Proof.
  split; [reflexivity|].
  destruct (hit_handle_first_in_order selected (100, 100, 300, 300) 205 95
              eq_refl) as (_ & Hsome & _).
  destruct (hit_handle_first_in_order selected (100, 100, 300, 300) 150 150
              eq_refl) as (_ & _ & Hnone).
  split.
  - apply Hsome.
    exists [("nw", (inject_Z 100, inject_Z 100))],
           (inject_Z (100 + 300) / 2, inject_Z 100)%Q.
    eexists. split; [reflexivity|]. split.
    + split; vm_compute; discriminate.
    + constructor; [|constructor]. intros [H _]. vm_compute in H. apply H. reflexivity.
  - apply Hnone. unfold _handles. simpl.
    repeat constructor; intros [H1 H2]; vm_compute in H1, H2;
      try (apply H1; reflexivity); try (apply H2; reflexivity).
Defined.

(** On a 4x4 selection several handles pass the test at once; the first in
    the order wins: at (111,100) the corner [nw] is out of reach and the edge
    midpoint [n] is returned, not the later corner [ne]. *)
Example hit_handle_tiny_selection :
  sel_box selected_tiny = Some (100, 100, 104, 104) /\
  within_hit 111 100 (inject_Z 100, inject_Z 100) = false /\
  within_hit 111 100 (inject_Z (100 + 104) / 2, inject_Z 100)%Q = true /\
  within_hit 111 100 (inject_Z 104, inject_Z 100) = true /\
  _hit_handle selected_tiny 111 100 = Some "n" /\
  _hit_handle selected_tiny 102 102 = Some "nw".
Proof. vm_compute. repeat split. Qed.

(** ** Drag sessions *)

Lemma mouse_down_on_handle_snapshot (a : App) (x y : Z) (b : box) (h : string) :
  pil_image a <> None ->
  sel_box a = Some b ->
  _hit_handle a x y = Some h ->
  let a' := _on_mouse_down a x y in
  _drag_mode a' = Some h /\ _drag_ox a' = x /\ _drag_oy a' = y
  /\ _drag_sel_snapshot a' = Some (_norm_sel b) /\ sel_box a' = Some b.
Proof.
  intros Himg Hb Hh a'. subst a'. unfold _on_mouse_down.
  destruct (pil_image a); [|congruence].
  rewrite Hh, Hb. repeat split. exact Hb.
Qed.

(** A press inside the selection, off the handles, opens the move session
    on the selection as it is: the size kept by the move is the size before
    the gesture. *)
Lemma mouse_down_inside_snapshot (a : App) (x y : Z) (b : box) :
  pil_image a <> None ->
  sel_box a = Some b ->
  _hit_handle a x y = None ->
  _inside_selection a x y = true ->
  let a' := _on_mouse_down a x y in
  _drag_mode a' = Some "move" /\ _drag_ox a' = x /\ _drag_oy a' = y
  /\ _drag_sel_snapshot a' = Some b.
Proof.
  intros Himg Hb Hh Hin a'. subst a'. unfold _on_mouse_down.
  destruct (pil_image a); [|congruence].
  rewrite Hh, Hin, Hb. repeat split.
Qed.

(** C6. In a resize session with snapshot [(sx0,sy0,sx1,sy1)] and pointer
    delta [(dx,dy)] from the session origin, a pointer move changes only the
    edges named by the handle: [e] moves [x1] by [dx]; [nw] moves [x0] by
    [dx] and [y0] by [dy]; [n] moves [y0] by [dy]; each corner moves its two
    edges and each edge midpoint its one edge, and the other edges keep the
    snapshot's values. *)
Theorem resize_moves_only_handle_edges
    (a : App) (x y sx0 sy0 sx1 sy1 : Z) :
  _drag_sel_snapshot a = Some (sx0, sy0, sx1, sy1) ->
  let dx := x - _drag_ox a in
  let dy := y - _drag_oy a in
  let after := sel_box (_on_mouse_drag a x y) in
  (_drag_mode a = Some "nw" -> after = Some (sx0 + dx, sy0 + dy, sx1, sy1)) /\
  (_drag_mode a = Some "n" -> after = Some (sx0, sy0 + dy, sx1, sy1)) /\
  (_drag_mode a = Some "ne" -> after = Some (sx0, sy0 + dy, sx1 + dx, sy1)) /\
  (_drag_mode a = Some "w" -> after = Some (sx0 + dx, sy0, sx1, sy1)) /\
  (_drag_mode a = Some "e" -> after = Some (sx0, sy0, sx1 + dx, sy1)) /\
  (_drag_mode a = Some "sw" -> after = Some (sx0 + dx, sy0, sx1, sy1 + dy)) /\
  (_drag_mode a = Some "s" -> after = Some (sx0, sy0, sx1, sy1 + dy)) /\
  (_drag_mode a = Some "se" -> after = Some (sx0, sy0, sx1 + dx, sy1 + dy)).
Proof.
  intros Hsnap dx dy after. subst after. unfold _on_mouse_drag.
  rewrite Hsnap.
  repeat split; intros ->; reflexivity.
Qed.

Lemma resize_moves_only_handle_edges_witness :
  _drag_mode resizing_e = Some "e" /\
  _drag_sel_snapshot resizing_e = Some (100, 100, 300, 300) /\
  sel_box (_on_mouse_drag resizing_e 350 260) = Some (100, 100, 350, 300).
Proof.
  split; [reflexivity|]. split; [reflexivity|].
  exact (proj1 (proj2 (proj2 (proj2 (proj2
           (resize_moves_only_handle_edges resizing_e 350 260 100 100 300 300
              eq_refl))))) eq_refl).
Defined.

Example corners_move_two_edges_midpoints_one :
  map edges_moved ["nw"; "ne"; "sw"; "se"] = [2; 2; 2; 2]%nat /\
  map edges_moved ["n"; "w"; "e"; "s"] = [1; 1; 1; 1]%nat.
Proof. split; reflexivity. Qed.

(** A resize may turn the rectangle inside out; the release puts the
    corners back in order. *)
Example resize_may_invert :
  sel_box (_on_mouse_drag resizing_e 40 200) = Some (100, 100, 40, 300) /\
  sel_box (_on_mouse_up (_on_mouse_drag resizing_e 40 200))
  = Some (40, 100, 100, 300).
Proof. split; reflexivity. Qed.

(** C7. In a move session with snapshot [(sx0,sy0,sx1,sy1)], a pointer move
    with delta [(dx,dy)] from the session origin sets the selection to the
    snapshot translated by [(dx,dy)]; its width [x1 - x0] and height
    [y1 - y0] are those of the snapshot. *)
Theorem move_translates_and_keeps_size
    (a : App) (x y sx0 sy0 sx1 sy1 : Z) :
  _drag_mode a = Some "move" ->
  _drag_sel_snapshot a = Some (sx0, sy0, sx1, sy1) ->
  let dx := x - _drag_ox a in
  let dy := y - _drag_oy a in
  exists x0 y0 x1 y1,
    sel_box (_on_mouse_drag a x y) = Some (x0, y0, x1, y1) /\
    (x0, y0, x1, y1) = (sx0 + dx, sy0 + dy, sx1 + dx, sy1 + dy) /\
    x1 - x0 = sx1 - sx0 /\
    y1 - y0 = sy1 - sy0.
Proof.
  intros Hmode Hsnap dx dy.
  exists (sx0 + dx), (sy0 + dy), (sx1 + dx), (sy1 + dy).
  unfold _on_mouse_drag. rewrite Hmode, Hsnap. simpl.
  repeat split; lia.
Qed.

Lemma move_translates_and_keeps_size_witness :
  _drag_mode moving = Some "move" /\
  _drag_sel_snapshot moving = Some (100, 100, 300, 300) /\
  exists x0 y0 x1 y1,
    sel_box (_on_mouse_drag moving 140 200) = Some (x0, y0, x1, y1) /\
    (x0, y0, x1, y1) = (100 + (140 - 150), 100 + (200 - 160),
                        300 + (140 - 150), 300 + (200 - 160)) /\
    x1 - x0 = 300 - 100 /\ y1 - y0 = 300 - 100.
Proof.
  split; [reflexivity|]. split; [reflexivity|].
  exact (move_translates_and_keeps_size moving 140 200 100 100 300 300
           eq_refl eq_refl).
Defined.

(** ** Viewport fit *)

Lemma inject_Z_pos (z : Z) : 0 < z -> (0 < inject_Z z)%Q.
Proof. intros H. change 0%Q with (inject_Z 0). rewrite <- Zlt_Qlt. exact H. Qed.

Lemma Qdiv_Z_pos (z w : Z) : 0 < z -> 0 < w -> (0 < inject_Z z / inject_Z w)%Q.
Proof.
  intros Hz Hw. apply Qlt_shift_div_l; [apply inject_Z_pos; exact Hw|].
  rewrite Qmult_0_l. apply inject_Z_pos. exact Hz.
Qed.

Lemma Qdiv_Z_le_1 (z w : Z) : 0 < w -> (inject_Z z / inject_Z w <= 1)%Q <-> z <= w.
Proof.
  intros Hw. pose proof (inject_Z_pos w Hw) as HwQ.
  split.
  - intros H. rewrite Zle_Qle.
    apply (Qmult_le_r _ _ (/ inject_Z w)%Q).
    + apply Qinv_lt_0_compat. exact HwQ.
    + rewrite Qmult_inv_r; [exact H|]. intros E. rewrite E in HwQ.
      exact (Qlt_irrefl _ HwQ).
  - intros H. apply Qle_shift_div_r; [exact HwQ|].
    rewrite Qmult_1_l. rewrite <- Zle_Qle. exact H.
Qed.

Lemma render_image_fit (a : App) (iw ih cw ch : Z) :
  pil_image a = Some (iw, ih) -> canvas a = (cw, ch) ->
  0 < iw -> 0 < ih -> 0 < cw -> 0 < ch ->
  let s := Qmin (inject_Z cw / inject_Z iw) (inject_Z ch / inject_Z ih) in
  _render_image a
  = set_view a s ((cw - Py.int (inject_Z iw * s)) / 2)
                 ((ch - Py.int (inject_Z ih * s)) / 2).
Proof.
  intros Himg Hcv Hiw Hih Hcw Hch s. subst s.
  unfold _render_image, fit. rewrite Himg, Hcv. simpl fst. simpl snd.
  replace (iw =? 0) with false by (symmetry; apply Z.eqb_neq; lia).
  replace (ih =? 0) with false by (symmetry; apply Z.eqb_neq; lia).
  unfold Py.or_else.
  replace (cw =? 0) with false by (symmetry; apply Z.eqb_neq; lia).
  replace (ch =? 0) with false by (symmetry; apply Z.eqb_neq; lia).
  reflexivity.
Qed.

Lemma render_image_scale_pos (a : App) (iw ih cw ch : Z) :
  pil_image a = Some (iw, ih) -> canvas a = (cw, ch) ->
  0 < iw -> 0 < ih -> 0 < cw -> 0 < ch ->
  (0 < scale (_render_image a))%Q.
Proof.
  intros Himg Hcv Hiw Hih Hcw Hch.
  rewrite (render_image_fit a iw ih cw ch) by assumption. simpl scale.
  apply Q.min_glb_lt; apply Qdiv_Z_pos; assumption.
Qed.

(** C5 as stated fails: a 100x100 image on an 800x600 canvas is fitted with
    scale 6, above 1. *)
Lemma fit_scale_at_most_one_counterexample :
  pil_image opened_small = Some (100, 100) /\
  canvas opened_small = (800, 600) /\
  scale opened_small
  = Qmin (inject_Z 800 / inject_Z 100) (inject_Z 600 / inject_Z 100) /\
  (scale opened_small == 6)%Q /\
  ~ (scale opened_small <= 1)%Q.
Proof.
  do 4 (split; [reflexivity|]).
  vm_compute. intros H. apply H. reflexivity.
Qed.

(** C5, amended. For positive image and canvas sizes the fit sets
    [scale = min(canvasW/imageW, canvasH/imageH)], which is positive; it is
    at most 1 exactly when the canvas is no wider or no taller than the
    image, and above 1 (the image is enlarged to fit) otherwise. *)
Theorem fit_scale_is_min_ratio (a : App) (iw ih cw ch : Z) :
  pil_image a = Some (iw, ih) -> canvas a = (cw, ch) ->
  0 < iw -> 0 < ih -> 0 < cw -> 0 < ch ->
  let s := scale (_render_image a) in
  s = Qmin (inject_Z cw / inject_Z iw) (inject_Z ch / inject_Z ih) /\
  (0 < s)%Q /\
  ((s <= 1)%Q <-> cw <= iw \/ ch <= ih).
Proof.
  intros Himg Hcv Hiw Hih Hcw Hch s. subst s.
  split; [|split].
  - rewrite (render_image_fit a iw ih cw ch) by assumption. reflexivity.
  - apply (render_image_scale_pos a iw ih cw ch); assumption.
  - rewrite (render_image_fit a iw ih cw ch) by assumption. simpl scale.
    rewrite Q.min_le_iff, !Qdiv_Z_le_1 by assumption. reflexivity.
Qed.

Lemma fit_scale_is_min_ratio_witness :
  pil_image opened = Some (1000, 800) /\ canvas opened = (500, 400) /\
  scale (_render_image opened)
  = Qmin (inject_Z 500 / inject_Z 1000) (inject_Z 400 / inject_Z 800) /\
  (0 < scale (_render_image opened))%Q /\
  ((scale (_render_image opened) <= 1)%Q <-> 500 <= 1000 \/ 400 <= 800).
Proof.
  split; [reflexivity|]. split; [reflexivity|].
  apply (fit_scale_is_min_ratio opened 1000 800 500 400); reflexivity.
Defined.

(** C2. After the fit for positive image and canvas sizes, mapping an
    image-space point to the screen by [offset + i * scale] and back by
    [_canvas_to_image] returns the point (floats taken as rationals). *)
Theorem canvas_to_image_inverts_placement (a : App) (iw ih cw ch : Z) (ix iy : Q) :
  pil_image a = Some (iw, ih) -> canvas a = (cw, ch) ->
  0 < iw -> 0 < ih -> 0 < cw -> 0 < ch ->
  let a' := _render_image a in
  let screen_x := (inject_Z (offset_x a') + ix * scale a')%Q in
  let screen_y := (inject_Z (offset_y a') + iy * scale a')%Q in
  (fst (_canvas_to_image a' screen_x screen_y) == ix)%Q /\
  (snd (_canvas_to_image a' screen_x screen_y) == iy)%Q.
Proof.
  intros Himg Hcv Hiw Hih Hcw Hch a' sx sy.
  assert (Hs : (0 < scale a')%Q).
  { apply (render_image_scale_pos a iw ih cw ch); assumption. }
  assert (Hne : ~ (scale a' == 0)%Q).
  { intros E. rewrite E in Hs. exact (Qlt_irrefl _ Hs). }
  subst sx sy. unfold _canvas_to_image. simpl fst. simpl snd.
  split; field; exact Hne.
Qed.

Lemma canvas_to_image_inverts_placement_witness :
  pil_image opened = Some (1000, 800) /\ canvas opened = (500, 400) /\
  let a' := _render_image opened in
  (fst (_canvas_to_image a' (inject_Z (offset_x a') + (401 # 3) * scale a')
                            (inject_Z (offset_y a') + (7 # 2) * scale a'))
   == 401 # 3)%Q /\
  (snd (_canvas_to_image a' (inject_Z (offset_x a') + (401 # 3) * scale a')
                            (inject_Z (offset_y a') + (7 # 2) * scale a'))
   == 7 # 2)%Q.
Proof.
  split; [reflexivity|]. split; [reflexivity|].
  apply (canvas_to_image_inverts_placement opened 1000 800 500 400); reflexivity.
Defined.

(** The inverse in the other direction, on pointer positions: placing the
    image point of a canvas point gives the canvas point back. *)
Lemma placement_inverts_canvas_to_image (a : App) (cx cy : Q) :
  ~ (scale a == 0)%Q ->
  let '(ix, iy) := _canvas_to_image a cx cy in
  (inject_Z (offset_x a) + ix * scale a == cx)%Q /\
  (inject_Z (offset_y a) + iy * scale a == cy)%Q.
Proof.
  intros Hne. unfold _canvas_to_image. split; field; exact Hne.
Qed.

(** ** Frames: what the handlers leave alone *)

Lemma render_image_crop_counter (a : App) :
  crop_counter (_render_image a) = crop_counter a.
Proof.
  unfold _render_image.
  destruct (pil_image a) as [[iw ih]|]; [|reflexivity].
  destruct ((iw =? 0) || (ih =? 0)); [reflexivity|].
  destruct (fit (iw, ih) (canvas a)) as [[s ox] oy]. reflexivity.
Qed.

Lemma load_image_crop_counter (a : App) (path : string) (file : option (Z * Z)) :
  crop_counter (_load_image a path file) = crop_counter a.
Proof.
  unfold _load_image. destruct file as [size|]; [|reflexivity].
  destruct (negb _); [reflexivity|].
  rewrite render_image_crop_counter. reflexivity.
Qed.

Lemma mouse_down_crop_counter (a : App) (x y : Z) :
  crop_counter (_on_mouse_down a x y) = crop_counter a.
Proof.
  unfold _on_mouse_down. destruct (pil_image a); [|reflexivity].
  destruct (_hit_handle a x y).
  - destruct (sel_box a); reflexivity.
  - destruct (_inside_selection a x y); [|reflexivity].
    destruct (sel_box a); reflexivity.
Qed.

Lemma mouse_drag_crop_counter (a : App) (x y : Z) :
  crop_counter (_on_mouse_drag a x y) = crop_counter a.
Proof.
  unfold _on_mouse_drag. destruct (_drag_mode a) as [mode|]; [|reflexivity].
  destruct (String.eqb mode "new"); [reflexivity|].
  destruct (String.eqb mode "move");
    destruct (_drag_sel_snapshot a) as [[[[sx0 sy0] sx1] sy1]|]; reflexivity.
Qed.

Lemma mouse_up_crop_counter (a : App) :
  crop_counter (_on_mouse_up a) = crop_counter a.
Proof.
  unfold _on_mouse_up. destruct (_has_selection a); [|reflexivity].
  destruct (sel_box a) as [[[[x0 y0] x1] y1]|]; reflexivity.
Qed.

Lemma canvas_resize_crop_counter (a : App) (cv : Z * Z) :
  crop_counter (_on_canvas_resize a cv) = crop_counter a.
Proof.
  unfold _on_canvas_resize. rewrite render_image_crop_counter. reflexivity.
Qed.

Create Rewrite HintDb counter_frame.

#[local] Hint Rewrite render_image_crop_counter load_image_crop_counter
  mouse_down_crop_counter mouse_drag_crop_counter mouse_up_crop_counter
  canvas_resize_crop_counter : counter_frame.

(** ** The paths through [_save_crop] *)

(** Split the goal along every test [_save_crop] makes. *)
Ltac save_crop_paths :=
  unfold _save_crop; repeat case_match; simplify_eq/=.

Lemma Qeq_bool_false (q : Q) : Qeq_bool q 0 = false <-> ~ (q == 0)%Q.
Proof.
  rewrite <- Qeq_bool_iff. destruct (Qeq_bool q 0); split; congruence.
Qed.

(** What a finished export tells about the state it started from. *)
Lemma save_crop_exported (fmt : Formatter) (a : App) (fs : FileSystem)
    (n : nat) (rect : box) :
  exported (snd (_save_crop fmt a fs)) = Some (n, rect) ->
  exists w h b path,
    pil_image a = Some (w, h) /\ sel_box a = Some b /\
    image_path a = Some path /\
    rect = crop_rect a (w, h) b /\
    n = (default 0 (crop_counter a !! path) + 1)%nat /\
    crop_counter (fst (_save_crop fmt a fs)) = <[path := n]> (crop_counter a).
Proof.
  save_crop_paths; try done; intros [= <- <-];
    autorewrite with counter_frame; simpl; eauto 10.
Qed.

(** An exported rectangle has at least one column and one row. *)
Lemma save_crop_exported_proper (fmt : Formatter) (a : App) (fs : FileSystem)
    (n : nat) (lft top rgt bot : Z) :
  exported (snd (_save_crop fmt a fs)) = Some (n, (lft, top, rgt, bot)) ->
  lft < rgt /\ top < bot.
Proof.
  save_crop_paths; try done; intros [= <- <- <- <- <-];
    match goal with
    | H : _ || _ = false |- _ =>
        apply orb_false_iff in H; rewrite !Z.leb_gt in H; exact H
    end.
Qed.

(** An export that writes nothing, with a working [save], changes nothing. *)
Lemma save_crop_not_exported (fmt : Formatter) (a : App) (fs : FileSystem) :
  save_ok fs = true ->
  exported (snd (_save_crop fmt a fs)) = None ->
  fst (_save_crop fmt a fs) = a.
Proof.
  intros Hsv. save_crop_paths; try done; rewrite Hsv in *; done.
Qed.

Lemma save_crop_too_small_inv (fmt : Formatter) (a : App) (fs : FileSystem) :
  snd (_save_crop fmt a fs) = SelectionTooSmall ->
  fst (_save_crop fmt a fs) = a /\
  exists w h b, pil_image a = Some (w, h) /\ sel_box a = Some b /\
                ~ (scale a == 0)%Q.
Proof.
  save_crop_paths; try done. intros _. split; [reflexivity|].
  eexists _, _, _. repeat split. apply Qeq_bool_false. assumption.
Qed.

(** The verdict of [_save_crop] on a state with an image and a selection. *)
Lemma save_crop_too_small (fmt : Formatter) (a : App) (fs : FileSystem)
    (w h : Z) (b : box) (lft top rgt bot : Z) :
  pil_image a = Some (w, h) -> sel_box a = Some b -> ~ (scale a == 0)%Q ->
  crop_rect a (w, h) b = (lft, top, rgt, bot) ->
  (snd (_save_crop fmt a fs) = SelectionTooSmall <-> rgt <= lft \/ bot <= top).
Proof.
  intros Himg Hb Hs Hrect. apply Qeq_bool_false in Hs.
  rewrite <- !Z.leb_le, <- orb_true_iff.
  unfold _save_crop.
  rewrite Himg, (sel_box_has_selection a b Hb), Hb. simpl negb. cbv iota.
  rewrite Hs, Hrect.
  destruct ((rgt <=? lft) || (bot <=? top)); [by split|].
  repeat case_match; by split.
Qed.

(** The export that reaches the naming step, outside overwrite mode. *)
Lemma save_crop_saved (fmt : Formatter) (a : App) (fs : FileSystem)
    (w h : Z) (b : box) (lft top rgt bot : Z) (path : string) :
  pil_image a = Some (w, h) -> sel_box a = Some b -> ~ (scale a == 0)%Q ->
  crop_rect a (w, h) b = (lft, top, rgt, bot) -> lft < rgt -> top < bot ->
  image_path a = Some path ->
  makedirs_ok fs = true -> save_ok fs = true ->
  config a !! "overwrite" <> Some "true" ->
  let base := fst (Py.splitext (Py.basename path)) in
  let oext := output_ext (snd (Py.splitext (Py.basename path))) in
  let n := (default 0 (crop_counter a !! path) + 1)%nat in
  let pattern := default DEFAULT_PATTERN (config a !! "pattern") in
  _save_crop fmt a fs
  = (set_crop_counter a (<[path := n]> (crop_counter a)),
     Saved n (out_stem fmt pattern base n oext ++ oext) (lft, top, rgt, bot)).
Proof.
  intros Himg Hb Hs Hrect Hw Hh Hpath Hmk Hsv Hover base oext n pattern.
  subst base oext n pattern. unfold _save_crop.
  rewrite Himg, (sel_box_has_selection a b Hb), Hb. simpl negb. cbv iota.
  apply Qeq_bool_false in Hs. rewrite Hs, Hrect.
  replace ((rgt <=? lft) || (bot <=? top)) with false.
  2:{ symmetry. apply orb_false_iff. rewrite !Z.leb_gt. auto. }
  rewrite Hpath, Hmk, Hsv. simpl negb.
  destruct (Py.splitext (Py.basename path)) as [base ext]. simpl fst. simpl snd.
  replace (String.eqb (default "false" (config a !! "overwrite")) "true")
    with false.
  2:{ symmetry. apply String.eqb_neq.
      destruct (config a !! "overwrite") as [v|]; simpl; congruence. }
  reflexivity.
Qed.

(** ** The exported rectangle *)

Lemma max0_int_floor (q : Q) : Z.max 0 (Py.int q) = Z.max 0 (Qfloor q).
Proof.
  destruct q as [n d]. unfold Py.int, Qfloor. simpl.
  destruct (Z_lt_le_dec n 0) as [Hn|Hn].
  - assert (H1 : Z.quot n (Z.pos d) <= 0).
    { replace n with (- (- n)) by lia.
      rewrite Z.quot_opp_l by lia.
      pose proof (Z.quot_pos (- n) (Z.pos d)). lia. }
    assert (H2 : n / Z.pos d < 0) by (apply Z.div_lt_upper_bound; lia).
    lia.
  - rewrite Z.quot_div_nonneg by lia. reflexivity.
Qed.

(** [int] is [floor] on every value it sends above zero. *)
Lemma int_pos_floor (q : Q) : 0 < Py.int q -> Py.int q = Qfloor q.
Proof.
  destruct q as [n d]. unfold Py.int, Qfloor. simpl. intros H.
  destruct (Z_lt_le_dec n 0) as [Hn|Hn].
  - exfalso. replace n with (- (- n)) in H by lia.
    rewrite Z.quot_opp_l in H by lia.
    pose proof (Z.quot_pos (- n) (Z.pos d)). lia.
  - apply Z.quot_div_nonneg; lia.
Qed.

Lemma crop_rect_trunc (a : App) (size : Z * Z) (b : box) :
  crop_rect a size b = trunc_crop_rect a size b.
Proof.
  unfold crop_rect, trunc_crop_rect.
  destruct (_norm_sel b) as [[[lx ty] rx] by_].
  destruct (_canvas_to_image a (inject_Z lx) (inject_Z ty)) as [ix0 iy0].
  destruct (_canvas_to_image a (inject_Z rx) (inject_Z by_)) as [ix1 iy1].
  rewrite !max0_int_floor. reflexivity.
Qed.

(** C1 as stated fails: the right edge of the export is 401, the integer
    part of 401 + 1/3, where the specification has the ceiling 402. *)
Lemma export_rect_ceil_counterexample :
  (fst (_canvas_to_image selected_fraction (inject_Z 301) (inject_Z 300))
   == 1204 # 3)%Q /\
  snd (_save_crop fragment_formatter selected_fraction fs_ok)
  = Saved 1 "photo_cr1.jpg" (133, 133, 401, 400) /\
  spec_crop_rect selected_fraction (1000, 800) (100, 100, 301, 300)
  = (133, 133, 402, 400) /\
  (133, 133, 401, 400)
  <> spec_crop_rect selected_fraction (1000, 800) (100, 100, 301, 300).
Proof.
  split; [vm_compute; reflexivity|].
  split; [vm_compute; reflexivity|]. split; [vm_compute; reflexivity|].
  vm_compute. intros H. discriminate H.
Qed.

(** C1, amended. The rectangle of every export is
    [left = max(0, floor(min(ix0,ix1)))], [top = max(0, floor(min(iy0,iy1)))],
    [right = min(imageWidth, int(max(ix0,ix1)))],
    [bottom = min(imageHeight, int(max(iy0,iy1)))], where [int] truncates
    toward zero; on an export that is [floor] as well: the right and bottom
    edges are rounded down, not up, before the clamp. *)
Theorem export_rect_clamped (fmt : Formatter) (a : App) (fs : FileSystem)
    (n : nat) (rect : box) :
  exported (snd (_save_crop fmt a fs)) = Some (n, rect) ->
  exists w h b,
    pil_image a = Some (w, h) /\ sel_box a = Some b /\
    rect = trunc_crop_rect a (w, h) b /\
    rect = floor_crop_rect a (w, h) b.
Proof.
  intros H. destruct rect as [[[lft top] rgt] bot].
  destruct (save_crop_exported_proper fmt a fs n lft top rgt bot H) as [Hw Hh].
  apply save_crop_exported in H.
  destruct H as (w & h & b & path & Himg & Hb & _ & Hrect & _).
  exists w, h, b. rewrite crop_rect_trunc in Hrect.
  split; [exact Himg|]. split; [exact Hb|]. split; [exact Hrect|].
  rewrite Hrect. revert Hrect. unfold trunc_crop_rect, floor_crop_rect.
  destruct (_norm_sel b) as [[[lx ty] rx] by_].
  destruct (_canvas_to_image a (inject_Z lx) (inject_Z ty)) as [ix0 iy0].
  destruct (_canvas_to_image a (inject_Z rx) (inject_Z by_)) as [ix1 iy1].
  simpl fst. simpl snd. intros [= -> -> -> ->].
  rewrite (int_pos_floor (Qmax ix0 ix1)) by lia.
  rewrite (int_pos_floor (Qmax iy0 iy1)) by lia.
  reflexivity.
Qed.

Lemma export_rect_clamped_witness :
  exists w h b,
    pil_image selected_fraction = Some (w, h) /\
    sel_box selected_fraction = Some b /\
    (133, 133, 401, 400) = trunc_crop_rect selected_fraction (w, h) b /\
    (133, 133, 401, 400) = floor_crop_rect selected_fraction (w, h) b.
Proof.
  apply (export_rect_clamped fragment_formatter selected_fraction fs_ok
           1 (133, 133, 401, 400)).
  vm_compute. reflexivity.
Defined.

(** The two scenarios of the specification on the half-scale view: the
    selection [(100,100)-(300,300)] exports [(200,200)-(600,600)], and the
    selection [(-20,100)-(200,300)], which reaches left of the image, is cut
    at 0 and exports [(0,200)-(400,600)]. *)
Example export_rect_scenarios :
  snd (_save_crop fragment_formatter selected fs_ok)
  = Saved 1 "photo_cr1.jpg" (200, 200, 600, 600) /\
  sel_box selected_outside = Some (-20, 100, 200, 300) /\
  snd (_save_crop fragment_formatter selected_outside fs_ok)
  = Saved 1 "photo_cr1.jpg" (0, 200, 400, 600).
Proof. vm_compute. repeat split. Qed.

(** ** Rejected selections *)

Lemma Qmin_same (q : Q) : Qmin q q = q.
Proof. unfold Qmin, GenericMinMax.gmin. destruct (q ?= q)%Q; reflexivity. Qed.

Lemma Qmax_same (q : Q) : Qmax q q = q.
Proof. unfold Qmax, GenericMinMax.gmax. destruct (q ?= q)%Q; reflexivity. Qed.

(** A selection of no height leaves no rows after the clamp. *)
Lemma crop_rect_flat (a : App) (w h x0 x1 y : Z) (lft top rgt bot : Z) :
  crop_rect a (w, h) (x0, y, x1, y) = (lft, top, rgt, bot) -> bot <= top.
Proof.
  unfold crop_rect, _norm_sel, _canvas_to_image.
  rewrite Z.min_id, Z.max_id, Qmin_same, Qmax_same. simpl fst. simpl snd.
  intros [= _ <- _ <-]. lia.
Qed.

(** C4. The export ends in "selection too small" exactly when an image and a
    selection are present and the clamped rectangle has [right <= left] or
    [bottom <= top]; the state after it (selection, counters and all) is the
    state before, and nothing is written.  A selection of zero height such
    as [(50,50)-(51,50)] is rejected this way. *)
Theorem too_small_exactly_when_collapsed (fmt : Formatter) (a : App)
    (fs : FileSystem) :
  (snd (_save_crop fmt a fs) = SelectionTooSmall <->
   exists w h b lft top rgt bot,
     pil_image a = Some (w, h) /\ sel_box a = Some b /\ ~ (scale a == 0)%Q /\
     crop_rect a (w, h) b = (lft, top, rgt, bot) /\
     (rgt <= lft \/ bot <= top)) /\
  (snd (_save_crop fmt a fs) = SelectionTooSmall ->
   fst (_save_crop fmt a fs) = a /\
   exported (snd (_save_crop fmt a fs)) = None) /\
  (forall w h x0 x1 y,
      pil_image a = Some (w, h) -> sel_box a = Some (x0, y, x1, y) ->
      ~ (scale a == 0)%Q ->
      snd (_save_crop fmt a fs) = SelectionTooSmall).
Proof.
  split; [|split].
  - split.
    + intros H. destruct (save_crop_too_small_inv fmt a fs H)
        as (_ & w & h & b & Himg & Hb & Hs).
      destruct (crop_rect a (w, h) b) as [[[lft top] rgt] bot] eqn:Hrect.
      exists w, h, b, lft, top, rgt, bot. repeat split; try assumption.
      apply (save_crop_too_small fmt a fs w h b lft top rgt bot); assumption.
    + intros (w & h & b & lft & top & rgt & bot & Himg & Hb & Hs & Hrect & Hsmall).
      apply (save_crop_too_small fmt a fs w h b lft top rgt bot); assumption.
  - intros H. split.
    + apply save_crop_too_small_inv. exact H.
    + rewrite H. reflexivity.
  - intros w h x0 x1 y Himg Hb Hs.
    destruct (crop_rect a (w, h) (x0, y, x1, y)) as [[[lft top] rgt] bot] eqn:Hrect.
    apply (save_crop_too_small fmt a fs w h (x0, y, x1, y) lft top rgt bot);
      try assumption.
    right. exact (crop_rect_flat a w h x0 x1 y lft top rgt bot Hrect).
Qed.

Lemma too_small_exactly_when_collapsed_witness :
  sel_box selected_flat = Some (50, 50, 51, 50) /\
  snd (_save_crop fragment_formatter selected_flat fs_ok) = SelectionTooSmall /\
  fst (_save_crop fragment_formatter selected_flat fs_ok) = selected_flat /\
  exported (snd (_save_crop fragment_formatter selected_flat fs_ok)) = None.
Proof.
  split; [reflexivity|].
  destruct (too_small_exactly_when_collapsed fragment_formatter selected_flat fs_ok)
    as (_ & Hframe & Hflat).
  assert (H : snd (_save_crop fragment_formatter selected_flat fs_ok)
              = SelectionTooSmall).
  { apply (Hflat 1000 800 50 51 50); [reflexivity|reflexivity|].
    vm_compute. discriminate. }
  split; [exact H|]. exact (Hframe H).
Defined.

(** ** Output naming *)

Lemma fragment_formatter_faithful : faithful fragment_formatter.
Proof.
  intros pattern base n ext. unfold fragment_formatter.
  destruct (format_fragment pattern base n ext); auto.
Qed.

(** A field whose name is none of [base], [n], [ext] makes [format] raise,
    whatever the values are. *)
Lemma bogus_raises (fmt : Formatter) (base : string) (n : nat) (ext : string) :
  faithful fmt -> fmt "{bogus}" base n ext = None.
Proof. intros H. exact (H "{bogus}" base n ext). Qed.

Lemma append_assoc (s t u : string) : (s ++ t) ++ u = s ++ (t ++ u).
Proof.
  induction s as [|c s IH]; [reflexivity|].
  change (String c ((s ++ t) ++ u) = String c (s ++ (t ++ u))).
  rewrite IH. reflexivity.
Qed.

(** The default pattern formats to the default stem. *)
Lemma default_pattern_formats (fmt : Formatter) (base : string) (n : nat)
    (ext : string) :
  faithful fmt -> fmt DEFAULT_PATTERN base n ext = Some (base ++ "_cr" ++ Py.str n).
Proof.
  intros H. specialize (H DEFAULT_PATTERN base n ext).
  unfold format_fragment, DEFAULT_PATTERN in *. simpl in H.
  rewrite H. rewrite !append_assoc. reflexivity.
Qed.

(** The [except] branch. *)
Lemma out_stem_fallback (fmt : Formatter) (pattern base : string) (n : nat)
    (oext : string) :
  fmt pattern base n oext = None ->
  out_stem fmt pattern base n oext = base ++ "_cr" ++ Py.str n.
Proof. intros H. unfold out_stem. rewrite H. reflexivity. Qed.

(** The fallback gives what the default pattern would have given. *)
Lemma out_stem_fallback_is_default (fmt : Formatter) (pattern base : string)
    (n : nat) (oext : string) :
  faithful fmt ->
  fmt pattern base n oext = None ->
  out_stem fmt pattern base n oext = out_stem fmt DEFAULT_PATTERN base n oext.
Proof.
  intros Hf H. rewrite (out_stem_fallback fmt pattern base n oext H).
  unfold out_stem. rewrite (default_pattern_formats fmt base n oext Hf).
  reflexivity.
Qed.

(** C8. When the pattern cannot be formatted with [base], [n] and [ext], an
    export that passes the selection and folder steps still saves: the file
    gets the stem [base_cr<n>], the default form.  So the first crop of
    [base.jpg] under the pattern ["{bogus}"] has the stem [base_cr1]. *)
Theorem unformattable_pattern_falls_back (fmt : Formatter) (a : App)
    (fs : FileSystem) (w h : Z) (b : box) (lft top rgt bot : Z)
    (path pattern : string) :
  pil_image a = Some (w, h) -> sel_box a = Some b -> ~ (scale a == 0)%Q ->
  crop_rect a (w, h) b = (lft, top, rgt, bot) -> lft < rgt -> top < bot ->
  image_path a = Some path ->
  makedirs_ok fs = true -> save_ok fs = true ->
  config a !! "overwrite" <> Some "true" ->
  config a !! "pattern" = Some pattern ->
  let base := fst (Py.splitext (Py.basename path)) in
  let oext := output_ext (snd (Py.splitext (Py.basename path))) in
  let n := (default 0 (crop_counter a !! path) + 1)%nat in
  fmt pattern base n oext = None ->
  out_stem fmt pattern base n oext = base ++ "_cr" ++ Py.str n /\
  snd (_save_crop fmt a fs)
  = Saved n ((base ++ "_cr" ++ Py.str n) ++ oext) (lft, top, rgt, bot).
Proof.
  intros Himg Hb Hs Hrect Hw Hh Hpath Hmk Hsv Hover Hpat base oext n Hraise.
  pose proof (out_stem_fallback fmt pattern base n oext Hraise) as Hstem.
  split; [exact Hstem|].
  rewrite (save_crop_saved fmt a fs w h b lft top rgt bot path) by assumption.
  rewrite Hpat. simpl default. simpl snd.
  fold base. fold oext. fold n. rewrite Hstem. reflexivity.
Qed.

Lemma unformattable_pattern_falls_back_witness :
  fragment_formatter "{bogus}" "base" 1%nat ".jpg" = None /\
  out_stem fragment_formatter "{bogus}" "base" 1%nat ".jpg" = "base_cr1" /\
  snd (_save_crop fragment_formatter selected_bogus fs_ok)
  = Saved 1 "base_cr1.jpg" (200, 200, 600, 600).
Proof.
  split; [reflexivity|].
  apply (unformattable_pattern_falls_back fragment_formatter selected_bogus fs_ok
           1000 800 (100, 100, 300, 300) 200 200 600 600
           "/pics/base.jpg" "{bogus}");
    try (vm_compute; reflexivity); try (vm_compute; discriminate).
Defined.

(** The same scenario for every faithful formatter. *)
Example bogus_pattern_first_crop (fmt : Formatter) :
  faithful fmt ->
  snd (_save_crop fmt selected_bogus fs_ok)
  = Saved 1 "base_cr1.jpg" (200, 200, 600, 600).
Proof.
  intros Hf.
  rewrite (save_crop_saved fmt selected_bogus fs_ok
             1000 800 (100, 100, 300, 300) 200 200 600 600 "/pics/base.jpg");
    try (vm_compute; reflexivity); try (vm_compute; discriminate).
  simpl snd.
  replace (default DEFAULT_PATTERN (config selected_bogus !! "pattern"))
    with "{bogus}" by (vm_compute; reflexivity).
  replace (default 0%nat (crop_counter selected_bogus !! "/pics/base.jpg") + 1)%nat
    with 1%nat by (vm_compute; reflexivity).
  rewrite out_stem_fallback by (apply bogus_raises; exact Hf).
  vm_compute. reflexivity.
Qed.

(** Other patterns that raise: a lone brace, a positional field. *)
Example patterns_that_raise :
  format_fragment "crop}" "base" 1 ".jpg" = FormatRaises /\
  format_fragment "{" "base" 1 ".jpg" = FormatRaises /\
  format_fragment "{}_{n}" "base" 1 ".jpg" = FormatRaises /\
  format_fragment "{0}" "base" 1 ".jpg" = FormatRaises /\
  format_fragment "{{{base}}}-{n}{ext}" "base" 12 ".jpg"
  = Formatted "{base}-12.jpg" /\
  format_fragment "{n:03d}" "base" 1 ".jpg" = FormatUnmodelled.
Proof. repeat split. Qed.

(** ** Output extension *)

(** The spelling of the source extension is kept: [PHOTO.JPG] is exported
    as [PHOTO_cr1.JPG].  The membership test is made on the lower-cased
    extension. *)
Example upper_case_extension_kept :
  snd (Py.splitext (Py.basename "/pics/PHOTO.JPG")) = ".JPG" /\
  output_ext ".JPG" = ".JPG" /\
  Py.mem (Py.lower (output_ext ".JPG")) WRITABLE_EXTS = true /\
  image_path selected_upper = Some "/pics/PHOTO.JPG" /\
  snd (_save_crop fragment_formatter selected_upper fs_ok)
  = Saved 1 "PHOTO_cr1.JPG" (200, 200, 600, 600).
Proof. repeat split; vm_compute; reflexivity. Qed.

(** C9. With no source extension the output extension is [.png]; with a
    source extension that, case-insensitively, is not in the writable set
    [.jpg], [.jpeg], [.png], [.bmp], [.tiff] it is [.png]; otherwise the
    source extension is kept.  In every case the output extension is,
    case-insensitively, a member of the writable set. *)
Theorem output_ext_writable (ext : string) :
  (ext = EmptyString -> output_ext ext = ".png") /\
  (ext <> EmptyString -> Py.mem (Py.lower ext) WRITABLE_EXTS = false ->
   output_ext ext = ".png") /\
  (Py.mem (Py.lower ext) WRITABLE_EXTS = true -> output_ext ext = ext) /\
  Py.mem (Py.lower (output_ext ext)) WRITABLE_EXTS = true.
Proof.
  unfold output_ext.
  destruct (String.eqb ext EmptyString) eqn:Hempty.
  - apply String.eqb_eq in Hempty. subst ext. simpl.
    repeat split; try reflexivity; try congruence.
  - apply String.eqb_neq in Hempty.
    destruct (Py.mem (Py.lower ext) WRITABLE_EXTS) eqn:Hmem.
    + repeat split; try reflexivity; try congruence.
    + repeat split; try reflexivity; try congruence.
Qed.

Lemma output_ext_writable_witness :
  output_ext EmptyString = ".png" /\ output_ext ".gif" = ".png" /\
  output_ext ".JPG" = ".JPG" /\
  Py.mem (Py.lower (output_ext ".JPG")) WRITABLE_EXTS = true.
Proof.
  split; [exact (proj1 (output_ext_writable EmptyString) eq_refl)|].
  split.
  { apply (proj1 (proj2 (output_ext_writable ".gif"))); [discriminate|reflexivity]. }
  split.
  { exact (proj1 (proj2 (proj2 (output_ext_writable ".JPG"))) eq_refl). }
  exact (proj2 (proj2 (proj2 (output_ext_writable ".JPG")))).
Defined.

(** The name of every saved file ends in the output extension of its
    source. *)
Lemma saved_name_extension (fmt : Formatter) (a : App) (fs : FileSystem)
    (n : nat) (out_name : string) (rect : box) :
  snd (_save_crop fmt a fs) = Saved n out_name rect ->
  exists path stem,
    image_path a = Some path /\
    out_name = stem ++ output_ext (snd (Py.splitext (Py.basename path))).
Proof.
  save_crop_paths; try done. intros [= <- <- <-].
  eexists _, _. split; [reflexivity|].
  match goal with H : Py.splitext _ = _ |- _ => rewrite H end. reflexivity.
Qed.

Example splitext_examples :
  Py.splitext "photo.jpg" = ("photo", ".jpg") /\
  Py.splitext "archive.tar.gz" = ("archive.tar", ".gz") /\
  Py.splitext ".hidden" = (".hidden", EmptyString) /\
  Py.splitext "noext" = ("noext", EmptyString) /\
  Py.splitext "/a.b/noext" = ("/a.b/noext", EmptyString) /\
  Py.basename "/pics/photo.jpg" = "photo.jpg".
Proof. repeat split. Qed.

(** ** The per-image counter *)

Lemma crop_numbers_one (p : string) (e : LogEntry) :
  crop_numbers p [e] = match crop_number p e with Some n => [n] | None => [] end.
Proof. reflexivity. Qed.

Lemma crop_numbers_app (p : string) (l1 l2 : list LogEntry) :
  crop_numbers p (l1 ++ l2)%list = (crop_numbers p l1 ++ crop_numbers p l2)%list.
Proof. unfold crop_numbers. apply omap_app. Qed.

Lemma crop_number_not_exported (p : string) (q : option string) (o : Outcome) :
  exported o = None -> crop_number p (q, o) = None.
Proof. destruct q, o; simpl; congruence. Qed.

Lemma crop_number_exported (p path : string) (o : Outcome) (n : nat) (rect : box) :
  exported o = Some (n, rect) ->
  crop_number p (Some path, o) = if String.eqb path p then Some n else None.
Proof. destruct o; simpl; try discriminate; intros [= -> ->]; reflexivity. Qed.

Section Counter.

Variable fmt : Formatter.
Variable p : string.

(** One event either issues no number for [p] and leaves its counter, or
    issues the next number and advances the counter to it. *)
Lemma step_crop_numbers (a : App) (e : Event) :
  (forall fs, e = EvReturn fs -> save_ok fs = true) ->
  (crop_numbers p (snd (step fmt a e)) = [] /\
   count (fst (step fmt a e)) p = count a p) \/
  (crop_numbers p (snd (step fmt a e)) = [S (count a p)] /\
   count (fst (step fmt a e)) p = S (count a p)).
Proof.
  intros Hok. unfold count.
  destruct e as [path file|x y|x y| | |fs|cv|cfg]; unfold step; cbn [fst snd];
    try (left; autorewrite with counter_frame; split; reflexivity).
  specialize (Hok fs eq_refl).
  destruct (_save_crop fmt a fs) as [a' o] eqn:Hsave. cbn [fst snd].
  rewrite crop_numbers_one.
  destruct (exported o) as [[n rect]|] eqn:Hexp.
  - pose proof (save_crop_exported fmt a fs n rect) as Hinv.
    rewrite Hsave in Hinv. simpl in Hinv.
    destruct (Hinv Hexp) as (w & h & b & path & _ & _ & Hpath & _ & Hn & Hcnt).
    rewrite Hpath, Hcnt, (crop_number_exported p path o n rect Hexp).
    destruct (String.eqb path p) eqn:Heq.
    + apply String.eqb_eq in Heq. subst path. right.
      rewrite lookup_insert_eq. simpl. rewrite Hn, Nat.add_1_r. auto.
    + apply String.eqb_neq in Heq. left.
      rewrite lookup_insert_ne by exact Heq. auto.
  - left. rewrite (crop_number_not_exported p (image_path a) o Hexp).
    pose proof (save_crop_not_exported fmt a fs Hok) as Hsame.
    rewrite Hsave in Hsame. simpl in Hsame. rewrite (Hsame Hexp). auto.
Qed.

Lemma run_cons (a : App) (e : Event) (rest : list Event) :
  run fmt a (e :: rest)
  = (fst (run fmt (fst (step fmt a e)) rest),
     (snd (step fmt a e) ++ snd (run fmt (fst (step fmt a e)) rest))%list).
Proof.
  simpl. destruct (step fmt a e) as [a1 l1]. simpl.
  destruct (run fmt a1 rest) as [a2 l2]. reflexivity.
Qed.

(** From any state the numbers issued for [p] continue its counter. *)
Lemma run_crop_numbers (evs : list Event) :
  forall a : App,
    (forall fs, In (EvReturn fs) evs -> save_ok fs = true) ->
    let log := snd (run fmt a evs) in
    crop_numbers p log = seq (S (count a p)) (length (crop_numbers p log)) /\
    count (fst (run fmt a evs)) p = (count a p + length (crop_numbers p log))%nat.
Proof.
  induction evs as [|e rest IH]; intros a Hok.
  - simpl. split; [reflexivity|lia].
  - cbv zeta. rewrite run_cons. simpl fst. simpl snd.
    rewrite crop_numbers_app, length_app.
    assert (Hrest : forall fs, In (EvReturn fs) rest -> save_ok fs = true).
    { intros fs Hin. apply Hok. right. exact Hin. }
    specialize (IH (fst (step fmt a e)) Hrest). cbv zeta in IH.
    destruct IH as [IHnum IHcnt].
    destruct (step_crop_numbers a e) as [[Hnone Hsame]|[Hone Hnext]].
    + intros fs ->. apply Hok. left. reflexivity.
    + rewrite Hnone. simpl. rewrite Hsame in IHnum, IHcnt. split; assumption.
    + rewrite Hone. simpl. rewrite Hnext in IHnum, IHcnt. split.
      * f_equal. exact IHnum.
      * lia.
Qed.

(** C3. Along any run of the application from start-up in which no write
    fails, the numbers given to the successful exports of a source path [p]
    are 1, 2, ..., N in this order, whatever happens in between (exports
    rejected as too small, other images, new selections), and the counter of
    [p] is N at the end: it never goes back. *)
Theorem crop_numbers_consecutive (cfg : gmap string string) (cv : Z * Z)
    (evs : list Event) :
  (forall fs, In (EvReturn fs) evs -> save_ok fs = true) ->
  let final := run fmt (init cfg cv) evs in
  crop_numbers p (snd final) = seq 1 (length (crop_numbers p (snd final))) /\
  count (fst final) p = length (crop_numbers p (snd final)).
Proof.
  intros Hok final. subst final.
  destruct (run_crop_numbers evs (init cfg cv) Hok) as [Hnum Hcnt].
  split; [exact Hnum|exact Hcnt].
Qed.

(** The counter of a path never decreases, whatever the file system does. *)
Lemma step_count_monotone (a : App) (e : Event) :
  (count a p <= count (fst (step fmt a e)) p)%nat.
Proof.
  unfold count.
  destruct e as [path file|x y|x y| | |fs|cv|cfg]; unfold step; cbn [fst snd];
    try (autorewrite with counter_frame; reflexivity).
  destruct (_save_crop fmt a fs) as [a' o] eqn:Hsave.
  replace a' with (fst (_save_crop fmt a fs)) by (rewrite Hsave; reflexivity).
  clear Hsave. save_crop_paths; autorewrite with counter_frame; simpl;
    try reflexivity;
    match goal with
    | |- context [<[?k := _]> _ !! p] =>
        destruct (decide (k = p)) as [->|Hne];
        [rewrite lookup_insert_eq; simpl; lia
        |rewrite lookup_insert_ne by exact Hne; reflexivity]
    end.
Qed.

Lemma run_count_monotone (evs : list Event) :
  forall a, (count a p <= count (fst (run fmt a evs)) p)%nat.
Proof.
  induction evs as [|e rest IH]; intros a; [reflexivity|].
  rewrite run_cons. simpl fst.
  etransitivity; [apply (step_count_monotone a e)|apply IH].
Qed.

End Counter.

Example session_log :
  snd (run fragment_formatter (init default_config (500, 400)) session)
  = [(Some "/pics/photo.jpg", Saved 1 "photo_cr1.jpg" (200, 200, 600, 600));
     (Some "/pics/photo.jpg", SelectionTooSmall);
     (Some "/pics/photo.jpg", Saved 2 "photo_cr2.jpg" (20, 20, 120, 120))].
Proof. vm_compute. reflexivity. Qed.

Lemma crop_numbers_consecutive_witness :
  let final := run fragment_formatter (init default_config (500, 400)) session in
  crop_numbers "/pics/photo.jpg" (snd final)
  = seq 1 (length (crop_numbers "/pics/photo.jpg" (snd final))) /\
  count (fst final) "/pics/photo.jpg"
  = length (crop_numbers "/pics/photo.jpg" (snd final)).
Proof.
  apply (crop_numbers_consecutive fragment_formatter "/pics/photo.jpg"
           default_config (500, 400) session).
  intros fs Hin. simpl in Hin.
  repeat (destruct Hin as [Hin|Hin]; [try discriminate Hin|]);
    try (injection Hin as <-; reflexivity).
  destruct Hin.
Defined.

(** Outside the theorem's hypothesis: the counter is advanced before the
    write, so a write that fails uses up its number and the next crop skips
    it. *)
Example failed_write_consumes_number :
  snd (run fragment_formatter (init default_config (500, 400)) session_write_fails)
  = [(Some "/pics/photo.jpg", Saved 1 "photo_cr1.jpg" (200, 200, 600, 600));
     (Some "/pics/photo.jpg", Raised);
     (Some "/pics/photo.jpg", Saved 3 "photo_cr3.jpg" (200, 200, 600, 600))].
Proof. vm_compute. reflexivity. Qed.

(** ** Reachable states *)

(** Open the record, with each corner of the selection set or not, and
    decide [well_formed] on the fields. *)
Ltac wf_fields a :=
  destruct a as [? ? ? ? ? [?|] [?|] [?|] [?|] ? ? ? ? ? ? ?];
  unfold well_formed, sel_box, _clear_selection in *; simpl in *;
  try discriminate;
  repeat match goal with
         | H : None = None -> _ |- _ => specialize (H eq_refl)
         | H : forall m, ?d = Some m -> is_Some None, Hm : ?d = Some _ |- _ =>
             specialize (H _ Hm)
         | H : is_Some None |- _ => destruct H as [? H]; discriminate H
         | H : _ /\ _ |- _ => destruct H
         | H : Some _ = Some _ |- _ => injection H as ?; subst
         | |- _ /\ _ => split
         | |- is_Some (Some _) => eexists; reflexivity
         | |- _ -> _ => intro
         | |- forall _, _ => intro
         end;
  try discriminate; try congruence; eauto.

Lemma wf_init (cfg : gmap string string) (cv : Z * Z) : well_formed (init cfg cv).
Proof.
  unfold well_formed, sel_box. simpl.
  repeat split; try discriminate. intros [x H]. discriminate.
Qed.

Lemma wf_render_image (a : App) : well_formed a -> well_formed (_render_image a).
Proof.
  unfold _render_image. destruct (pil_image a) as [[iw ih]|] eqn:Himg; [|auto].
  destruct ((iw =? 0) || (ih =? 0)); [auto|].
  destruct (fit (iw, ih) (canvas a)) as [[s ox] oy].
  destruct a. simpl in *. subst. auto.
Qed.

Lemma wf_clear_selection (a : App) :
  well_formed a -> well_formed (_clear_selection a).
Proof. intros Hwf. wf_fields a. Qed.

Lemma wf_load_image (a : App) (path : string) (file : option (Z * Z)) :
  well_formed a -> well_formed (_load_image a path file).
Proof.
  intros Hwf. unfold _load_image. destruct file as [size|]; [|exact Hwf].
  destruct (negb _); [exact Hwf|].
  apply wf_render_image. wf_fields a.
Qed.

Lemma wf_on_mouse_down (a : App) (x y : Z) :
  well_formed a -> well_formed (_on_mouse_down a x y).
Proof.
  intros Hwf. unfold _on_mouse_down.
  destruct (pil_image a) as [img|] eqn:Hpil; [|exact Hwf].
  destruct (_hit_handle a x y) as [handle|].
  - destruct (sel_box a) as [b|] eqn:Hb; [|exact Hwf]. wf_fields a.
  - destruct (_inside_selection a x y).
    + destruct (sel_box a) as [b|] eqn:Hb; [|exact Hwf]. wf_fields a.
    + wf_fields a.
Qed.

Lemma wf_on_mouse_drag (a : App) (x y : Z) :
  well_formed a -> well_formed (_on_mouse_drag a x y).
Proof.
  intros Hwf. unfold _on_mouse_drag.
  destruct (_drag_mode a) as [mode|] eqn:Hmode; [|exact Hwf].
  destruct (String.eqb mode "new") eqn:Hnew.
  - wf_fields a.
  - destruct (String.eqb mode "move");
      destruct (_drag_sel_snapshot a) as [[[[sx0 sy0] sx1] sy1]|] eqn:Hs;
      try exact Hwf; wf_fields a.
Qed.

Lemma wf_on_mouse_up (a : App) : well_formed a -> well_formed (_on_mouse_up a).
Proof.
  intros Hwf. unfold _on_mouse_up.
  destruct (_has_selection a);
    [destruct (sel_box a) as [[[[x0 y0] x1] y1]|] eqn:Hb|]; wf_fields a.
Qed.

Section Reachable.

Variable fmt : Formatter.

Lemma wf_save_crop (a : App) (fs : FileSystem) :
  well_formed a -> well_formed (fst (_save_crop fmt a fs)).
Proof.
  intros Hwf. save_crop_paths; try exact Hwf.
  apply wf_render_image. wf_fields a.
Qed.

Lemma wf_step (a : App) (e : Event) :
  well_formed a -> well_formed (fst (step fmt a e)).
Proof.
  intros Hwf. destruct e as [path file|x y|x y| | |fs|cv|cfg]; unfold step.
  - apply wf_load_image, Hwf.
  - apply wf_on_mouse_down, Hwf.
  - apply wf_on_mouse_drag, Hwf.
  - apply wf_on_mouse_up, Hwf.
  - apply wf_clear_selection, Hwf.
  - pose proof (wf_save_crop a fs Hwf) as H.
    destruct (_save_crop fmt a fs) as [a' o]. exact H.
  - apply wf_render_image. exact Hwf.
  - exact Hwf.
Qed.

(** Every state the application reaches is well formed. *)
Lemma run_well_formed (evs : list Event) :
  forall a, well_formed a -> well_formed (fst (run fmt a evs)).
Proof.
  induction evs as [|e rest IH]; intros a Hwf; [exact Hwf|].
  rewrite run_cons. simpl fst. apply IH, wf_step, Hwf.
Qed.

Variable cfg : gmap string string.
Variable cv : Z * Z.
Variable evs : list Event.

(** So the branches of the model that stand for a TypeError are never
    taken: a pointer move in a move or resize session finds its snapshot,
    and an export with an image finds its path. *)
Lemma reachable_session_has_snapshot (mode : string) :
  let a := fst (run fmt (init cfg cv) evs) in
  _drag_mode a = Some mode -> mode <> "new" ->
  is_Some (_drag_sel_snapshot a) /\ is_Some (sel_box a).
Proof.
  intros a Hmode Hnew.
  destruct (run_well_formed evs (init cfg cv) (wf_init cfg cv))
    as (_ & Hsel & Hsnap & _).
  split; [exact (Hsnap mode Hmode Hnew)|exact (Hsel mode Hmode)].
Qed.

Lemma reachable_image_has_path :
  let a := fst (run fmt (init cfg cv) evs) in
  is_Some (pil_image a) -> is_Some (image_path a).
Proof.
  intros a. apply (run_well_formed evs (init cfg cv) (wf_init cfg cv)).
Qed.

End Reachable.

(** * Further properties *)

(** ** Normal form of the selection *)

(** X1. [_norm_sel] puts the corners in order, is idempotent, and gives the
    same rectangle whichever way the two corners were drawn along either
    axis. *)
Theorem norm_sel_canonical (x0 y0 x1 y1 : Z) :
  let n := _norm_sel (x0, y0, x1, y1) in
  (let '(lx, ty, rx, by_) := n in lx <= rx /\ ty <= by_) /\
  _norm_sel n = n /\
  _norm_sel (x1, y0, x0, y1) = n /\
  _norm_sel (x0, y1, x1, y0) = n /\
  _norm_sel (x1, y1, x0, y0) = n.
Proof.
  intros n. subst n. split; [simpl; lia|]. split.
  - apply norm_sel_idempotent.
  - unfold _norm_sel.
    rewrite (Z.min_comm x1 x0), (Z.max_comm x1 x0),
            (Z.min_comm y1 y0), (Z.max_comm y1 y0).
    repeat split.
Qed.

Lemma Qhalf_between (l r : Z) :
  l <= r ->
  (inject_Z l <= inject_Z (l + r) / 2 /\ inject_Z (l + r) / 2 <= inject_Z r)%Q.
Proof.
  intros H. split.
  - apply Qle_shift_div_l; [reflexivity|].
    change 2%Q with (inject_Z 2). rewrite <- inject_Z_mult, <- Zle_Qle. lia.
  - apply Qle_shift_div_r; [reflexivity|].
    change 2%Q with (inject_Z 2). rewrite <- inject_Z_mult, <- Zle_Qle. lia.
Qed.

(** X2. The handles do not depend on the way the rectangle was drawn, and
    each of the eight handle points lies within the normalized rectangle. *)
Theorem handles_of_normal_form (x0 y0 x1 y1 : Z) :
  let b := (x0, y0, x1, y1) in
  _handles (_norm_sel b) = _handles b /\
  _handles (x1, y1, x0, y0) = _handles b /\
  length (_handles b) = 8%nat /\
  Forall (fun e : string * (Q * Q) =>
            let '(lx, ty, rx, by_) := _norm_sel b in
            (inject_Z lx <= fst (snd e) /\ fst (snd e) <= inject_Z rx /\
             inject_Z ty <= snd (snd e) /\ snd (snd e) <= inject_Z by_)%Q)
         (_handles b).
Proof.
  intros b. subst b.
  split.
  { unfold _handles. rewrite norm_sel_idempotent. reflexivity. }
  split.
  { unfold _handles, _norm_sel.
    rewrite (Z.min_comm x1 x0), (Z.max_comm x1 x0),
            (Z.min_comm y1 y0), (Z.max_comm y1 y0). reflexivity. }
  split; [reflexivity|].
  unfold _handles, _norm_sel.
  assert (Hx : Z.min x0 x1 <= Z.max x0 x1) by lia.
  assert (Hy : Z.min y0 y1 <= Z.max y0 y1) by lia.
  destruct (Qhalf_between _ _ Hx) as [Hx1 Hx2].
  destruct (Qhalf_between _ _ Hy) as [Hy1 Hy2].
  assert (HxQ : (inject_Z (Z.min x0 x1) <= inject_Z (Z.max x0 x1))%Q)
    by (rewrite <- Zle_Qle; exact Hx).
  assert (HyQ : (inject_Z (Z.min y0 y1) <= inject_Z (Z.max y0 y1))%Q)
    by (rewrite <- Zle_Qle; exact Hy).
  repeat constructor; simpl; try apply Qle_refl; assumption.
Qed.

(** ** Drawn handles and the hit zone *)

Lemma first_hit_in_order (hs : list (string * (Q * Q))) (x y : Z) (name : string) :
  first_hit hs x y = Some name -> In name (map fst hs).
Proof.
  induction hs as [|[nm h] rest IH]; simpl; [discriminate|].
  destruct (within_hit x y h).
  - intros [= ->]. left. reflexivity.
  - intros H. right. apply IH, H.
Qed.

Lemma hit_handle_name (a : App) (x y : Z) (name : string) :
  _hit_handle a x y = Some name -> In name handle_order.
Proof.
  unfold _hit_handle. destruct (negb (_has_selection a)); [discriminate|].
  destruct (sel_box a) as [b|]; [|discriminate].
  intros H. rewrite <- (handles_names b). apply (first_hit_in_order _ x y), H.
Qed.

(** X3. The square drawn for a handle (half side [HANDLE_SIZE] = 8) lies
    within the hit zone (radius [HIT_RADIUS] = 10): a pointer on any drawn
    handle square hits a handle. *)
Theorem drawn_handle_is_hit (a : App) (b : box) (sq : Q * Q * Q * Q) (x y : Z) :
  sel_box a = Some b ->
  In sq (handle_squares b) ->
  (let '(sx0, sy0, sx1, sy1) := sq in
   sx0 <= inject_Z x /\ inject_Z x <= sx1 /\
   sy0 <= inject_Z y /\ inject_Z y <= sy1)%Q ->
  is_Some (_hit_handle a x y).
Proof.
  intros Hb Hin Hpt.
  unfold handle_squares in Hin. apply in_map_iff in Hin.
  destruct Hin as ([name [hx hy]] & <- & Hin). simpl in Hpt.
  destruct Hpt as (Hx0 & Hx1 & Hy0 & Hy1).
  destruct (_hit_handle a x y) as [h|] eqn:Hhit; [eexists; reflexivity|].
  exfalso. unfold _hit_handle in Hhit.
  rewrite (sel_box_has_selection a b Hb), Hb in Hhit. simpl in Hhit.
  apply first_hit_none in Hhit. rewrite Forall_forall in Hhit.
  apply (Hhit (name, (hx, hy))).
  - apply list_elem_of_In. exact Hin.
  - unfold chebyshev_within, HANDLE_SIZE in *. cbn [fst snd].
    change (inject_Z 8) with 8%Q in *.
    split; apply Qabs_Qle_condition; split; lra.
Qed.

Lemma drawn_handle_is_hit_witness :
  sel_box selected = Some (100, 100, 300, 300) /\
  In (inject_Z 300 - inject_Z 8, inject_Z (100 + 300) / 2 - inject_Z 8,
      inject_Z 300 + inject_Z 8, inject_Z (100 + 300) / 2 + inject_Z 8)%Q
     (handle_squares (100, 100, 300, 300)) /\
  is_Some (_hit_handle selected 308 192).
Proof.
  split; [reflexivity|]. split.
  { unfold handle_squares. simpl. do 4 right. left. reflexivity. }
  apply (drawn_handle_is_hit selected (100, 100, 300, 300)
           (inject_Z 300 - inject_Z 8, inject_Z (100 + 300) / 2 - inject_Z 8,
            inject_Z 300 + inject_Z 8, inject_Z (100 + 300) / 2 + inject_Z 8)%Q).
  - reflexivity.
  - unfold handle_squares. simpl. do 4 right. left. reflexivity.
  - repeat split; vm_compute; discriminate.
Defined.

(** ** Gestures *)

Lemma no_selection_no_hit_no_inside (a : App) (x y : Z) :
  sel_box a = None ->
  _hit_handle a x y = None /\ _inside_selection a x y = false.
Proof.
  intros H. unfold _hit_handle, _inside_selection.
  rewrite (sel_box_none a H). split; reflexivity.
Qed.

(** X4. A press is dispatched in this order: with no image it is ignored;
    on a handle it opens a resize session named after the handle, with the
    normalized selection as snapshot, even inside the rectangle; otherwise
    inside the selection it opens a move session on the selection as it is;
    otherwise the old selection is dropped and a new one starts as the point
    pressed.  Counters are never touched. *)
Theorem mouse_down_dispatch (a : App) (x y : Z) :
  let a' := _on_mouse_down a x y in
  (pil_image a = None -> a' = a) /\
  (forall h b,
      pil_image a <> None -> _hit_handle a x y = Some h -> sel_box a = Some b ->
      _drag_mode a' = Some h /\ (_drag_ox a', _drag_oy a') = (x, y) /\
      _drag_sel_snapshot a' = Some (_norm_sel b) /\ sel_box a' = Some b) /\
  (forall b,
      pil_image a <> None -> _hit_handle a x y = None ->
      _inside_selection a x y = true -> sel_box a = Some b ->
      _drag_mode a' = Some "move" /\ (_drag_ox a', _drag_oy a') = (x, y) /\
      _drag_sel_snapshot a' = Some b /\ sel_box a' = Some b) /\
  (pil_image a <> None -> _hit_handle a x y = None ->
   _inside_selection a x y = false ->
   _drag_mode a' = Some "new" /\ sel_box a' = Some (x, y, x, y)) /\
  crop_counter a' = crop_counter a.
Proof.
  intros a'. subst a'. unfold _on_mouse_down.
  split; [intros ->; reflexivity|].
  split.
  { intros h b Himg Hh Hb. destruct (pil_image a); [|congruence].
    rewrite Hh, Hb. repeat split. exact Hb. }
  split.
  { intros b Himg Hh Hin Hb. destruct (pil_image a); [|congruence].
    rewrite Hh, Hin, Hb. repeat split. exact Hb. }
  split.
  { intros Himg Hh Hin. destruct (pil_image a); [|congruence].
    rewrite Hh, Hin. split; reflexivity. }
  fold (_on_mouse_down a x y). apply mouse_down_crop_counter.
Qed.

Lemma mouse_down_dispatch_witness :
  _hit_handle selected 100 100 = Some "nw" /\
  _inside_selection selected 100 100 = true /\
  _drag_mode (_on_mouse_down selected 100 100) = Some "nw" /\
  _drag_mode (_on_mouse_down selected 150 160) = Some "move" /\
  sel_box (_on_mouse_down selected 400 350) = Some (400, 350, 400, 350).
Proof.
  destruct (mouse_down_dispatch selected 100 100) as (_ & Hh & _).
  destruct (mouse_down_dispatch selected 150 160) as (_ & _ & Hm & _).
  destruct (mouse_down_dispatch selected 400 350) as (_ & _ & _ & Hn & _).
  split; [reflexivity|]. split; [reflexivity|]. split.
  { apply (Hh "nw" (100, 100, 300, 300)); [discriminate|reflexivity|reflexivity]. }
  split.
  { apply (Hm (100, 100, 300, 300));
      [discriminate|reflexivity|reflexivity|reflexivity]. }
  apply Hn; [discriminate|reflexivity|reflexivity].
Defined.

(** X5. Drawing a rectangle: a press away from the selection at [(x0,y0)],
    any pointer moves ending at [(x1,y1)], and the release leave the
    normalized rectangle with these two corners selected and no session. *)
Theorem draw_gesture (a : App) (x0 y0 xm ym x1 y1 : Z) :
  pil_image a <> None ->
  _hit_handle a x0 y0 = None ->
  _inside_selection a x0 y0 = false ->
  let pressed := _on_mouse_down a x0 y0 in
  let released := _on_mouse_up (_on_mouse_drag (_on_mouse_drag pressed xm ym) x1 y1) in
  sel_box (_on_mouse_drag pressed x1 y1) = Some (x0, y0, x1, y1) /\
  sel_box released = Some (_norm_sel (x0, y0, x1, y1)) /\
  _drag_mode released = None /\
  _drag_sel_snapshot released = None.
Proof.
  intros Himg Hh Hin pressed released. subst released pressed.
  unfold _on_mouse_down. destruct (pil_image a); [|congruence].
  rewrite Hh, Hin. repeat split.
Qed.

Lemma draw_gesture_witness :
  sel_box (_on_mouse_up (_on_mouse_drag (_on_mouse_drag
             (_on_mouse_down opened 300 250) 120 40) 100 50))
  = Some (100, 50, 300, 250).
Proof.
  apply (draw_gesture opened 300 250 120 40 100 50);
    [discriminate|reflexivity|reflexivity].
Defined.

(** X6. Pointer moves do not accumulate: in every mode the result of two
    moves is the result of the second alone, and without a session a move
    does nothing. *)
Theorem drag_depends_on_last_position (a : App) (xm ym x y : Z) :
  _on_mouse_drag (_on_mouse_drag a xm ym) x y = _on_mouse_drag a x y /\
  (_drag_mode a = None -> _on_mouse_drag a x y = a).
Proof.
  unfold _on_mouse_drag.
  destruct (_drag_mode a) as [mode|] eqn:Hmode;
    [|rewrite ?Hmode; split; reflexivity].
  split; [|discriminate].
  destruct (String.eqb mode "new") eqn:Hnew.
  - simpl. rewrite Hmode, Hnew. reflexivity.
  - destruct (String.eqb mode "move") eqn:Hmove;
      destruct (_drag_sel_snapshot a) as [[[[sx0 sy0] sx1] sy1]|] eqn:Hs;
      simpl; rewrite ?Hmode, ?Hnew, ?Hmove, ?Hs; reflexivity.
Qed.

Lemma drag_depends_on_last_position_witness :
  _drag_mode selected = None /\ _on_mouse_drag selected 7 9 = selected.
Proof.
  split; [reflexivity|].
  exact (proj2 (drag_depends_on_last_position selected 0 0 7 9) eq_refl).
Defined.

(** X7. Bringing the pointer back to where the press happened restores the
    rectangle of the press, in a move and in every resize session. *)
Theorem drag_back_to_origin (a : App) (mode : string) (s : box) :
  _drag_mode a = Some mode -> mode <> "new" ->
  _drag_sel_snapshot a = Some s ->
  sel_box (_on_mouse_drag a (_drag_ox a) (_drag_oy a)) = Some s.
Proof.
  intros Hmode Hnew Hs. destruct s as [[[sx0 sy0] sx1] sy1].
  unfold _on_mouse_drag. rewrite Hmode, Hs.
  apply String.eqb_neq in Hnew. rewrite Hnew.
  rewrite !Z.sub_diag, !Z.add_0_r.
  destruct (String.eqb mode "move"); [reflexivity|].
  destruct (Py.contains "w" mode), (Py.contains "e" mode),
           (Py.contains "n" mode), (Py.contains "s" mode); reflexivity.
Qed.

Lemma drag_back_to_origin_witness :
  (_drag_ox resizing_e, _drag_oy resizing_e) = (300, 200) /\
  sel_box (_on_mouse_drag resizing_e (_drag_ox resizing_e) (_drag_oy resizing_e))
  = Some (100, 100, 300, 300).
Proof.
  split; [reflexivity|].
  apply (drag_back_to_origin resizing_e "e" (100, 100, 300, 300));
    [reflexivity|discriminate|reflexivity].
Defined.

(** X8. Clearing the selection (Esc) also ends the drag session: afterwards
    there is no selection and no session, a pointer move changes nothing,
    a release changes nothing but the snapshot of the session, which Esc
    keeps and the release discards, no handle is hit, an export is refused
    and leaves the state as it is, and clearing again changes nothing. *)
Theorem clear_selection_cancels (fmt : Formatter) (a : App) (x y : Z)
    (fs : FileSystem) :
  let c := _clear_selection a in
  sel_box c = None /\ _drag_mode c = None /\
  _drag_sel_snapshot c = _drag_sel_snapshot a /\
  _on_mouse_drag c x y = c /\
  _on_mouse_up c = set_drag c None (_drag_ox c) (_drag_oy c) None /\
  sel_box (_on_mouse_up c) = None /\
  _hit_handle c x y = None /\ _inside_selection c x y = false /\
  _clear_selection c = c /\
  fst (_save_crop fmt c fs) = c /\
  (snd (_save_crop fmt c fs) = NoImage \/ snd (_save_crop fmt c fs) = NoSelection).
Proof.
  intros c. subst c.
  assert (Hnone : sel_box (_clear_selection a) = None) by reflexivity.
  split; [exact Hnone|]. split; [reflexivity|]. split; [reflexivity|].
  split; [reflexivity|]. split; [reflexivity|]. split; [reflexivity|].
  split; [apply no_selection_no_hit_no_inside, Hnone|].
  split; [apply no_selection_no_hit_no_inside, Hnone|].
  split; [reflexivity|].
  unfold _save_crop. destruct (pil_image (_clear_selection a)) as [[w h]|].
  - simpl. split; [reflexivity|right; reflexivity].
  - split; [reflexivity|left; reflexivity].
Qed.

(** After Esc in the middle of a move, the release still finds the
    snapshot of the move and discards it. *)
Example release_after_escape :
  _drag_sel_snapshot (_clear_selection moving) = Some (100, 100, 300, 300) /\
  _drag_sel_snapshot (_on_mouse_up (_clear_selection moving)) = None.
Proof. split; vm_compute; reflexivity. Qed.

(** X9. The release ends the session, leaves the selection normalized (or
    absent, when there was none), touches nothing else of the selection,
    and a second release changes nothing. *)
Theorem mouse_up_normalizes (a : App) :
  let u := _on_mouse_up a in
  _drag_mode u = None /\ _drag_sel_snapshot u = None /\
  sel_box u = _norm_sel <$> sel_box a /\
  (forall b, sel_box u = Some b -> _norm_sel b = b) /\
  _on_mouse_up u = u.
Proof.
  intros u. subst u. unfold _on_mouse_up.
  destruct (sel_box a) as [[[[x0 y0] x1] y1]|] eqn:Hb.
  - rewrite (sel_box_has_selection a _ Hb). cbn [fmap option_fmap option_map].
    split; [reflexivity|]. split; [reflexivity|]. split; [reflexivity|].
    split.
    + intros b [= <-]. exact (norm_sel_idempotent (x0, y0, x1, y1)).
    + simpl.
      replace (Z.min (Z.min x0 x1) (Z.max x0 x1)) with (Z.min x0 x1) by lia.
      replace (Z.min (Z.min y0 y1) (Z.max y0 y1)) with (Z.min y0 y1) by lia.
      replace (Z.max (Z.min x0 x1) (Z.max x0 x1)) with (Z.max x0 x1) by lia.
      replace (Z.max (Z.min y0 y1) (Z.max y0 y1)) with (Z.max y0 y1) by lia.
      reflexivity.
  - rewrite (sel_box_none a Hb). cbn [fmap option_fmap option_map].
    assert (Hb' : sel_box (set_drag a None (_drag_ox a) (_drag_oy a) None) = None)
      by exact Hb.
    split; [reflexivity|]. split; [reflexivity|]. split; [exact Hb|].
    split; [intros b H; rewrite Hb' in H; discriminate|].
    rewrite (sel_box_none _ Hb'). reflexivity.
Qed.

Lemma mouse_up_normalizes_witness :
  sel_box (_on_mouse_drag resizing_e 40 200) = Some (100, 100, 40, 300) /\
  _norm_sel (40, 100, 100, 300) = (40, 100, 100, 300).
Proof.
  split; [reflexivity|].
  apply (proj1 (proj2 (proj2 (proj2
           (mouse_up_normalizes (_on_mouse_drag resizing_e 40 200)))))).
  reflexivity.
Defined.

(** X10. A whole move gesture: a press inside the selection and off the
    handles at [(x,y)], pointer moves ending at [(x',y')] and the release
    leave the normalized selection translated by [(x'-x, y'-y)]; its width
    and height are unchanged. *)
Theorem move_gesture (a : App) (b : box) (x y xm ym x' y' : Z) :
  pil_image a <> None ->
  sel_box a = Some b ->
  _hit_handle a x y = None ->
  _inside_selection a x y = true ->
  let released :=
    _on_mouse_up (_on_mouse_drag (_on_mouse_drag (_on_mouse_down a x y) xm ym) x' y') in
  let '(lx, ty, rx, by_) := _norm_sel b in
  sel_box released
  = Some (lx + (x' - x), ty + (y' - y), rx + (x' - x), by_ + (y' - y)) /\
  _drag_mode released = None.
Proof.
  intros Himg Hb Hh Hin released. subst released.
  destruct b as [[[x0 y0] x1] y1].
  unfold _on_mouse_down. destruct (pil_image a); [|congruence].
  rewrite Hh, Hin, Hb. unfold _on_mouse_up, _on_mouse_drag. simpl.
  split; [|reflexivity].
  replace (Z.min (x0 + (x' - x)) (x1 + (x' - x))) with (Z.min x0 x1 + (x' - x)) by lia.
  replace (Z.min (y0 + (y' - y)) (y1 + (y' - y))) with (Z.min y0 y1 + (y' - y)) by lia.
  replace (Z.max (x0 + (x' - x)) (x1 + (x' - x))) with (Z.max x0 x1 + (x' - x)) by lia.
  replace (Z.max (y0 + (y' - y)) (y1 + (y' - y))) with (Z.max y0 y1 + (y' - y)) by lia.
  reflexivity.
Qed.

Lemma move_gesture_witness :
  sel_box (_on_mouse_up (_on_mouse_drag (_on_mouse_drag
             (_on_mouse_down selected 150 160) 0 0) 140 200))
  = Some (100 + (140 - 150), 100 + (200 - 160),
          300 + (140 - 150), 300 + (200 - 160)).
Proof.
  apply (move_gesture selected (100, 100, 300, 300) 150 160 0 0 140 200);
    [discriminate|reflexivity|reflexivity|reflexivity].
Defined.

(** ** The cursor *)

Lemma handle_cursor_not_crosshair (name : string) :
  _handle_cursor name <> "crosshair".
Proof.
  unfold _handle_cursor.
  destruct (cursor_table !! name) as [c|] eqn:Hc; simpl; [|discriminate].
  unfold cursor_table in Hc.
  apply (elem_of_list_to_map_2 (M := gmap string)) in Hc.
  repeat (apply elem_of_cons in Hc as [Hc|Hc]; [injection Hc as _ ->; discriminate|]).
  apply elem_of_nil in Hc. destruct Hc.
Qed.

(** X11. With an image loaded, the cursor shown at a point tells what a
    press there starts: the crosshair exactly for a new rectangle, and
    otherwise the cursor [_handle_cursor] gives for the session's mode (the
    move cursor [fleur] for a move, a resize cursor for a handle). *)
Theorem cursor_announces_gesture (a : App) (x y : Z) :
  pil_image a <> None ->
  exists mode,
    _drag_mode (_on_mouse_down a x y) = Some mode /\
    _on_mouse_move a x y
    = (if String.eqb mode "new" then "crosshair" else _handle_cursor mode) /\
    (_on_mouse_move a x y = "crosshair" <-> mode = "new").
Proof.
  intros Himg. unfold _on_mouse_down, _on_mouse_move.
  destruct (pil_image a); [|congruence].
  destruct (sel_box a) as [b|] eqn:Hb.
  - rewrite (sel_box_has_selection a b Hb). simpl negb. cbv iota.
    destruct (_hit_handle a x y) as [h|] eqn:Hh.
    + exists h. split; [reflexivity|].
      pose proof (hit_handle_name a x y h Hh) as Hname.
      assert (Hnew : String.eqb h "new" = false).
      { simpl in Hname.
        repeat (destruct Hname as [<-|Hname]; [reflexivity|]). destruct Hname. }
      rewrite Hnew. split; [reflexivity|]. split.
      * intros H. exfalso. exact (handle_cursor_not_crosshair h H).
      * intros ->. discriminate.
    + destruct (_inside_selection a x y).
      * exists "move". split; [reflexivity|]. split; [reflexivity|].
        split; discriminate.
      * exists "new". split; [reflexivity|].
        split; [reflexivity|split; intros _; reflexivity].
  - destruct (no_selection_no_hit_no_inside a x y Hb) as [Hh Hin].
    rewrite Hh, Hin, (sel_box_none a Hb). simpl.
    exists "new". split; [reflexivity|].
    split; [reflexivity|split; intros _; reflexivity].
Qed.

Lemma cursor_announces_gesture_witness :
  _on_mouse_move selected 300 200 = "size_we" /\
  _on_mouse_move selected 150 160 = "fleur" /\
  _on_mouse_move selected 400 350 = "crosshair" /\
  exists mode,
    _drag_mode (_on_mouse_down selected 300 200) = Some mode /\
    _on_mouse_move selected 300 200
    = (if String.eqb mode "new" then "crosshair" else _handle_cursor mode) /\
    (_on_mouse_move selected 300 200 = "crosshair" <-> mode = "new").
Proof.
  split; [vm_compute; reflexivity|]. split; [vm_compute; reflexivity|].
  split; [vm_compute; reflexivity|].
  apply (cursor_announces_gesture selected 300 200). discriminate.
Defined.

(** ** The image on the canvas *)

(** A canvas that reports no size yet is taken as 800x600. *)
Example fit_on_unmapped_canvas :
  fit (1000, 800) (0, 0) = fit (1000, 800) (800, 600) /\
  Qeq (fst (fst (fit (400, 1000) (0, 0)))) (3 # 5) /\
  snd (fst (fit (400, 1000) (0, 0))) = 280 /\
  snd (fit (400, 1000) (0, 0)) = 0.
Proof. repeat split; vm_compute; reflexivity. Qed.

(** X13. A resize of the canvas refits the image and nothing more: the
    selection keeps its canvas coordinates, and the session, the image, the
    counters and the settings are as before. *)
Theorem canvas_resize_keeps_selection (a : App) (cv : Z * Z) :
  let r := _on_canvas_resize a cv in
  exists s ox oy, r = set_view (set_canvas a cv) s ox oy.
Proof.
  intros r. subst r. unfold _on_canvas_resize, _render_image.
  destruct (pil_image (set_canvas a cv)) as [[iw ih]|].
  - destruct ((iw =? 0) || (ih =? 0)).
    + exists (scale a), (offset_x a), (offset_y a). reflexivity.
    + destruct (fit (iw, ih) (canvas (set_canvas a cv))) as [[s ox] oy].
      exists s, ox, oy. reflexivity.
  - exists (scale a), (offset_x a), (offset_y a). reflexivity.
Qed.

(** The selection is not rescaled with the image: after a resize the same
    canvas rectangle exports another region. *)
Example resize_moves_the_crop :
  snd (_save_crop fragment_formatter selected fs_ok)
  = Saved 1 "photo_cr1.jpg" (200, 200, 600, 600) /\
  sel_box (_on_canvas_resize selected (1000, 800)) = Some (100, 100, 300, 300) /\
  snd (_save_crop fragment_formatter (_on_canvas_resize selected (1000, 800)) fs_ok)
  = Saved 1 "photo_cr1.jpg" (100, 100, 300, 300).
Proof. repeat split; vm_compute; reflexivity. Qed.

(** ** Exports *)

Lemma render_image_is_set_view (a : App) :
  exists s ox oy, _render_image a = set_view a s ox oy.
Proof.
  unfold _render_image.
  destruct (pil_image a) as [[iw ih]|].
  - destruct ((iw =? 0) || (ih =? 0)).
    + exists (scale a), (offset_x a), (offset_y a). destruct a. reflexivity.
    + destruct (fit (iw, ih) (canvas a)) as [[s ox] oy].
      exists s, ox, oy. reflexivity.
  - exists (scale a), (offset_x a), (offset_y a). destruct a. reflexivity.
Qed.

(** The clamp keeps the four edges within the image. *)
Lemma crop_rect_bounds (a : App) (w h : Z) (b : box) (lft top rgt bot : Z) :
  crop_rect a (w, h) b = (lft, top, rgt, bot) ->
  0 <= lft /\ rgt <= w /\ 0 <= top /\ bot <= h.
Proof.
  unfold crop_rect.
  destruct (_norm_sel b) as [[[lx ty] rx] by_].
  destruct (_canvas_to_image a (inject_Z lx) (inject_Z ty)) as [ix0 iy0].
  destruct (_canvas_to_image a (inject_Z rx) (inject_Z by_)) as [ix1 iy1].
  simpl fst. simpl snd. intros [= <- <- <- <-]. lia.
Qed.

(** X14. The rectangle of every export lies within the image and is not
    empty: [0 <= left < right <= width] and [0 <= top < bottom <= height]. *)
Theorem export_rect_within_image (fmt : Formatter) (a : App) (fs : FileSystem)
    (n : nat) (lft top rgt bot : Z) :
  exported (snd (_save_crop fmt a fs)) = Some (n, (lft, top, rgt, bot)) ->
  exists w h,
    pil_image a = Some (w, h) /\
    0 <= lft /\ lft < rgt /\ rgt <= w /\
    0 <= top /\ top < bot /\ bot <= h.
Proof.
  intros H.
  destruct (save_crop_exported_proper fmt a fs n lft top rgt bot H) as [Hw Hh].
  apply save_crop_exported in H.
  destruct H as (w & h & b & path & Himg & _ & _ & Hrect & _).
  exists w, h. split; [exact Himg|].
  symmetry in Hrect. apply crop_rect_bounds in Hrect. lia.
Qed.

Lemma export_rect_within_image_witness :
  exists w h,
    pil_image selected_outside = Some (w, h) /\
    0 <= 0 /\ 0 < 400 /\ 400 <= w /\ 0 <= 200 /\ 200 < 600 /\ 600 <= h.
Proof.
  apply (export_rect_within_image fragment_formatter selected_outside fs_ok
           1 0 200 400 600).
  vm_compute. reflexivity.
Defined.

(** X15. An export in overwrite mode replaces the image by the crop: the
    loaded image then has the size of the exported rectangle, positive and
    no larger than before; the path, the canvas and the settings are kept,
    the selection and the session are gone, the counter of the path stands
    at the number issued, and the scale is fitted anew, to the crop: it is
    the smaller of the two ratios of canvas side to crop side. *)
Theorem overwrite_replaces_image (fmt : Formatter) (a : App) (fs : FileSystem)
    (n : nat) (lft top rgt bot : Z) :
  snd (_save_crop fmt a fs) = Overwritten n (lft, top, rgt, bot) ->
  let a' := fst (_save_crop fmt a fs) in
  exists w h path,
    pil_image a = Some (w, h) /\ image_path a = Some path /\
    pil_image a' = Some (rgt - lft, bot - top) /\
    0 < rgt - lft <= w /\ 0 < bot - top <= h /\
    image_path a' = Some path /\
    sel_box a' = None /\ _drag_mode a' = None /\
    count a' path = n /\ n = S (count a path) /\
    config a' = config a /\ canvas a' = canvas a /\
    scale a'
    = Qmin (inject_Z (Py.or_else (fst (canvas a)) 800) / inject_Z (rgt - lft))
           (inject_Z (Py.or_else (snd (canvas a)) 600) / inject_Z (bot - top)).
Proof.
  intros Hout a'.
  assert (Hexp : exported (snd (_save_crop fmt a fs))
                 = Some (n, (lft, top, rgt, bot))) by (rewrite Hout; reflexivity).
  destruct (save_crop_exported_proper fmt a fs n lft top rgt bot Hexp)
    as [Hwd Hht].
  destruct (save_crop_exported fmt a fs n _ Hexp)
    as (w & h & b & path0 & Himg & _ & _ & Hrect & _).
  symmetry in Hrect. apply crop_rect_bounds in Hrect.
  subst a'. revert Hout. unfold count.
  save_crop_paths; try done. intros [= <- <- <- <- <-].
  match goal with H : image_path a = Some ?p |- _ => exists w, h, p end.
  unfold _render_image, _clear_selection, set_image, set_drag, set_sel,
    set_crop_counter.
  cbn [pil_image canvas].
  repeat match goal with
         | |- context [?u - ?v =? 0] =>
             replace (u - v =? 0) with false by (symmetry; apply Z.eqb_neq; lia)
         end.
  simpl orb. cbv iota. unfold fit, set_view. cbv zeta.
  cbn [image_path pil_image scale sel_box sel_x0 sel_y0 sel_x1 sel_y1
       _drag_mode crop_counter config canvas fst snd].
  rewrite lookup_insert_eq. cbn [default].
  repeat split; try lia; try congruence.
Qed.

Lemma overwrite_replaces_image_witness :
  let a := set_config selected {[ "overwrite" := "true" ]} in
  exists w h path,
    pil_image a = Some (w, h) /\ image_path a = Some path /\
    pil_image (fst (_save_crop fragment_formatter a fs_ok))
    = Some (600 - 200, 600 - 200) /\
    0 < 600 - 200 <= w /\ 0 < 600 - 200 <= h /\
    image_path (fst (_save_crop fragment_formatter a fs_ok)) = Some path /\
    sel_box (fst (_save_crop fragment_formatter a fs_ok)) = None /\
    _drag_mode (fst (_save_crop fragment_formatter a fs_ok)) = None /\
    count (fst (_save_crop fragment_formatter a fs_ok)) path = 1%nat /\
    1%nat = S (count a path) /\
    config (fst (_save_crop fragment_formatter a fs_ok)) = config a /\
    canvas (fst (_save_crop fragment_formatter a fs_ok)) = canvas a /\
    scale (fst (_save_crop fragment_formatter a fs_ok))
    = Qmin (inject_Z (Py.or_else (fst (canvas a)) 800) / inject_Z (600 - 200))
           (inject_Z (Py.or_else (snd (canvas a)) 600) / inject_Z (600 - 200)).
Proof.
  intros a.
  apply (overwrite_replaces_image fragment_formatter a fs_ok 1 200 200 600 600).
  vm_compute. reflexivity.
Defined.

(** The crop of [selected] is 400x400: on the 500x400 canvas it is shown
    at scale 1. *)
Example overwrite_refits_scale :
  Qeq (scale (fst (_save_crop fragment_formatter
                     (set_config selected {[ "overwrite" := "true" ]}) fs_ok)))
      1.
Proof. vm_compute. reflexivity. Qed.

(** What a saved file tells about the state the export started from. *)
Lemma save_crop_saved_inv (fmt : Formatter) (a : App) (fs : FileSystem)
    (n : nat) (name : string) (rect : box) :
  snd (_save_crop fmt a fs) = Saved n name rect ->
  exists w h b path lft top rgt bot,
    pil_image a = Some (w, h) /\ sel_box a = Some b /\ ~ (scale a == 0)%Q /\
    crop_rect a (w, h) b = (lft, top, rgt, bot) /\ rect = (lft, top, rgt, bot) /\
    lft < rgt /\ top < bot /\
    image_path a = Some path /\
    config a !! "overwrite" <> Some "true" /\
    n = (default 0 (crop_counter a !! path) + 1)%nat /\
    fst (_save_crop fmt a fs)
    = set_crop_counter a (<[path := n]> (crop_counter a)).
Proof.
  save_crop_paths; try done. intros [= <- <- <-].
  eexists _, _, _, _, _, _, _, _.
  repeat match goal with
         | |- _ /\ _ => split
         end; try reflexivity; try eassumption.
  - apply Qeq_bool_false. assumption.
  - match goal with
    | H : _ || _ = false |- _ =>
        apply orb_false_iff in H; rewrite !Z.leb_gt in H; apply H
    end.
  - match goal with
    | H : _ || _ = false |- _ =>
        apply orb_false_iff in H; rewrite !Z.leb_gt in H; apply H
    end.
  - intros Hov.
    match goal with
    | H : String.eqb _ "true" = false |- _ =>
        rewrite Hov in H; discriminate H
    end.
Qed.

(** X16. An export outside overwrite mode changes the counter of the active
    image and nothing else, so the next export of the same selection saves
    the same rectangle under the next number. *)
Theorem export_again_next_number (fmt : Formatter) (a : App) (fs fs' : FileSystem)
    (n : nat) (name : string) (rect : box) :
  snd (_save_crop fmt a fs) = Saved n name rect ->
  makedirs_ok fs' = true -> save_ok fs' = true ->
  let a' := fst (_save_crop fmt a fs) in
  (exists path,
     image_path a = Some path /\
     a' = set_crop_counter a (<[path := n]> (crop_counter a))) /\
  exists name', snd (_save_crop fmt a' fs') = Saved (S n) name' rect.
Proof.
  intros Hout Hmk Hsv a'. subst a'.
  destruct (save_crop_saved_inv fmt a fs n name rect Hout)
    as (w & h & b & path & lft & top & rgt & bot & Himg & Hb & Hs & Hrect
        & -> & Hw & Hh & Hpath & Hov & Hn & ->).
  split; [exists path; split; [exact Hpath|reflexivity]|].
  rewrite (save_crop_saved fmt _ fs' w h b lft top rgt bot path);
    try assumption.
  simpl. rewrite lookup_insert_eq. simpl. rewrite Nat.add_1_r.
  eexists. reflexivity.
Qed.

Lemma export_again_next_number_witness :
  let a' := fst (_save_crop fragment_formatter selected fs_ok) in
  (exists path,
     image_path selected = Some path /\
     a' = set_crop_counter selected (<[path := 1%nat]> (crop_counter selected))) /\
  exists name',
    snd (_save_crop fragment_formatter a' fs_ok) = Saved 2 name' (200, 200, 600, 600).
Proof.
  apply (export_again_next_number fragment_formatter selected fs_ok fs_ok
           1 "photo_cr1.jpg" (200, 200, 600, 600));
    [vm_compute; reflexivity|reflexivity|reflexivity].
Defined.

(** X17. When the output folder cannot be made, the export stops with the
    state as it was: no number is used.  When the write raises, the number
    is already taken: the counter of the image stands at the number the
    export would have had, and nothing else has changed. *)
Theorem export_failure_and_counter (fmt : Formatter) (a : App) (n : nat)
    (rect : box) (path : string) :
  exported (snd (_save_crop fmt a {| makedirs_ok := true; save_ok := true |}))
  = Some (n, rect) ->
  image_path a = Some path ->
  (forall sv,
      _save_crop fmt a {| makedirs_ok := false; save_ok := sv |}
      = (a, FolderCreateFailed)) /\
  _save_crop fmt a {| makedirs_ok := true; save_ok := false |}
  = (set_crop_counter a (<[path := n]> (crop_counter a)), Raised) /\
  n = S (count a path).
Proof.
  intros Hexp Hpath. unfold count. revert Hexp.
  unfold _save_crop. rewrite Hpath. simpl makedirs_ok. simpl save_ok. simpl negb.
  destruct (pil_image a) as [[w h]|]; [|discriminate].
  destruct (negb (_has_selection a)); [discriminate|].
  destruct (sel_box a) as [b|]; [|discriminate].
  destruct (Qeq_bool (scale a) 0); [discriminate|].
  destruct (crop_rect a (w, h) b) as [[[lft top] rgt] bot].
  destruct ((rgt <=? lft) || (bot <=? top)); [discriminate|].
  destruct (Py.splitext (Py.basename path)) as [base ext]. cbv iota.
  destruct (String.eqb _ "true"); simpl; intros [= <- <-];
    rewrite Nat.add_1_r; repeat split.
Qed.

Lemma export_failure_and_counter_witness :
  _save_crop fragment_formatter selected {| makedirs_ok := true; save_ok := false |}
  = (set_crop_counter selected
       (<["/pics/photo.jpg" := 1%nat]> (crop_counter selected)), Raised) /\
  _save_crop fragment_formatter selected {| makedirs_ok := false; save_ok := true |}
  = (selected, FolderCreateFailed).
Proof.
  destruct (export_failure_and_counter fragment_formatter selected 1
              (200, 200, 600, 600) "/pics/photo.jpg") as (Hmk & Hsv & _).
  - vm_compute. reflexivity.
  - reflexivity.
  - split; [exact Hsv|exact (Hmk true)].
Defined.

Lemma set_config_twice (a : App) (c c' : gmap string string) :
  set_config (set_config a c) c' = set_config a c'.
Proof. reflexivity. Qed.

Lemma set_config_same (a : App) : set_config a (config a) = a.
Proof. destruct a; reflexivity. Qed.

Lemma render_image_set_config (a : App) (c : gmap string string) :
  _render_image (set_config a c) = set_config (_render_image a) c.
Proof.
  unfold _render_image. change (pil_image (set_config a c)) with (pil_image a).
  destruct (pil_image a) as [[iw ih]|]; [|reflexivity].
  destruct ((iw =? 0) || (ih =? 0)); [reflexivity|].
  change (canvas (set_config a c)) with (canvas a).
  destruct (fit (iw, ih) (canvas a)) as [[s ox] oy]. reflexivity.
Qed.

Lemma save_crop_config (fmt : Formatter) (a : App) (fs : FileSystem) :
  config (fst (_save_crop fmt a fs)) = config a.
Proof.
  save_crop_paths; try reflexivity.
  match goal with
  | |- context [_render_image ?x] =>
      destruct (render_image_is_set_view x) as (sc & vx & vy & ->)
  end.
  reflexivity.
Qed.

(** The export reads two settings, the pattern and the overwrite flag: a
    configuration that agrees on the flag and gives the same stems gives
    the same export. *)
Lemma save_crop_reads_pattern_and_overwrite (fmt : Formatter) (a : App)
    (cfg : gmap string string) (fs : FileSystem) :
  cfg !! "overwrite" = config a !! "overwrite" ->
  (forall base n oext,
      out_stem fmt (default DEFAULT_PATTERN (cfg !! "pattern")) base n oext
      = out_stem fmt (default DEFAULT_PATTERN (config a !! "pattern")) base n oext) ->
  _save_crop fmt (set_config a cfg) fs
  = (set_config (fst (_save_crop fmt a fs)) cfg, snd (_save_crop fmt a fs)).
Proof.
  intros Hov Hstem. unfold _save_crop.
  change (pil_image (set_config a cfg)) with (pil_image a).
  change (_has_selection (set_config a cfg)) with (_has_selection a).
  change (sel_box (set_config a cfg)) with (sel_box a).
  change (scale (set_config a cfg)) with (scale a).
  change (image_path (set_config a cfg)) with (image_path a).
  change (crop_counter (set_config a cfg)) with (crop_counter a).
  change (config (set_config a cfg)) with cfg.
  rewrite Hov.
  destruct (pil_image a) as [[w h]|]; [|reflexivity].
  destruct (negb (_has_selection a)); [reflexivity|].
  destruct (sel_box a) as [b|]; [|reflexivity].
  destruct (Qeq_bool (scale a) 0); [reflexivity|].
  change (crop_rect (set_config a cfg) (w, h) b) with (crop_rect a (w, h) b).
  destruct (crop_rect a (w, h) b) as [[[lft top] rgt] bot].
  destruct ((rgt <=? lft) || (bot <=? top)); [reflexivity|].
  destruct (image_path a) as [path|]; [|reflexivity].
  destruct (Py.splitext (Py.basename path)) as [base ext].
  destruct (negb (makedirs_ok fs)); [reflexivity|].
  destruct (negb (save_ok fs)); [reflexivity|].
  rewrite Hstem.
  destruct (String.eqb _ "true"); cbn [fst snd]; [|reflexivity].
  f_equal.
  match goal with
  | |- _render_image ?x = set_config (_render_image ?y) cfg =>
      change x with (set_config y cfg)
  end.
  apply render_image_set_config.
Qed.

(** X18. A pattern that cannot be formatted acts as the default pattern:
    whatever the file system answers, the export ends with the outcome and
    in the state it would have with ["{base}_cr{n}"] in its place, but for
    the pattern itself, which stays in the settings. *)
Theorem unformattable_pattern_acts_as_default (fmt : Formatter) (a : App)
    (fs : FileSystem) :
  faithful fmt ->
  (forall base n ext,
      fmt (default DEFAULT_PATTERN (config a !! "pattern")) base n ext = None) ->
  let a_default := set_config a (<["pattern" := DEFAULT_PATTERN]> (config a)) in
  snd (_save_crop fmt a fs) = snd (_save_crop fmt a_default fs) /\
  fst (_save_crop fmt a fs)
  = set_config (fst (_save_crop fmt a_default fs)) (config a).
Proof.
  intros Hf Hraise a_default. subst a_default.
  set (cfg := <["pattern" := DEFAULT_PATTERN]> (config a)).
  assert (Hpat : cfg !! "pattern" = Some DEFAULT_PATTERN)
    by (subst cfg; apply lookup_insert_eq).
  assert (Hov : cfg !! "overwrite" = config a !! "overwrite")
    by (subst cfg; apply lookup_insert_ne; discriminate).
  rewrite (save_crop_reads_pattern_and_overwrite fmt a cfg fs Hov).
  - cbn [fst snd]. split; [reflexivity|].
    rewrite set_config_twice, <- (save_crop_config fmt a fs).
    symmetry. apply set_config_same.
  - intros base n oext. rewrite Hpat.
    change (default DEFAULT_PATTERN (Some DEFAULT_PATTERN)) with DEFAULT_PATTERN.
    rewrite (out_stem_fallback fmt _ base n oext (Hraise _ _ _)).
    unfold out_stem. rewrite (default_pattern_formats fmt base n oext Hf).
    reflexivity.
Qed.

Lemma unformattable_pattern_acts_as_default_witness :
  let a_default :=
    set_config selected_bogus
      (<["pattern" := DEFAULT_PATTERN]> (config selected_bogus)) in
  snd (_save_crop fragment_formatter selected_bogus fs_ok)
  = snd (_save_crop fragment_formatter a_default fs_ok) /\
  fst (_save_crop fragment_formatter selected_bogus fs_ok)
  = set_config (fst (_save_crop fragment_formatter a_default fs_ok))
               (config selected_bogus).
Proof.
  apply (unformattable_pattern_acts_as_default fragment_formatter selected_bogus fs_ok).
  - exact fragment_formatter_faithful.
  - intros base n ext. reflexivity.
Defined.

(** ** Settings *)

Lemma format_scan_kind (kw1 kw2 : string -> option string) :
  (forall name, kw1 name = None <-> kw2 name = None) ->
  forall (k : nat) (s : string), (String.length s <= k)%nat ->
  forall (field : option string) (out1 out2 : string),
    same_kind (format_scan kw1 s field out1) (format_scan kw2 s field out2).
Proof.
  intros Hkw. induction k as [|k IH]; intros s Hlen field out1 out2.
  - destruct s; [|simpl in Hlen; lia]. destruct field; exact I.
  - destruct s as [|c t]; [destruct field; exact I|].
    simpl in Hlen. destruct field as [name|]; simpl.
    + destruct (Ascii.eqb c "}").
      * destruct (kw1 name) as [v1|] eqn:H1, (kw2 name) as [v2|] eqn:H2.
        -- apply IH. lia.
        -- apply Hkw in H2. congruence.
        -- apply Hkw in H1. congruence.
        -- exact I.
      * destruct (field_special c); [exact I|]. apply IH. lia.
    + destruct (Ascii.eqb c "{").
      * destruct t as [|c' t']; [exact I|]. simpl in Hlen.
        destruct (Ascii.eqb c' "{"); apply IH; simpl; lia.
      * destruct (Ascii.eqb c "}").
        -- destruct t as [|c' t']; [exact I|]. simpl in Hlen.
           destruct (Ascii.eqb c' "}"); [apply IH; lia|exact I].
        -- apply IH. lia.
Qed.

Lemma keyword_domain (base base' : string) (n n' : nat) (ext ext' : string)
    (name : string) :
  keyword base n ext name = None <-> keyword base' n' ext' name = None.
Proof.
  unfold keyword.
  destruct (String.eqb name "base"); [split; discriminate|].
  destruct (String.eqb name "n"); [split; discriminate|].
  destruct (String.eqb name "ext"); [split; discriminate|].
  split; reflexivity.
Qed.

(** Within the fragment, whether a pattern formats does not depend on the
    values substituted. *)
Lemma format_fragment_kind (pattern base base' : string) (n n' : nat)
    (ext ext' : string) :
  same_kind (format_fragment pattern base n ext)
            (format_fragment pattern base' n' ext').
Proof.
  unfold format_fragment.
  apply (format_scan_kind _ _ (keyword_domain base base' n n' ext ext')
                          (String.length pattern)).
  reflexivity.
Qed.

(** X19. The settings dialog stores what it has checked, and only that.
    With a pattern that strips to nothing, or that does not format the
    sample values, the application is left as it was.  With any other
    pattern the five settings are stored and nothing else changes: the
    pattern is the stripped entry, the subfolder is the stripped entry or
    [cropped] when that is empty, so never empty, the custom folder is the
    stripped entry, the folder mode is the choice made, and the overwrite
    flag is the string ["true"] exactly when the box is ticked. *)
Theorem on_save_checks_settings (fmt : Formatter) (strip : string -> string)
    (a : App) (form : SettingsForm) :
  let a' := on_save fmt strip a form in
  let pat := strip (pattern_var form) in
  (pat = EmptyString \/ fmt pat "x" 1%nat ".jpg" = None -> a' = a) /\
  (pat <> EmptyString -> fmt pat "x" 1%nat ".jpg" <> None ->
   a' = set_config a (config a') /\
   config a' !! "pattern" = Some pat /\
   (exists sub, config a' !! "subfolder" = Some sub /\ sub <> EmptyString /\
      (strip (subfolder_var form) <> EmptyString ->
       sub = strip (subfolder_var form)) /\
      (strip (subfolder_var form) = EmptyString -> sub = DEFAULT_SUBFOLDER)) /\
   config a' !! "custom_folder" = Some (strip (custom_folder_var form)) /\
   config a' !! "folder_mode" = Some (folder_mode_var form) /\
   config a' !! "overwrite"
   = Some (if overwrite_var form then "true" else "false") /\
   (forall key, ~ In key ["overwrite"; "pattern"; "custom_folder";
                          "subfolder"; "folder_mode"] ->
                config a' !! key = config a !! key)).
Proof.
  intros a' pat. subst a' pat. unfold on_save.
  destruct (String.eqb (strip (pattern_var form)) EmptyString) eqn:Hempty.
  { apply String.eqb_eq in Hempty. split; [reflexivity|]. intros H. contradiction. }
  apply String.eqb_neq in Hempty.
  destruct (fmt (strip (pattern_var form)) "x" 1%nat ".jpg") as [s|] eqn:Hfmt.
  2:{ split; [reflexivity|]. intros _ H. contradiction. }
  split; [intros [H|H]; [congruence|discriminate]|].
  intros _ _. simpl config.
  split; [reflexivity|].
  split; [rewrite lookup_insert_ne by discriminate; apply lookup_insert_eq|].
  split.
  { eexists. split.
    - rewrite !lookup_insert_ne by discriminate. apply lookup_insert_eq.
    - unfold str_or, DEFAULT_SUBFOLDER.
      destruct (String.eqb (strip (subfolder_var form)) EmptyString) eqn:Hsub.
      + apply String.eqb_eq in Hsub.
        split; [discriminate|]. split; [intros H; contradiction|reflexivity].
      + apply String.eqb_neq in Hsub.
        split; [exact Hsub|]. split; [reflexivity|intros H; contradiction]. }
  split; [rewrite !lookup_insert_ne by discriminate; apply lookup_insert_eq|].
  split; [rewrite !lookup_insert_ne by discriminate; apply lookup_insert_eq|].
  split; [apply lookup_insert_eq|].
  intros key Hkey. simpl in Hkey.
  rewrite !lookup_insert_ne; [reflexivity| | | | |]; intros <-; tauto.
Qed.

Lemma on_save_checks_settings_witness :
  let form := {| folder_mode_var := "same"; subfolder_var := "  ";
                 custom_folder_var := " /out "; pattern_var := " {base}-{n} ";
                 overwrite_var := true |} in
  let a' := on_save fragment_formatter ascii_strip opened form in
  config a' !! "pattern" = Some (ascii_strip " {base}-{n} ") /\
  config a' !! "custom_folder" = Some (ascii_strip " /out ") /\
  config a' !! "folder_mode" = Some "same" /\
  config a' !! "overwrite" = Some "true" /\
  config a' !! "last_file" = config opened !! "last_file".
Proof.
  intros form a'.
  destruct (on_save_checks_settings fragment_formatter ascii_strip opened form)
    as [_ Hstored].
  destruct Hstored as (_ & Hpat & _ & Hcustom & Hmode & Hover & Hrest).
  - vm_compute. discriminate.
  - vm_compute. discriminate.
  - split; [exact Hpat|]. split; [exact Hcustom|]. split; [exact Hmode|].
    split; [exact Hover|]. apply Hrest. simpl. intuition discriminate.
Defined.

(** A pattern with an unknown keyword is refused, and blanks around the
    entries are dropped. *)
Example on_save_scenarios :
  on_save fragment_formatter ascii_strip opened
    {| folder_mode_var := "same"; subfolder_var := "out";
       custom_folder_var := EmptyString;
       pattern_var := "{bogus}"; overwrite_var := true |} = opened /\
  config (on_save fragment_formatter ascii_strip opened
            {| folder_mode_var := "same"; subfolder_var := "  ";
               custom_folder_var := EmptyString;
               pattern_var := " {base}-{n} "; overwrite_var := false |})
  = {[ "folder_mode" := "same"; "subfolder" := "cropped";
       "custom_folder" := EmptyString; "pattern" := "{base}-{n}";
       "overwrite" := "false" ]}.
Proof. split; vm_compute; reflexivity. Qed.

(** X20. A pattern of the modelled fragment that the settings dialog has
    accepted never takes the fallback at export: it formats for every base
    name, crop number and extension. *)
Theorem accepted_pattern_always_formats (fmt : Formatter) (pat : string) :
  faithful fmt ->
  format_fragment pat "x" 1 ".jpg" <> FormatUnmodelled ->
  fmt pat "x" 1%nat ".jpg" <> None ->
  forall base n ext,
    exists stem,
      format_fragment pat base n ext = Formatted stem /\
      fmt pat base n ext = Some stem /\
      out_stem fmt pat base n ext = stem.
Proof.
  intros Hf Hfrag Hok base n ext.
  pose proof (Hf pat "x" 1%nat ".jpg") as Hsample.
  pose proof (Hf pat base n ext) as Hhere.
  pose proof (format_fragment_kind pat "x" base 1 n ".jpg" ext) as Hkind.
  destruct (format_fragment pat "x" 1 ".jpg") as [s0| |]; [|congruence|congruence].
  destruct (format_fragment pat base n ext) as [stem| |];
    try (destruct Hkind).
  exists stem. split; [reflexivity|]. split; [exact Hhere|].
  unfold out_stem. rewrite Hhere. reflexivity.
Qed.

Lemma accepted_pattern_always_formats_witness :
  exists stem,
    format_fragment "{base}-{n}" "photo" 12 ".png" = Formatted stem /\
    fragment_formatter "{base}-{n}" "photo" 12%nat ".png" = Some stem /\
    out_stem fragment_formatter "{base}-{n}" "photo" 12%nat ".png" = stem.
Proof.
  apply (accepted_pattern_always_formats fragment_formatter "{base}-{n}");
    [exact fragment_formatter_faithful|discriminate|discriminate].
Defined.

(** ** The output folder *)

(** X21. Where crops go: to the image's own folder in mode [same], and in
    mode [custom] when the custom folder is missing or strips to nothing; to
    the custom folder when it does not; in every other mode, also a missing
    or unknown one, to a subfolder of the image's folder, named [cropped]
    when the subfolder setting is missing or strips to nothing. *)
Theorem resolve_out_folder_cases (strip : string -> string)
    (cfg : gmap string string) (image_path : string) :
  strip DEFAULT_SUBFOLDER = DEFAULT_SUBFOLDER ->
  strip EmptyString = EmptyString ->
  let out := _resolve_out_folder strip cfg image_path in
  let src := OsPath.dirname image_path in
  (cfg !! "folder_mode" = Some "same" -> out = src) /\
  (cfg !! "folder_mode" = Some "custom" ->
   (strip (default EmptyString (cfg !! "custom_folder")) = EmptyString ->
    out = src) /\
   (cfg !! "custom_folder" = None -> out = src) /\
   (strip (default EmptyString (cfg !! "custom_folder")) <> EmptyString ->
    out = strip (default EmptyString (cfg !! "custom_folder")))) /\
  (cfg !! "folder_mode" <> Some "same" -> cfg !! "folder_mode" <> Some "custom" ->
   (cfg !! "subfolder" = None -> out = OsPath.join src "cropped") /\
   (forall sub, cfg !! "subfolder" = Some sub ->
      out = OsPath.join src (if String.eqb (strip sub) EmptyString
                             then "cropped" else strip sub))).
Proof.
  intros Hdef Hnil out src. subst out src. unfold _resolve_out_folder.
  split; [intros ->; reflexivity|]. split.
  - intros ->. simpl.
    split; [intros ->; reflexivity|]. split.
    + intros ->. simpl. rewrite Hnil. reflexivity.
    + intros H. apply String.eqb_neq in H. rewrite H. reflexivity.
  - intros Hsame Hcustom.
    assert (H1 : String.eqb (default DEFAULT_FOLDER_MODE (cfg !! "folder_mode"))
                            "same" = false).
    { apply String.eqb_neq. destruct (cfg !! "folder_mode"); simpl;
        [congruence|discriminate]. }
    assert (H2 : String.eqb (default DEFAULT_FOLDER_MODE (cfg !! "folder_mode"))
                            "custom" = false).
    { apply String.eqb_neq. destruct (cfg !! "folder_mode"); simpl;
        [congruence|discriminate]. }
    rewrite H1, H2. split.
    + intros ->. simpl. rewrite Hdef. reflexivity.
    + intros sub ->. reflexivity.
Qed.

Lemma resolve_out_folder_cases_witness :
  _resolve_out_folder ascii_strip ∅ "/pics/photo.jpg"
  = OsPath.join (OsPath.dirname "/pics/photo.jpg") "cropped" /\
  _resolve_out_folder ascii_strip {[ "folder_mode" := "same" ]} "/pics/photo.jpg"
  = OsPath.dirname "/pics/photo.jpg" /\
  _resolve_out_folder ascii_strip
    {[ "folder_mode" := "custom"; "custom_folder" := "   " ]} "/pics/photo.jpg"
  = OsPath.dirname "/pics/photo.jpg".
Proof.
  destruct (resolve_out_folder_cases ascii_strip ∅ "/pics/photo.jpg"
              eq_refl eq_refl) as (_ & _ & Hsub).
  destruct (resolve_out_folder_cases ascii_strip {[ "folder_mode" := "same" ]}
              "/pics/photo.jpg" eq_refl eq_refl) as (Hsame & _).
  destruct (resolve_out_folder_cases ascii_strip
              {[ "folder_mode" := "custom"; "custom_folder" := "   " ]}
              "/pics/photo.jpg" eq_refl eq_refl) as (_ & Hcustom & _).
  split; [|split].
  - refine (proj1 (Hsub _ _) _); vm_compute; congruence.
  - refine (Hsame _). vm_compute. reflexivity.
  - refine (proj1 (Hcustom _) _); vm_compute; reflexivity.
Defined.

(** ** The extension of a loaded image *)

Lemma string_app_cons (c : ascii) (s t : string) : String c s ++ t = String c (s ++ t).
Proof. reflexivity. Qed.

Lemma string_app_nil_l (s : string) : EmptyString ++ s = s.
Proof. reflexivity. Qed.

Lemma string_length_app (s t : string) :
  String.length (s ++ t) = (String.length s + String.length t)%nat.
Proof.
  induction s as [|c s IH]; [reflexivity|].
  rewrite string_app_cons. simpl. rewrite IH. reflexivity.
Qed.

Lemma drop_app_length (pre s : string) :
  Py.drop (String.length pre) (pre ++ s) = s.
Proof.
  induction pre as [|c pre IH]; [destruct s; reflexivity|].
  rewrite string_app_cons. simpl. exact IH.
Qed.

Lemma take_app_length (pre s : string) :
  Py.take (String.length pre) (pre ++ s) = pre.
Proof.
  induction pre as [|c pre IH]; [destruct s; reflexivity|].
  rewrite string_app_cons. simpl. rewrite IH. reflexivity.
Qed.

Lemma contains_app (c : ascii) (s t : string) :
  Py.contains c (s ++ t) = Py.contains c s || Py.contains c t.
Proof.
  induction s as [|a s IH]; [reflexivity|].
  rewrite string_app_cons. simpl. rewrite IH. apply orb_assoc.
Qed.

Lemma rfind_from_absent (c : ascii) (s : string) :
  Py.contains c s = false -> forall i last, Py.rfind_from c s i last = last.
Proof.
  induction s as [|a s IH]; intros H i last; [reflexivity|].
  simpl in *. apply orb_false_iff in H as [Ha Hs].
  rewrite Ha. apply IH, Hs.
Qed.

Lemma rfind_from_last (c : ascii) (pre post : string) :
  Py.contains c post = false ->
  forall i last,
    Py.rfind_from c (pre ++ String c post) i last
    = i + Z.of_nat (String.length pre).
Proof.
  intros Hpost. induction pre as [|a pre IH]; intros i last.
  - rewrite string_app_nil_l. simpl. rewrite Ascii.eqb_refl.
    rewrite (rfind_from_absent c post Hpost). lia.
  - rewrite string_app_cons. simpl Py.rfind_from. rewrite IH.
    simpl String.length. lia.
Qed.

Lemma rfind_from_app_absent (c : ascii) (s t : string) :
  Py.contains c t = false ->
  forall i last, Py.rfind_from c (s ++ t) i last = Py.rfind_from c s i last.
Proof.
  intros Ht. induction s as [|a s IH]; intros i last.
  - rewrite string_app_nil_l. simpl. apply rfind_from_absent, Ht.
  - rewrite string_app_cons. simpl. apply IH.
Qed.

Lemma rfind_from_bound (c : ascii) (s : string) :
  forall i last, last < i ->
    Py.rfind_from c s i last < i + Z.of_nat (String.length s).
Proof.
  induction s as [|a s IH]; intros i last Hlt; [simpl; lia|].
  simpl Py.rfind_from.
  assert (H : (if Ascii.eqb a c then i else last) < i + 1)
    by (destruct (Ascii.eqb a c); lia).
  specialize (IH (i + 1) _ H). simpl String.length. lia.
Qed.

Lemma split_last (c : ascii) (s : string) :
  Py.contains c s = true ->
  exists pre post, s = pre ++ String c post /\ Py.contains c post = false.
Proof.
  induction s as [|a s IH]; [discriminate|]. simpl. intros H.
  destruct (Py.contains c s) eqn:Hs.
  - destruct (IH eq_refl) as (pre & post & -> & Hpost).
    exists (String a pre), post. split; [reflexivity|exact Hpost].
  - rewrite orb_false_r in H. apply Ascii.eqb_eq in H as ->.
    exists EmptyString, s. split; [reflexivity|exact Hs].
Qed.

(** [_save_crop] splits the base name, [_load_image] the whole path: the
    extension is the same. *)
Lemma splitext_basename (p : string) :
  snd (Py.splitext (Py.basename p)) = snd (Py.splitext p).
Proof.
  destruct (Py.contains "/" p) eqn:Hsep.
  2:{ unfold Py.basename, Py.rfind.
      rewrite (rfind_from_absent "/" p Hsep). reflexivity. }
  destruct (split_last "/" p Hsep) as (pre & q & -> & Hq).
  assert (Hbase : Py.basename (pre ++ String "/" q) = q).
  { unfold Py.basename, Py.rfind. rewrite (rfind_from_last "/" pre q Hq).
    replace (Z.to_nat (0 + Z.of_nat (String.length pre) + 1))
      with (String.length (pre ++ "/")) by (rewrite string_length_app; simpl; lia).
    replace (pre ++ String "/" q) with ((pre ++ "/") ++ q)
      by (rewrite append_assoc; reflexivity).
    apply drop_app_length. }
  rewrite Hbase. unfold Py.splitext, Py.rfind.
  rewrite (rfind_from_last "/" pre q Hq), (rfind_from_absent "/" q Hq).
  destruct (Py.contains "." q) eqn:Hdot.
  - destruct (split_last "." q Hdot) as (q1 & q2 & -> & Hq2).
    rewrite (rfind_from_last "." q1 q2 Hq2).
    replace (pre ++ String "/" (q1 ++ String "." q2))
      with ((pre ++ String "/" q1) ++ String "." q2)
      by (rewrite append_assoc; reflexivity).
    rewrite (rfind_from_last "." (pre ++ String "/" q1) q2 Hq2).
    rewrite string_length_app. simpl String.length.
    replace (-1 <? 0 + Z.of_nat (String.length q1)) with true
      by (symmetry; apply Z.ltb_lt; lia).
    replace (0 + Z.of_nat (String.length pre)
             <? 0 + Z.of_nat (String.length pre + S (String.length q1)))
      with true by (symmetry; apply Z.ltb_lt; lia).
    replace (Z.to_nat (0 + Z.of_nat (String.length q1) - (-1 + 1)))
      with (String.length q1) by lia.
    replace (Z.to_nat (-1 + 1)) with O by reflexivity.
    replace (Z.to_nat (0 + Z.of_nat (String.length q1)))
      with (String.length q1) by lia.
    replace (Z.to_nat (0 + Z.of_nat (String.length pre + S (String.length q1))
                       - (0 + Z.of_nat (String.length pre) + 1)))
      with (String.length q1) by lia.
    replace (Z.to_nat (0 + Z.of_nat (String.length pre) + 1))
      with (String.length (pre ++ "/")) by (rewrite string_length_app; simpl; lia).
    replace (Z.to_nat (0 + Z.of_nat (String.length pre + S (String.length q1))))
      with (String.length (pre ++ String "/" q1))
      by (rewrite string_length_app; simpl; lia).
    replace ((pre ++ String "/" q1) ++ String "." q2)
      with ((pre ++ "/") ++ (q1 ++ String "." q2)) at 1
      by (rewrite !append_assoc; reflexivity).
    rewrite (drop_app_length (pre ++ "/")), (drop_app_length q1).
    rewrite (drop_app_length (pre ++ String "/" q1)).
    replace (Py.drop 0 (q1 ++ String "." q2)) with (q1 ++ String "." q2)
      by (destruct q1; reflexivity).
    rewrite !take_app_length.
    destruct (Py.has_non_dot q1); reflexivity.
  - rewrite (rfind_from_absent "." q Hdot).
    replace (-1 <? -1) with false by reflexivity.
    rewrite (rfind_from_app_absent "." pre (String "/" q))
      by (simpl; exact Hdot).
    pose proof (rfind_from_bound "." pre 0 (-1) ltac:(lia)) as Hlt.
    replace (0 + Z.of_nat (String.length pre) <? Py.rfind_from "." pre 0 (-1))
      with false by (symmetry; apply Z.ltb_ge; lia).
    reflexivity.
Qed.

Lemma render_image_image_path (a : App) :
  image_path (_render_image a) = image_path a.
Proof. unfold _render_image. repeat case_match; reflexivity. Qed.

Lemma mouse_down_image_path (a : App) (x y : Z) :
  image_path (_on_mouse_down a x y) = image_path a.
Proof. unfold _on_mouse_down. repeat case_match; reflexivity. Qed.

Lemma mouse_drag_image_path (a : App) (x y : Z) :
  image_path (_on_mouse_drag a x y) = image_path a.
Proof. unfold _on_mouse_drag. repeat case_match; reflexivity. Qed.

Lemma mouse_up_image_path (a : App) :
  image_path (_on_mouse_up a) = image_path a.
Proof. unfold _on_mouse_up. repeat case_match; reflexivity. Qed.

Lemma save_crop_image_path (fmt : Formatter) (a : App) (fs : FileSystem) :
  image_path (fst (_save_crop fmt a fs)) = image_path a.
Proof.
  save_crop_paths; rewrite ?render_image_image_path; simpl; congruence.
Qed.

Lemma load_image_supported (a : App) (path : string) (file : option (Z * Z)) :
  supported_source a -> supported_source (_load_image a path file).
Proof.
  intros Ha. unfold _load_image. destruct file as [size|]; [|exact Ha].
  destruct (Py.mem (Py.lower (snd (Py.splitext path))) SUPPORTED_EXTS) eqn:Hext;
    [|exact Ha].
  simpl negb. cbv iota. intros p. rewrite render_image_image_path. simpl.
  intros [= <-]. exact Hext.
Qed.

Lemma step_supported (fmt : Formatter) (a : App) (e : Event) :
  supported_source a -> supported_source (fst (step fmt a e)).
Proof.
  intros Ha. destruct e as [path file|x y|x y| | |fs|cv|cfg]; unfold step.
  - apply load_image_supported, Ha.
  - intros p. cbn [fst]. rewrite mouse_down_image_path. apply Ha.
  - intros p. cbn [fst]. rewrite mouse_drag_image_path. apply Ha.
  - intros p. cbn [fst]. rewrite mouse_up_image_path. apply Ha.
  - exact Ha.
  - pose proof (save_crop_image_path fmt a fs) as H.
    destruct (_save_crop fmt a fs) as [a' o]. intros p. simpl in *.
    rewrite H. apply Ha.
  - intros p. cbn [fst]. unfold _on_canvas_resize.
    rewrite render_image_image_path. apply Ha.
  - exact Ha.
Qed.

Lemma run_supported (fmt : Formatter) (evs : list Event) :
  forall a, supported_source a -> supported_source (fst (run fmt a evs)).
Proof.
  induction evs as [|e rest IH]; intros a Ha; [exact Ha|].
  rewrite run_cons. simpl fst. apply IH, step_supported, Ha.
Qed.

Lemma mem_supported (x : string) :
  Py.mem x SUPPORTED_EXTS = true ->
  x = ".jpg" \/ x = ".jpeg" \/ x = ".png" \/ x = ".bmp" \/ x = ".gif"
  \/ x = ".tiff" \/ x = ".webp".
Proof.
  unfold Py.mem, SUPPORTED_EXTS. simpl. rewrite !orb_true_iff.
  rewrite !String.eqb_eq. intros H. intuition discriminate.
Qed.

(** X22. Whatever happened since start-up, the image being edited carries
    one of the seven supported extensions, and that is the extension the
    export reads from the base name. So the program never takes the default
    for a missing extension, and the output extension is the source's own
    unless the source is a GIF or WebP file, which become [.png]. *)
Theorem reachable_source_extension (fmt : Formatter) (cfg : gmap string string)
    (cv : Z * Z) (evs : list Event) (path : string) :
  let a := fst (run fmt (init cfg cv) evs) in
  image_path a = Some path ->
  let ext := snd (Py.splitext (Py.basename path)) in
  ext <> EmptyString /\
  Py.mem (Py.lower ext) SUPPORTED_EXTS = true /\
  output_ext ext
  = (if Py.mem (Py.lower ext) [".gif"; ".webp"] then ".png" else ext).
Proof.
  intros a Hpath ext.
  assert (Hinit : supported_source (init cfg cv)) by (intros p; discriminate).
  pose proof (run_supported fmt evs _ Hinit path Hpath) as Hext.
  rewrite <- splitext_basename in Hext. fold ext in Hext.
  assert (Hne : ext <> EmptyString) by (intros E; rewrite E in Hext; discriminate).
  split; [exact Hne|]. split; [exact Hext|].
  unfold output_ext. apply String.eqb_neq in Hne. rewrite Hne.
  destruct (mem_supported _ Hext) as [E|[E|[E|[E|[E|[E|E]]]]]];
    rewrite E; reflexivity.
Qed.

Lemma reachable_source_extension_witness :
  let evs := [EvOpen "/pics/anim.GIF" (Some (320, 200));
              EvOpen "/pics/notes.txt" (Some (10, 10))] in
  let a := fst (run fragment_formatter (init default_config (800, 600)) evs) in
  image_path a = Some "/pics/anim.GIF" /\
  snd (Py.splitext (Py.basename "/pics/anim.GIF")) <> EmptyString /\
  output_ext (snd (Py.splitext (Py.basename "/pics/anim.GIF"))) = ".png".
Proof.
  intros evs a.
  assert (Hpath : image_path a = Some "/pics/anim.GIF") by (vm_compute; reflexivity).
  split; [exact Hpath|].
  destruct (reachable_source_extension fragment_formatter default_config
              (800, 600) evs "/pics/anim.GIF" Hpath) as (Hne & _ & Hout).
  split; [exact Hne|]. rewrite Hout. vm_compute. reflexivity.
Defined.

(** ** Invariants of the event loop *)

Lemma settled_same (a a' : App) :
  sel_box a' = sel_box a -> _drag_mode a' = _drag_mode a ->
  pil_image a' = pil_image a -> settled a -> settled a'.
Proof.
  intros Hs Hd Hp [Hn Hi]. unfold settled. rewrite Hs, Hd, Hp.
  split; assumption.
Qed.

Lemma settled_cleared (a : App) : settled (_clear_selection a).
Proof.
  split.
  - intros b _ H. discriminate H.
  - intros [[b H]|[m H]]; discriminate H.
Qed.

Lemma settled_render_image (a : App) : settled a -> settled (_render_image a).
Proof.
  destruct (render_image_is_set_view a) as (s & ox & oy & ->).
  apply settled_same; reflexivity.
Qed.

Lemma settled_render_cleared (a : App) :
  settled (_render_image (_clear_selection a)).
Proof. apply settled_render_image, settled_cleared. Qed.

Lemma settled_on_mouse_down (a : App) (x y : Z) :
  settled a -> settled (_on_mouse_down a x y).
Proof.
  intros Ha. unfold _on_mouse_down.
  destruct (pil_image a) as [img|] eqn:Hpil; [|exact Ha].
  repeat case_match; try exact Ha;
    (split; [intros b' Hm; discriminate Hm
            |intros _; simpl; rewrite Hpil; eexists; reflexivity]).
Qed.

Lemma settled_on_mouse_drag (a : App) (x y : Z) :
  settled a -> settled (_on_mouse_drag a x y).
Proof.
  intros Ha. unfold _on_mouse_drag.
  destruct (_drag_mode a) as [mode|] eqn:Hmode; [|exact Ha].
  destruct Ha as [_ Hi].
  assert (Hpil : is_Some (pil_image a))
    by (apply Hi; right; rewrite Hmode; eexists; reflexivity).
  repeat case_match;
    (split; [intros b' Hm; simpl in Hm; congruence|intros _; exact Hpil]).
Qed.

Lemma settled_on_mouse_up (a : App) : settled a -> settled (_on_mouse_up a).
Proof.
  intros [_ Hi]. unfold _on_mouse_up, settled.
  destruct a as [? ? ? ? ? [x0|] [y0|] [x1|] [y1|] ? ? ? ? ? ? ?];
    unfold sel_box in *; simpl in *;
    (split; [intros b _ Hb; try discriminate Hb
            |intros [H|[m H]]; [|discriminate H];
             try (destruct H as [b H]; discriminate H);
             apply Hi; left; eexists; reflexivity]).
  injection Hb as <-. exact (norm_sel_idempotent (x0, y0, x1, y1)).
Qed.

Lemma settled_save_crop (fmt : Formatter) (a : App) (fs : FileSystem) :
  settled a -> settled (fst (_save_crop fmt a fs)).
Proof.
  intros Ha. save_crop_paths; try exact Ha.
  apply settled_render_cleared.
Qed.

Lemma settled_step (fmt : Formatter) (a : App) (e : Event) :
  settled a -> settled (fst (step fmt a e)).
Proof.
  intros Ha. destruct e as [path file|x y|x y| | |fs|cv|cfg]; unfold step;
    cbn [fst].
  - unfold _load_image. repeat case_match; try exact Ha.
    apply settled_render_cleared.
  - apply settled_on_mouse_down, Ha.
  - apply settled_on_mouse_drag, Ha.
  - apply settled_on_mouse_up, Ha.
  - apply settled_cleared.
  - pose proof (settled_save_crop fmt a fs Ha) as H.
    destruct (_save_crop fmt a fs) as [a' o]. exact H.
  - apply settled_render_image. exact Ha.
  - exact Ha.
Qed.

Lemma run_settled (fmt : Formatter) (evs : list Event) :
  forall a, settled a -> settled (fst (run fmt a evs)).
Proof.
  induction evs as [|e rest IH]; intros a Ha; [exact Ha|].
  rewrite run_cons. simpl fst. apply IH, settled_step, Ha.
Qed.

Lemma settled_init (cfg : gmap string string) (cv : Z * Z) :
  settled (init cfg cv).
Proof.
  split.
  - intros b _ H. discriminate H.
  - intros [[b H]|[m H]]; discriminate H.
Qed.

(** X23. Whatever happened since start-up: when no drag session is open,
    the selection, if there is one, has its first corner at the top left;
    and a selection or a drag session exists only with an image loaded. So
    Enter on a selection never reports a missing image. *)
Theorem reachable_selection_settled (fmt : Formatter)
    (cfg : gmap string string) (cv : Z * Z) (evs : list Event)
    (x0 y0 x1 y1 : Z) (fs : FileSystem) :
  let a := fst (run fmt (init cfg cv) evs) in
  sel_box a = Some (x0, y0, x1, y1) ->
  (_drag_mode a = None -> x0 <= x1 /\ y0 <= y1) /\
  is_Some (pil_image a) /\
  snd (_save_crop fmt a fs) <> NoImage /\
  snd (_save_crop fmt a fs) <> NoSelection.
Proof.
  intros a Hsel.
  destruct (run_settled fmt evs _ (settled_init cfg cv)) as [Hn Hi].
  fold a in Hn, Hi.
  assert (Hpil : is_Some (pil_image a)) by (apply Hi; left; eexists; exact Hsel).
  split.
  { intros Hmode. specialize (Hn _ Hmode Hsel). unfold _norm_sel in Hn.
    injection Hn as H0 H1 H2 H3. lia. }
  split; [exact Hpil|].
  destruct Hpil as [[w h] Hpil].
  pose proof (sel_box_has_selection a _ Hsel) as Hhas.
  unfold _save_crop. rewrite Hpil, Hhas, Hsel. simpl negb. cbv iota.
  split; repeat case_match; discriminate.
Qed.

Lemma reachable_selection_settled_witness :
  let evs := [EvOpen "/pics/photo.jpg" (Some (1000, 800));
              EvButtonPress 300 250; EvB1Motion 100 50; EvButtonRelease] in
  let a := fst (run fragment_formatter (init default_config (800, 600)) evs) in
  sel_box a = Some (100, 50, 300, 250) /\ _drag_mode a = None /\
  100 <= 300 /\ 50 <= 250.
Proof.
  intros evs a.
  assert (Hsel : sel_box a = Some (100, 50, 300, 250)) by (vm_compute; reflexivity).
  assert (Hmode : _drag_mode a = None) by (vm_compute; reflexivity).
  split; [exact Hsel|]. split; [exact Hmode|].
  exact (proj1 (reachable_selection_settled fragment_formatter default_config
                  (800, 600) evs 100 50 300 250 fs_ok Hsel) Hmode).
Defined.

(** ** The scale stays positive *)

Lemma or_else_pos (x d : Z) : 0 <= x -> 0 < d -> 0 < Py.or_else x d.
Proof.
  intros Hx Hd. unfold Py.or_else.
  destruct (x =? 0) eqn:E; [exact Hd|]. apply Z.eqb_neq in E. lia.
Qed.

Lemma fit_scale_pos (w h : Z) (cv : Z * Z) :
  0 < w -> 0 < h -> sane_canvas cv -> (0 < fst (fst (fit (w, h) cv)))%Q.
Proof.
  intros Hw Hh [Hcw Hch]. unfold fit. cbn [fst snd].
  apply Q.min_glb_lt; apply Qdiv_Z_pos; try assumption;
    apply or_else_pos; lia.
Qed.

Lemma sane_same (a a' : App) :
  pil_image a' = pil_image a -> canvas a' = canvas a -> scale a' = scale a ->
  view_sane a -> view_sane a'.
Proof.
  intros Hp Hc Hs Ha. unfold view_sane. rewrite Hp, Hc, Hs. exact Ha.
Qed.

Lemma sane_render_image (a : App) :
  sane_canvas (canvas a) -> (0 < scale a)%Q ->
  (forall w h, pil_image a = Some (w, h) -> 0 < w /\ 0 < h) ->
  view_sane (_render_image a).
Proof.
  intros Hcv Hs Hpos. unfold _render_image.
  destruct (pil_image a) as [[w h]|] eqn:Hpil.
  2:{ split; [exact Hcv|]. split; [exact Hs|]. intros w h H. congruence. }
  destruct (Hpos w h eq_refl) as [Hw Hh].
  replace (w =? 0) with false by (symmetry; apply Z.eqb_neq; lia).
  replace (h =? 0) with false by (symmetry; apply Z.eqb_neq; lia).
  simpl orb. cbv iota.
  pose proof (fit_scale_pos w h (canvas a) Hw Hh Hcv) as Hfit.
  destruct (fit (w, h) (canvas a)) as [[s ox] oy].
  split; [exact Hcv|]. split; [exact Hfit|].
  unfold set_view. cbn [pil_image]. intros w' h' E. rewrite Hpil in E.
  injection E as <- <-. auto.
Qed.

Lemma sane_on_mouse_down (a : App) (x y : Z) :
  view_sane a -> view_sane (_on_mouse_down a x y).
Proof.
  apply sane_same; unfold _on_mouse_down; repeat case_match; simpl; congruence.
Qed.

Lemma sane_on_mouse_drag (a : App) (x y : Z) :
  view_sane a -> view_sane (_on_mouse_drag a x y).
Proof.
  apply sane_same; unfold _on_mouse_drag; repeat case_match; simpl; congruence.
Qed.

Lemma sane_on_mouse_up (a : App) :
  view_sane a -> view_sane (_on_mouse_up a).
Proof.
  apply sane_same; unfold _on_mouse_up; repeat case_match; simpl; congruence.
Qed.

Lemma sane_save_crop (fmt : Formatter) (a : App) (fs : FileSystem) :
  view_sane a -> view_sane (fst (_save_crop fmt a fs)).
Proof.
  intros Ha. save_crop_paths; try exact Ha.
  apply sane_render_image.
  - exact (proj1 Ha).
  - exact (proj1 (proj2 Ha)).
  - simpl. intros w h [= <- <-].
    match goal with
    | H : (_ <=? _) || (_ <=? _) = false |- _ =>
        apply orb_false_iff in H as [Hlr Htb];
        apply Z.leb_gt in Hlr; apply Z.leb_gt in Htb
    end. lia.
Qed.

Lemma sane_step (fmt : Formatter) (a : App) (e : Event) :
  sane_event e -> view_sane a -> view_sane (fst (step fmt a e)).
Proof.
  intros He Ha. destruct e as [path file|x y|x y| | |fs|cv|cfg]; unfold step;
    cbn [fst].
  - unfold _load_image. destruct file as [[w h]|]; [|exact Ha].
    destruct (negb _); [exact Ha|].
    apply sane_render_image.
    + exact (proj1 Ha).
    + exact (proj1 (proj2 Ha)).
    + simpl. intros w' h' [= <- <-]. exact He.
  - apply sane_on_mouse_down, Ha.
  - apply sane_on_mouse_drag, Ha.
  - apply sane_on_mouse_up, Ha.
  - revert Ha. apply sane_same; reflexivity.
  - pose proof (sane_save_crop fmt a fs Ha) as H.
    destruct (_save_crop fmt a fs) as [a' o]. exact H.
  - unfold _on_canvas_resize. apply sane_render_image.
    + exact He.
    + exact (proj1 (proj2 Ha)).
    + exact (proj2 (proj2 Ha)).
  - exact Ha.
Qed.

Lemma run_sane (fmt : Formatter) (evs : list Event) :
  Forall sane_event evs ->
  forall a, view_sane a -> view_sane (fst (run fmt a evs)).
Proof.
  induction 1 as [|e rest He _ IH]; intros a Ha; [exact Ha|].
  rewrite run_cons. simpl fst. apply IH, sane_step; assumption.
Qed.

Lemma sane_init (cfg : gmap string string) (cv : Z * Z) :
  sane_canvas cv -> view_sane (init cfg cv).
Proof.
  intros Hcv. split; [exact Hcv|]. split; [reflexivity|].
  intros w h H. discriminate H.
Qed.

(** X24. The scale never reaches zero.  When canvas sizes are not negative
    and the images that open have positive sides, then after any sequence
    of events the scale is positive and the image in memory has positive
    sides (also after an overwrite has replaced it by its crop).  So the
    division in [_canvas_to_image] does not raise, and [_canvas_to_image]
    undoes the placement [offset + i * scale] in every state the program
    reaches (floats taken as rationals). *)
Theorem reachable_scale_positive (fmt : Formatter) (cfg : gmap string string)
    (cv : Z * Z) (evs : list Event) :
  sane_canvas cv -> Forall sane_event evs ->
  let a := fst (run fmt (init cfg cv) evs) in
  (0 < scale a)%Q /\
  Qeq_bool (scale a) 0 = false /\
  (forall w h, pil_image a = Some (w, h) -> 0 < w /\ 0 < h) /\
  (forall ix iy : Q,
     let screen_x := (inject_Z (offset_x a) + ix * scale a)%Q in
     let screen_y := (inject_Z (offset_y a) + iy * scale a)%Q in
     (fst (_canvas_to_image a screen_x screen_y) == ix)%Q /\
     (snd (_canvas_to_image a screen_x screen_y) == iy)%Q).
Proof.
  intros Hcv Hevs a.
  destruct (run_sane fmt evs Hevs _ (sane_init cfg cv Hcv)) as (_ & Hs & Hpos).
  fold a in Hs, Hpos.
  assert (Hne : ~ (scale a == 0)%Q).
  { intros E. rewrite E in Hs. exact (Qlt_irrefl _ Hs). }
  split; [exact Hs|]. split; [apply Qeq_bool_false; exact Hne|].
  split; [exact Hpos|].
  intros ix iy sx sy. subst sx sy. unfold _canvas_to_image. cbn [fst snd].
  split; field; exact Hne.
Qed.

Lemma reachable_scale_positive_witness :
  let evs := [EvOpen "/pics/photo.jpg" (Some (1000, 800));
              EvButtonPress 100 100; EvB1Motion 300 300; EvButtonRelease;
              EvSettings {[ "overwrite" := "true" ]}; EvReturn fs_ok;
              EvConfigure (400, 300)] in
  let a := fst (run fragment_formatter (init default_config (500, 400)) evs) in
  pil_image a = Some (400, 400) /\ (0 < scale a)%Q /\ 0 < 400 /\ 0 < 400.
Proof.
  intros evs a.
  assert (Hpil : pil_image a = Some (400, 400)) by (vm_compute; reflexivity).
  assert (Hcv : sane_canvas (500, 400)) by (split; simpl; lia).
  assert (Hevs : Forall sane_event evs)
    by (repeat constructor; simpl; lia).
  destruct (reachable_scale_positive fragment_formatter default_config
              (500, 400) evs Hcv Hevs) as (Hpos & _ & Hsides & _).
  split; [exact Hpil|]. split; [exact Hpos|]. exact (Hsides 400 400 Hpil).
Defined.

(** ** Loading *)

(** [_load_image] is [_load_image_exits] on the two answers it knows. *)
Lemma load_image_is_exits (a : App) (path : string) (file : option (Z * Z)) :
  _load_image a path file
  = _load_image_exits a path
      (match file with None => NotAFile | Some size => Loads size end).
Proof. destruct file; reflexivity. Qed.

(** X26. The exits of a load.  No exit touches the crop counters or the
    canvas size.  A path that is no file, an image that does not open and
    an extension that is not supported leave the application as it is.  A
    load stopped by [convert] has replaced the image in memory and nothing
    else: the path, the selection, the session and the view are those of
    the image before.  A load stopped by [os.listdir] has replaced the
    image and its path and nothing else.  A load that runs to its end sets
    the image and its path, clears the selection and the session, and fits
    the scale to the new image. *)
Theorem load_image_exits_effects (a : App) (path : string) (ans : LoadAnswer) :
  let a' := _load_image_exits a path ans in
  let supported :=
    Py.mem (Py.lower (snd (Py.splitext path))) SUPPORTED_EXTS in
  crop_counter a' = crop_counter a /\ canvas a' = canvas a /\
  (supported = false \/ ans = NotAFile \/ ans = OpenRaises -> a' = a) /\
  (supported = true -> forall w h,
     (ans = ConvertRaises (w, h) ->
        pil_image a' = Some (w, h) /\ image_path a' = image_path a /\
        sel_box a' = sel_box a /\ _drag_mode a' = _drag_mode a /\
        scale a' = scale a /\ offset_x a' = offset_x a /\
        offset_y a' = offset_y a /\
        set_image a' (image_path a) (pil_image a) = a) /\
     (ans = ListdirRaises (w, h) ->
        pil_image a' = Some (w, h) /\ image_path a' = Some path /\
        sel_box a' = sel_box a /\ _drag_mode a' = _drag_mode a /\
        scale a' = scale a /\ offset_x a' = offset_x a /\
        offset_y a' = offset_y a /\
        set_image a' (image_path a) (pil_image a) = a) /\
     (ans = Loads (w, h) ->
        pil_image a' = Some (w, h) /\ image_path a' = Some path /\
        _has_selection a' = false /\ sel_box a' = None /\
        _drag_mode a' = None /\
        (w <> 0 -> h <> 0 ->
         scale a'
         = Qmin (inject_Z (Py.or_else (fst (canvas a)) 800) / inject_Z w)
                (inject_Z (Py.or_else (snd (canvas a)) 600) / inject_Z h)))).
Proof.
  intros a' supported. subst a' supported. unfold _load_image_exits.
  destruct (Py.mem (Py.lower (snd (Py.splitext path))) SUPPORTED_EXTS) eqn:Hext;
    simpl negb; cbv iota.
  2:{ destruct ans; repeat split; try reflexivity; intros; discriminate. }
  destruct ans as [| |size|size|[w0 h0]].
  - repeat split; try reflexivity; intros; discriminate.
  - repeat split; try reflexivity; intros; discriminate.
  - split; [reflexivity|]. split; [reflexivity|].
    split; [intros [H|[H|H]]; discriminate|].
    intros _ w h. split; [|split; intros H; discriminate H].
    intros [= ->]. destruct a. repeat split; reflexivity.
  - split; [reflexivity|]. split; [reflexivity|].
    split; [intros [H|[H|H]]; discriminate|].
    intros _ w h. split; [intros H; discriminate H|].
    split; [|intros H; discriminate H].
    intros [= ->]. destruct a. repeat split; reflexivity.
  - unfold _render_image, _clear_selection, set_image, set_drag, set_sel.
    cbn [pil_image canvas].
    destruct ((w0 =? 0) || (h0 =? 0)) eqn:Hz.
    + split; [reflexivity|]. split; [reflexivity|].
      split; [intros [H|[H|H]]; discriminate|].
      intros _ w h. split; [intros H; discriminate H|].
      split; [intros H; discriminate H|].
      intros [= <- <-]. repeat split; try reflexivity. intros Hw Hh.
      apply orb_true_iff in Hz as [Hz|Hz]; apply Z.eqb_eq in Hz; contradiction.
    + unfold fit, set_view. cbv zeta.
      split; [reflexivity|]. split; [reflexivity|].
      split; [intros [H|[H|H]]; discriminate|].
      intros _ w h. split; [intros H; discriminate H|].
      split; [intros H; discriminate H|].
      intros [= <- <-]. repeat split; reflexivity.
Qed.

Lemma load_image_exits_effects_witness :
  let a' := _load_image_exits selected "/pics/other.png" (ConvertRaises (640, 480)) in
  pil_image a' = Some (640, 480) /\
  image_path a' = image_path selected /\
  sel_box a' = sel_box selected /\
  scale a' = scale selected /\
  _load_image_exits selected "/pics/notes.txt" (Loads (10, 10)) = selected.
Proof.
  intros a'.
  destruct (load_image_exits_effects selected "/pics/other.png"
              (ConvertRaises (640, 480))) as (_ & _ & _ & Hstop).
  destruct (proj1 (Hstop ltac:(vm_compute; reflexivity) 640 480) eq_refl)
    as (Hpil & Hpath & Hsel & _ & Hscale & _).
  destruct (load_image_exits_effects selected "/pics/notes.txt" (Loads (10, 10)))
    as (_ & _ & Hrefused & _).
  split; [exact Hpil|]. split; [exact Hpath|]. split; [exact Hsel|].
  split; [exact Hscale|]. apply Hrefused. left. vm_compute. reflexivity.
Defined.

(** X30. The invariants of the event loop also hold after a load that
    stops in the middle.  Whatever the answer to a load, as long as the
    size it reports has positive sides: if the image path had a supported
    extension it still has one; if the selection was settled it still is;
    and if the scale and the sides of the image were positive they still
    are. *)
Theorem load_exits_keep_invariants (a : App) (path : string) (ans : LoadAnswer) :
  sane_answer ans ->
  let a' := _load_image_exits a path ans in
  (supported_source a -> supported_source a') /\
  (settled a -> settled a') /\
  (view_sane a -> view_sane a').
Proof.
  intros Hans a'. subst a'. unfold _load_image_exits.
  destruct (Py.mem (Py.lower (snd (Py.splitext path))) SUPPORTED_EXTS) eqn:Hext;
    simpl negb; cbv iota.
  2:{ destruct ans; auto. }
  destruct ans as [| |[w h]|[w h]|[w h]]; auto; simpl in Hans.
  - split; [|split].
    + intros Ha p. exact (Ha p).
    + intros [Hn Hi]. split; [exact Hn|]. intros _. eexists. reflexivity.
    + intros (Hcv & Hs & _). split; [exact Hcv|]. split; [exact Hs|].
      cbn [pil_image set_image]. intros w' h' [= <- <-]. exact Hans.
  - split; [|split].
    + intros _ p. cbn [image_path set_image]. intros [= <-]. exact Hext.
    + intros [Hn Hi]. split; [exact Hn|]. intros _. eexists. reflexivity.
    + intros (Hcv & Hs & _). split; [exact Hcv|]. split; [exact Hs|].
      cbn [pil_image set_image]. intros w' h' [= <- <-]. exact Hans.
  - split; [|split].
    + intros _ p. rewrite render_image_image_path.
      cbn [image_path _clear_selection set_drag set_sel set_image].
      intros [= <-]. exact Hext.
    + intros _. apply settled_render_cleared.
    + intros (Hcv & Hs & _). apply sane_render_image.
      * exact Hcv.
      * exact Hs.
      * cbn [pil_image _clear_selection set_drag set_sel set_image].
        intros w' h' [= <- <-]. exact Hans.
Qed.

Lemma load_exits_keep_invariants_witness :
  settled (_load_image_exits (init default_config (500, 400)) "/pics/other.png"
             (ConvertRaises (640, 480))) /\
  view_sane (_load_image_exits (init default_config (500, 400)) "/pics/other.png"
               (ListdirRaises (640, 480))).
Proof.
  split.
  - apply (load_exits_keep_invariants (init default_config (500, 400))
             "/pics/other.png" (ConvertRaises (640, 480))).
    + simpl. lia.
    + apply settled_init.
  - apply (load_exits_keep_invariants (init default_config (500, 400))
             "/pics/other.png" (ListdirRaises (640, 480))).
    + simpl. lia.
    + apply sane_init. split; simpl; lia.
Defined.

(** ** The images of the folder *)

Lemma list_index_lookup (x : string) (l : list string) (i : nat) :
  list_index x l = Some i -> l !! i = Some x.
Proof.
  revert i. induction l as [|y rest IH]; intros i; [discriminate|]. simpl.
  destruct (String.eqb y x) eqn:E.
  - intros [= <-]. apply String.eqb_eq in E. subst. reflexivity.
  - destruct (list_index x rest) as [j|]; [|discriminate].
    intros [= <-]. simpl. apply IH. reflexivity.
Qed.

Lemma folder_listing_entries (folder : string) (listdir : list string) :
  Forall (fun p => exists name,
            In name listdir /\
            Py.mem (Py.lower (snd (Py.splitext name))) SUPPORTED_EXTS = true /\
            p = OsPath.join folder name)
         (folder_listing folder listdir).
Proof.
  apply List.Forall_forall. intros p Hp. unfold folder_listing in Hp.
  apply in_map_iff in Hp as (name & <- & Hname).
  apply filter_In in Hname as [Hname Hext].
  exists name. split; [|split; [exact Hext|reflexivity]].
  apply (Permutation_in name (merge_sort_Permutation String.le listdir)).
  exact Hname.
Qed.

(** X27. After an image is loaded, the folder index points at it in the
    folder list, whether the directory listing holds the path or not (then
    the path is appended); every other entry of the list is a name of the
    listing with a supported extension, joined to the folder of the
    image. *)
Theorem load_folder_points_at_image (path : string) (listdir : list string) :
  let f := _load_folder path listdir in
  0 <= folder_index f < Z.of_nat (length (folder_images f)) /\
  folder_images f !! Z.to_nat (folder_index f) = Some path /\
  Forall (fun p => p = path \/
            exists name,
              In name listdir /\
              Py.mem (Py.lower (snd (Py.splitext name))) SUPPORTED_EXTS = true /\
              p = OsPath.join (OsPath.dirname path) name)
         (folder_images f).
Proof.
  intros f. subst f. unfold _load_folder.
  pose proof (folder_listing_entries (OsPath.dirname path) listdir) as Hall.
  assert (Hall' : Forall (fun p => p = path \/
            exists name,
              In name listdir /\
              Py.mem (Py.lower (snd (Py.splitext name))) SUPPORTED_EXTS = true /\
              p = OsPath.join (OsPath.dirname path) name)
            (folder_listing (OsPath.dirname path) listdir)).
  { revert Hall. apply List.Forall_impl. intros p H. right. exact H. }
  destruct (list_index path (folder_listing (OsPath.dirname path) listdir))
    as [i|] eqn:Hidx; cbn [folder_images folder_index].
  - apply list_index_lookup in Hidx. pose proof (lookup_lt_Some _ _ _ Hidx).
    rewrite Nat2Z.id. split; [lia|]. split; [exact Hidx|exact Hall'].
  - rewrite length_app. simpl length. split; [lia|]. split.
    + replace (Z.to_nat (Z.of_nat (length (folder_listing (OsPath.dirname path)
                                             listdir) + 1) - 1))
        with (length (folder_listing (OsPath.dirname path) listdir) + 0)%nat
        by lia.
      rewrite lookup_app_r by lia.
      replace (_ + 0 - _)%nat with O by lia. reflexivity.
    + apply Forall_app. split; [exact Hall'|].
      constructor; [left; reflexivity|constructor].
Qed.

Example load_folder_listing :
  _load_folder "/pics/b.png" ["c.JPG"; "a.txt"; "b.png"; "a.gif"]
  = {| folder_images := ["/pics/a.gif"; "/pics/b.png"; "/pics/c.JPG"];
       folder_index := 1 |}.
Proof. vm_compute. reflexivity. Qed.

Lemma navigate_some (step : Z) (f : Folder) :
  folder_images f <> [] ->
  let i := (folder_index f + step) mod Z.of_nat (length (folder_images f)) in
  exists path,
    folder_images f !! Z.to_nat i = Some path /\
    navigate step f
    = Some ({| folder_images := folder_images f; folder_index := i |}, path).
Proof.
  intros Hne i. unfold navigate.
  destruct (folder_images f) as [|p0 rest] eqn:Himgs; [contradiction|].
  fold i.
  assert (Hrange : 0 <= i < Z.of_nat (length (p0 :: rest))).
  { apply Z.mod_pos_bound. simpl length. lia. }
  destruct ((p0 :: rest) !! Z.to_nat i) as [path|] eqn:Hlook.
  - exists path. split; reflexivity.
  - apply lookup_ge_None in Hlook. lia.
Qed.

(** X28. With images in the folder list, the arrow keys always find an
    image to load, whatever the index was: the new index is the old one
    plus or minus one modulo the number of images, it lies in the list, and
    the path handed to the loader is the entry at it. *)
Theorem navigate_stays_in_folder (f : Folder) :
  folder_images f <> [] ->
  let n := Z.of_nat (length (folder_images f)) in
  (exists f' path,
     _next_image f = Some (f', path) /\
     folder_images f' = folder_images f /\
     folder_index f' = (folder_index f + 1) mod n /\
     0 <= folder_index f' < n /\
     folder_images f !! Z.to_nat (folder_index f') = Some path) /\
  (exists f' path,
     _prev_image f = Some (f', path) /\
     folder_images f' = folder_images f /\
     folder_index f' = (folder_index f - 1) mod n /\
     0 <= folder_index f' < n /\
     folder_images f !! Z.to_nat (folder_index f') = Some path).
Proof.
  intros Hne n.
  assert (Hlen : 0 < n).
  { subst n. destruct (folder_images f); [contradiction|simpl length; lia]. }
  split.
  - destruct (navigate_some 1 f Hne) as (path & Hlook & Hnav).
    eexists _, path. split; [exact Hnav|]. cbn [folder_images folder_index].
    split; [reflexivity|]. split; [reflexivity|].
    split; [apply Z.mod_pos_bound; exact Hlen|exact Hlook].
  - destruct (navigate_some (-1) f Hne) as (path & Hlook & Hnav).
    eexists _, path. split; [exact Hnav|]. cbn [folder_images folder_index].
    split; [reflexivity|]. split; [reflexivity|].
    split; [apply Z.mod_pos_bound; exact Hlen|exact Hlook].
Qed.

Lemma navigate_stays_in_folder_witness :
  exists f' path,
    _prev_image {| folder_images := ["/pics/a.gif"; "/pics/b.png"; "/pics/c.JPG"];
                   folder_index := 0 |} = Some (f', path) /\
    folder_index f' = 2 /\ path = "/pics/c.JPG".
Proof.
  destruct (navigate_stays_in_folder
              {| folder_images := ["/pics/a.gif"; "/pics/b.png"; "/pics/c.JPG"];
                 folder_index := 0 |} ltac:(discriminate))
    as [_ (f' & path & Hnav & _ & Hidx & _ & Hlook)].
  exists f', path. split; [exact Hnav|]. split; [exact Hidx|].
  rewrite Hidx in Hlook. injection Hlook as <-. reflexivity.
Defined.

Lemma list_index_NoDup (x : string) (l : list string) (n : nat) :
  NoDup l -> l !! n = Some x -> list_index x l = Some n.
Proof.
  intros Hnd. revert n. induction Hnd as [|y rest Hy Hnd IH]; intros n Hl.
  - discriminate Hl.
  - destruct n as [|n]; simpl in *.
    + injection Hl as ->. rewrite String.eqb_refl. reflexivity.
    + assert (Hne : y <> x).
      { intros ->. apply Hy. eapply list_elem_of_lookup_2. exact Hl. }
      apply String.eqb_neq in Hne. rewrite Hne.
      rewrite (IH n Hl). reflexivity.
Qed.

(** A load that lists the folder as it was listed before leaves the list
    and puts the index on the path. *)
Lemma load_folder_same (images listdir : list string) (n : nat) (p : string) :
  NoDup images -> images !! n = Some p ->
  folder_listing (OsPath.dirname p) listdir = images ->
  _load_folder p listdir
  = {| folder_images := images; folder_index := Z.of_nat n |}.
Proof.
  intros Hnd Hl Hlist. unfold _load_folder. rewrite Hlist.
  rewrite (list_index_NoDup p images n Hnd Hl). reflexivity.
Qed.

Lemma navigate_load_index (step : Z) (loads : string -> option (list string))
    (images : list string) (i : Z) :
  NoDup images -> images <> [] ->
  (forall p listdir, In p images -> loads p = Some listdir ->
                     folder_listing (OsPath.dirname p) listdir = images) ->
  navigate_load step loads {| folder_images := images; folder_index := i |}
  = {| folder_images := images;
       folder_index := (i + step) mod Z.of_nat (length images) |}.
Proof.
  intros Hnd Hne Hstable. unfold navigate_load.
  destruct (navigate_some step {| folder_images := images; folder_index := i |}
              Hne) as (p & Hlook & ->).
  cbn [folder_images folder_index] in *.
  destruct (loads p) as [listdir|] eqn:Hloads; [|reflexivity].
  assert (Hin : In p images).
  { apply list_elem_of_In. eapply list_elem_of_lookup_2. exact Hlook. }
  rewrite (load_folder_same images listdir _ p Hnd Hlook
             (Hstable p listdir Hin Hloads)).
  rewrite Z2Nat.id; [reflexivity|].
  apply Z.mod_pos_bound. destruct images; [contradiction|simpl length; lia].
Qed.

(** X29. Next and previous undo each other, the load they make included.
    Take a folder list without repetition, an index in it, and loads that
    either stop before the folder is listed or find the folder as the list
    has it.  Then the right arrow followed by the left arrow, and the left
    arrow followed by the right arrow, end on the image they started from,
    with the same list; and the keys wrap around: right on the last image
    gives the first, left on the first gives the last. *)
Theorem next_prev_round_trip (images : list string) (i : Z)
    (loads : string -> option (list string)) :
  NoDup images ->
  0 <= i < Z.of_nat (length images) ->
  (forall p listdir, In p images -> loads p = Some listdir ->
                     folder_listing (OsPath.dirname p) listdir = images) ->
  let f := {| folder_images := images; folder_index := i |} in
  navigate_load (-1) loads (navigate_load 1 loads f) = f /\
  navigate_load 1 loads (navigate_load (-1) loads f) = f /\
  (i = Z.of_nat (length images) - 1 ->
   folder_index (navigate_load 1 loads f) = 0) /\
  (i = 0 ->
   folder_index (navigate_load (-1) loads f) = Z.of_nat (length images) - 1).
Proof.
  intros Hnd Hi Hstable f. subst f.
  assert (Hne : images <> []) by (intros ->; simpl in Hi; lia).
  assert (Hb1 : ((i + 1) mod Z.of_nat (length images) + -1)
                  mod Z.of_nat (length images) = i).
  { replace ((i + 1) mod Z.of_nat (length images) + -1)
      with ((i + 1) mod Z.of_nat (length images) - 1) by lia.
    rewrite Zminus_mod_idemp_l.
    replace (i + 1 - 1) with i by lia. apply Z.mod_small, Hi. }
  assert (Hb2 : ((i + -1) mod Z.of_nat (length images) + 1)
                  mod Z.of_nat (length images) = i).
  { rewrite Zplus_mod_idemp_l.
    replace (i + -1 + 1) with i by lia. apply Z.mod_small, Hi. }
  rewrite !(navigate_load_index _ loads images _ Hnd Hne Hstable).
  cbn [folder_index].
  split; [rewrite Hb1; reflexivity|].
  split; [rewrite Hb2; reflexivity|].
  split.
  - intros ->.
    replace (Z.of_nat (length images) - 1 + 1) with
      (1 * Z.of_nat (length images)) by lia.
    apply Z_mod_mult.
  - intros ->.
    replace (0 + -1) with (Z.of_nat (length images) - 1
                           + (-1) * Z.of_nat (length images)) by lia.
    rewrite Z_mod_plus_full. apply Z.mod_small. lia.
Qed.

Lemma next_prev_round_trip_witness :
  let images := ["/pics/a.gif"; "/pics/b.png"; "/pics/c.JPG"] in
  let loads := fun p : string =>
    if String.eqb p "/pics/a.gif" then None
    else Some ["c.JPG"; "a.txt"; "b.png"; "a.gif"] in
  let f := {| folder_images := images; folder_index := 2 |} in
  navigate_load (-1) loads (navigate_load 1 loads f) = f /\
  folder_index (navigate_load 1 loads f) = 0.
Proof.
  intros images loads f.
  assert (Hnd : NoDup images).
  { subst images. apply (bool_decide_unpack _). vm_compute. reflexivity. }
  assert (Hstable : forall p listdir, In p images -> loads p = Some listdir ->
                      folder_listing (OsPath.dirname p) listdir = images).
  { intros p listdir Hin. subst images loads. simpl in Hin.
    destruct Hin as [<-|[<-|[<-|[]]]]; simpl; intros [= <-];
      vm_compute; reflexivity. }
  destruct (next_prev_round_trip images 2 loads Hnd ltac:(simpl; lia) Hstable)
    as (Hround & _ & Hwrap & _).
  split; [exact Hround|]. apply Hwrap. reflexivity.
Defined.
